(** * OAuth manager of the MCP wrapper: a shallow embedding of [oauth.ts]

    The development follows the source file top to bottom:
    - [JS]: the fragment of JavaScript values and operators the manager
      relies on (truthiness, property access, numeric coercion, JSON);
    - [Run]: the state-and-exception monad in which the asynchronous
      methods are written (one logical caller, so [await] is sequencing);
    - the [OAuthManager] methods themselves;
    - the properties of the manager, stated against the methods. *)

From Stdlib Require Import ZArith List String Ascii Bool Lia.
From Stdlib Require Import DecimalString.
Import ListNotations.
Local Open Scope string_scope.
Local Open Scope list_scope.
Local Open Scope Z_scope.

Set Warnings "-register-all".

(** ** JavaScript values *)

Module JS.

(** A value as the manager sees it: what [JSON.parse] produces, plus
    [undefined] and [NaN], which arise from absent properties and from
    arithmetic.  Numbers are integers: every number the manager computes
    with is a count of milliseconds or seconds. An object is the list of
    its own properties in insertion order. *)
Inductive value : Type :=
  | VUndef
  | VNull
  | VBool (b : bool)
  | VNum (n : Z)
  | VNaN
  | VStr (s : string)
  | VArr (items : list value)
  | VObj (fields : list (string * value)).

(** Exceptions. [Error] is the only one the source constructs; the others
    are raised by the runtime. *)
Inductive exn : Type :=
  | Error (message : string)
  | TypeError            (* property of undefined/null, invalid URL *)
  | SyntaxError          (* JSON.parse, response.json() *)
  | FetchFailed          (* fetch rejected: no response was received *)
  | FsError.             (* a file-system call failed *)

(** ToBoolean. *)
Definition truthy (v : value) : bool :=
  match v with
  | VUndef | VNull | VNaN => false
  | VBool b => b
  | VNum n => negb (n =? 0)
  | VStr s => negb (String.eqb s "")
  | VArr _ | VObj _ => true
  end.

Fixpoint lookup (k : string) (fields : list (string * value)) : option value :=
  match fields with
  | [] => None
  | (k', v) :: rest => if String.eqb k k' then Some v else lookup k rest
  end.

(** [v.k] for the property names the manager reads ([tokens], [expiresAt],
    [access_token], ...): none of them is defined on the prototype of a
    primitive or of an array, so only an object can hold one. Reading a
    property of [undefined] or [null] throws. *)
Definition get (v : value) (k : string) : exn + value :=
  match v with
  | VUndef | VNull => inl TypeError
  | VObj fields => inr (match lookup k fields with Some x => x | None => VUndef end)
  | _ => inr VUndef
  end.

Fixpoint assign (k : string) (x : value) (fields : list (string * value))
  : list (string * value) :=
  match fields with
  | [] => [(k, x)]
  | (k', v) :: rest =>
      if String.eqb k k' then (k, x) :: rest else (k', v) :: assign k x rest
  end.

(** [v.k = x]. The module is strict code: assigning to a property of a
    primitive throws, as does assigning to a property of [undefined]. (An
    array would take the property; the manager only assigns to a session
    it has just read [tokens.refresh_token] from, which no array has.) *)
Definition set (v : value) (k : string) (x : value) : exn + value :=
  match v with
  | VObj fields => inr (VObj (assign k x fields))
  | _ => inl TypeError
  end.

(** A parsed URL. *)
Record URL : Type := {
  protocol : string;                      (* with its colon: "https:" *)
  host : string;
  pathname : string;
  searchParams : list (string * value)
}.

(** Two services of the runtime are taken as given: ToNumber on strings,
    arrays and objects (numeric-literal grammar, [toString] of the
    elements; [None] is [NaN]), and the URL parser behind [new URL(x)]
    and [fetch(x, ...)] ([None]: [x] is not a URL). *)
Class Runtime : Type := {
  ToNumberExt : value -> option Z;
  URL_parse : value -> option URL
}.

Definition ToNumber {runtime : Runtime} (v : value) : option Z :=
  match v with
  | VUndef | VNaN => None
  | VNull => Some 0
  | VBool b => Some (if b then 1 else 0)
  | VNum n => Some n
  | VStr _ | VArr _ | VObj _ => ToNumberExt v
  end.

Definition of_number (n : option Z) : value :=
  match n with Some z => VNum z | None => VNaN end.

(** [a * b], [a + b] and [a - b] on numbers ([None] is [NaN]). *)
Definition lift2 (f : Z -> Z -> Z) (a b : option Z) : option Z :=
  match a, b with Some x, Some y => Some (f x y) | _, _ => None end.

(** [n >= v] with a number on the left: false when [v] is [NaN]. *)
Definition num_ge (n : Z) (v : option Z) : bool :=
  match v with Some m => m <=? n | None => false end.

(** What [JSON.parse (JSON.stringify v)] gives back for a value [v] that is
    stored in a property or an array: [undefined] properties are dropped,
    [undefined] and [NaN] elements become [null]. *)
Fixpoint to_json (v : value) : value :=
  match v with
  | VUndef | VNaN => VNull
  | VArr items => VArr (map to_json items)
  | VObj fields =>
      VObj ((fix props (l : list (string * value)) : list (string * value) :=
               match l with
               | [] => []
               | (k, VUndef) :: rest => props rest
               | (k, x) :: rest => (k, to_json x) :: props rest
               end) fields)
  | _ => v
  end.

End JS.

(** ** The two primitives of [node:crypto] behind [generatePKCE] *)

Module Crypto.

(** *** [toString('base64url')], [digest('base64url')]

    Bytes are integers in [0, 256). Three bytes give four sextets; a
    trailing group of one or two bytes gives two or three, and no padding
    is written. *)

Definition alphabet : list ascii :=
  list_ascii_of_string
    "ABCDEFGHIJKLMNOPQRSTUVWXYZabcdefghijklmnopqrstuvwxyz0123456789-_".

Fixpoint sextets (bytes : list Z) : list Z :=
  match bytes with
  | a :: b :: c :: rest =>
      Z.shiftr a 2
      :: Z.lor (Z.shiftl (Z.land a 3) 4) (Z.shiftr b 4)
      :: Z.lor (Z.shiftl (Z.land b 15) 2) (Z.shiftr c 6)
      :: Z.land c 63
      :: sextets rest
  | [a; b] =>
      [Z.shiftr a 2;
       Z.lor (Z.shiftl (Z.land a 3) 4) (Z.shiftr b 4);
       Z.shiftl (Z.land b 15) 2]
  | [a] => [Z.shiftr a 2; Z.shiftl (Z.land a 3) 4]
  | [] => []
  end.

Definition digit (s : Z) : ascii := nth (Z.to_nat s) alphabet "A"%char.

Definition base64url (bytes : list Z) : string :=
  string_of_list_ascii (map digit (sextets bytes)).

(** The inverse direction, used to show that the encoding loses nothing. *)
Fixpoint index_of (c : ascii) (l : list ascii) : Z :=
  match l with
  | [] => 0
  | x :: rest => if Ascii.eqb c x then 0 else 1 + index_of c rest
  end.

Fixpoint unsextets (ss : list Z) : list Z :=
  match ss with
  | s0 :: s1 :: s2 :: s3 :: rest =>
      Z.lor (Z.shiftl s0 2) (Z.shiftr s1 4)
      :: Z.lor (Z.shiftl (Z.land s1 15) 4) (Z.shiftr s2 2)
      :: Z.lor (Z.shiftl (Z.land s2 3) 6) s3
      :: unsextets rest
  | [s0; s1; s2] =>
      [Z.lor (Z.shiftl s0 2) (Z.shiftr s1 4);
       Z.lor (Z.shiftl (Z.land s1 15) 4) (Z.shiftr s2 2)]
  | [s0; s1] => [Z.lor (Z.shiftl s0 2) (Z.shiftr s1 4)]
  | _ => []
  end.

Definition base64url_decode (s : string) : list Z :=
  unsextets (map (fun c => index_of c alphabet) (list_ascii_of_string s)).

(** *** [createHash('sha256')] (FIPS 180-4) on 32-bit words held in [Z] *)

Definition w32 (x : Z) : Z := Z.land x 0xffffffff.
Definition add32 (x y : Z) : Z := w32 (x + y).
Definition rotr (n x : Z) : Z := w32 (Z.lor (Z.shiftr x n) (Z.shiftl x (32 - n))).
Definition not32 (x : Z) : Z := Z.lxor x 0xffffffff.

Definition Ch (x y z : Z) : Z := Z.lxor (Z.land x y) (Z.land (not32 x) z).
Definition Maj (x y z : Z) : Z :=
  Z.lxor (Z.lxor (Z.land x y) (Z.land x z)) (Z.land y z).
Definition Sigma0 (x : Z) : Z := Z.lxor (Z.lxor (rotr 2 x) (rotr 13 x)) (rotr 22 x).
Definition Sigma1 (x : Z) : Z := Z.lxor (Z.lxor (rotr 6 x) (rotr 11 x)) (rotr 25 x).
Definition sigma0 (x : Z) : Z := Z.lxor (Z.lxor (rotr 7 x) (rotr 18 x)) (Z.shiftr x 3).
Definition sigma1 (x : Z) : Z := Z.lxor (Z.lxor (rotr 17 x) (rotr 19 x)) (Z.shiftr x 10).

(** The constants are fractional parts of roots of the first primes:
    [frac32 k p] is the first 32 bits of the fractional part of the
    [k]-th root of [p], found as the integer [k]-th root of
    [p * 2 ^ (32 * k)], bit by bit from the top. *)
Definition is_prime (n : Z) : bool :=
  forallb (fun d => negb (n mod d =? 0))
          (map Z.of_nat (seq 2 (Z.to_nat n - 2))).

Definition first_primes : list Z :=
  filter is_prime (map Z.of_nat (seq 2 310)).

Fixpoint root_bits (k : Z) (bits : nat) (n r : Z) : Z :=
  match bits with
  | O => r
  | S b =>
      let c := r + 2 ^ Z.of_nat b in
      root_bits k b n (if c ^ k <=? n then c else r)
  end.

Definition frac32 (k p : Z) : Z :=
  w32 (root_bits k 40 (p * 2 ^ (32 * k)) 0).

Definition K : list Z := map (frac32 3) first_primes.

Definition H0 : list Z := map (frac32 2) (firstn 8 first_primes).

(** Big-endian bytes of a word, most significant first. *)
Fixpoint be_bytes (n : nat) (x : Z) : list Z :=
  match n with
  | O => []
  | S m => Z.land (Z.shiftr x (8 * Z.of_nat m)) 255 :: be_bytes m x
  end.

Fixpoint be_words (bytes : list Z) : list Z :=
  match bytes with
  | a :: b :: c :: d :: rest =>
      Z.lor (Z.lor (Z.shiftl a 24) (Z.shiftl b 16)) (Z.lor (Z.shiftl c 8) d)
      :: be_words rest
  | _ => []
  end.

(** The message, a [1] bit, zeros up to 56 modulo 64, the bit length on
    eight bytes. *)
Definition pad (msg : list Z) : list Z :=
  let len := Z.of_nat (List.length msg) in
  let zeros := Z.to_nat ((55 - len) mod 64) in
  msg ++ [0x80] ++ repeat 0 zeros ++ be_bytes 8 (8 * len).

(** The message schedule, newest word first. *)
Fixpoint schedule (n : nat) (ws : list Z) : list Z :=
  match n with
  | O => ws
  | S m =>
      let w := add32 (add32 (sigma1 (nth 1 ws 0)) (nth 6 ws 0))
                     (add32 (sigma0 (nth 14 ws 0)) (nth 15 ws 0)) in
      schedule m (w :: ws)
  end.

Definition round (st : list Z) (kw : Z * Z) : list Z :=
  match st with
  | [a; b; c; d; e; f; g; h] =>
      let t1 := add32 (add32 (add32 h (Sigma1 e)) (add32 (Ch e f g) (fst kw))) (snd kw) in
      let t2 := add32 (Sigma0 a) (Maj a b c) in
      [add32 t1 t2; a; b; c; add32 d t1; e; f; g]
  | _ => st
  end.

Definition compress (h : list Z) (block : list Z) : list Z :=
  let ws := rev (schedule 48 (rev (be_words block))) in
  let st := fold_left round (combine K ws) h in
  map (fun p => add32 (fst p) (snd p)) (combine h st).

Fixpoint blocks (n : nat) (h : list Z) (bytes : list Z) : list Z :=
  match n with
  | O => h
  | S m => blocks m (compress h (firstn 64 bytes)) (skipn 64 bytes)
  end.

Definition sha256 (msg : list Z) : list Z :=
  let padded := pad msg in
  flat_map (be_bytes 4) (blocks (List.length padded / 64) H0 padded).

(** The bytes [update] feeds to the hash for a string of ASCII
    characters. *)
Definition bytes_of_string (s : string) : list Z :=
  map (fun c => Z.of_N (N_of_ascii c)) (list_ascii_of_string s).

End Crypto.

(** ** The world around a manager

    Computation takes no time; waiting for the network or for the browser
    takes the time the environment says. The environment is a script: the
    replies the network will give, in order, and what the user's browser
    will do at each authorization attempt. Quantifying over all scripts
    covers every server and every user. *)

Import JS.

Inductive payload : Type :=
  | NoBody
  | JsonBody (v : value)                  (* JSON.stringify v *)
  | FormBody (params : list (string * value)).   (* new URLSearchParams *)

Record Request : Type := {
  target : value;
  method : string;
  headers : list (string * string);
  body : payload
}.

(** A response: its status, what [text()] resolves to and what [json()]
    resolves to ([None]: the body is not JSON and [json()] rejects). *)
Record Response : Type := {
  status : Z;
  text : string;
  json : option value
}.

Definition ok (r : Response) : bool := (200 <=? status r) && (status r <=? 299).

Record Reply : Type := {
  latency : N;
  response : option Response              (* [None]: the request failed *)
}.

(** What the user's browser does during one authorization attempt:
    nothing, or a first request on [GET /callback] after [delay] ms with
    the [code] and [error] query parameters it carries. *)
Inductive Visit : Type :=
  | NoVisit
  | Arrives (delay : N) (code error : option string).

(** The session file. [Content None] is a file that [JSON.parse]
    rejects; [Content (Some v)] one that parses to [v]. *)
Inductive File : Type :=
  | Missing
  | Unreadable
  | Content (parsed : option value).

(** The callback server: not listening, or listening until the instant a
    scheduled [close] takes effect, if one is scheduled. *)
Inductive Listener : Type :=
  | Unbound
  | Bound (closes : option Z).

Record World : Type := {
  now : Z;                                (* Date.now(), milliseconds *)
  file : File;                            (* this.sessionFile *)
  writable : bool;                        (* mkdir and writeFile succeed *)
  replies : list Reply;
  sent : list Request;                    (* oldest first *)
  visits : list Visit;
  listener : Listener;
  browser : list URL;                     (* what open() was given *)
  entropy : nat -> Byte.byte;             (* the random source *)
  drawn : nat                             (* bytes consumed from it *)
}.

Definition port_free (w : World) (t : Z) : bool :=
  match listener w with
  | Unbound => true
  | Bound None => false
  | Bound (Some c) => c <=? t
  end.

(** ** The manager

    Calls of the logger are left out: the manager only writes to it. *)

Record OAuthConfig : Type := {
  serverUrl : string;
  callbackPort : option Z;
  callbackHost : option string;
  staticClientInfo : value
}.

(** [Required<OAuthConfig>] after the constructor's defaults. The
    directory of the session file is not kept: [file] above is the file
    at [this.sessionFile]. The port is a port number, 1 to 65535: any
    other number makes [server.listen] throw or leaves the redirect URI
    without a server, cases that are left out. *)
Record Config : Type := {
  cfg_serverUrl : string;
  cfg_callbackPort : Z;
  cfg_callbackHost : string;
  cfg_staticClientInfo : value
}.

Record OAuthManager : Type := {
  config : Config;
  metadata : value;
  session : value
}.

Definition constructor (c : OAuthConfig) : OAuthManager :=
  {| config := {| cfg_serverUrl := serverUrl c;
                  cfg_callbackPort :=
                    match callbackPort c with Some p => p | None => 3334 end;
                  cfg_callbackHost :=
                    match callbackHost c with Some h => h | None => "localhost" end;
                  cfg_staticClientInfo := staticClientInfo c |};
     metadata := VUndef;
     session := VUndef |}.

(** *** Sequencing with exceptions

    A thrown exception keeps the effects that happened before it. *)
Module Run.

Record State : Type := { this : OAuthManager; world : World }.

Definition M (A : Type) : Type := State -> (exn + A) * State.

Definition ret {A} (a : A) : M A := fun s => (inr a, s).
Definition throw {A} (e : exn) : M A := fun s => (inl e, s).

Definition bind {A B} (m : M A) (k : A -> M B) : M B :=
  fun s => match m s with
           | (inr a, s') => k a s'
           | (inl e, s') => (inl e, s')
           end.

Definition try_catch {A} (m : M A) (handler : exn -> M A) : M A :=
  fun s => match m s with
           | (inr a, s') => (inr a, s')
           | (inl e, s') => handler e s'
           end.

Definition lift {A} (r : exn + A) : M A := fun s => (r, s).

Definition read {A} (f : State -> A) : M A := fun s => (inr (f s), s).

Definition set_session (v : value) : M unit :=
  fun s => (inr tt,
            {| this := {| config := config (this s);
                          metadata := metadata (this s);
                          session := v |};
               world := world s |}).

Definition set_metadata (v : value) : M unit :=
  fun s => (inr tt,
            {| this := {| config := config (this s);
                          metadata := v;
                          session := session (this s) |};
               world := world s |}).

(** An operation of the environment. *)
Definition effect {A} (f : World -> (exn + A) * World) : M A :=
  fun s => let (r, w) := f (world s) in (r, {| this := this s; world := w |}).

End Run.

Import Run.

Declare Scope run_scope.
Delimit Scope run_scope with run.
Notation "x <- m ;; k" := (bind m (fun x => k))
  (at level 100, m at next level, right associativity) : run_scope.
Notation "m ;; k" := (bind m (fun _ => k))
  (at level 100, right associativity) : run_scope.
Local Open Scope run_scope.

Section Manager.

Context {runtime : Runtime}.

(** *** Operations of the environment *)

Definition Date_now : M Z := read (fun s => now (world s)).

Definition new_URL (x : value) : M URL :=
  match URL_parse x with
  | Some u => ret u
  | None => throw TypeError
  end.

Definition prop (v : value) (k : string) : M value := lift (JS.get v k).

(** [fetch]: an invalid target rejects before anything is sent;
    otherwise the request goes out and the next reply of the script
    comes back after its latency. An exhausted script is a network
    that does not answer. *)
Definition next_reply (w : World) : Reply :=
  match replies w with
  | [] => {| latency := 0%N; response := None |}
  | r :: _ => r
  end.

Definition exchange (rq : Request) (w : World) : World :=
  {| now := now w + Z.of_N (latency (next_reply w));
     file := file w; writable := writable w;
     replies := tl (replies w);
     sent := sent w ++ [rq];
     visits := visits w; listener := listener w;
     browser := browser w;
     entropy := entropy w; drawn := drawn w |}.

Definition fetch (url : value) (meth : string)
           (hdrs : list (string * string)) (data : payload) : M Response :=
  match URL_parse url with
  | None => throw TypeError
  | Some _ =>
      effect (fun w =>
        (match response (next_reply w) with
         | Some resp => inr resp
         | None => inl FetchFailed
         end,
         exchange {| target := url; method := meth;
                     headers := hdrs; body := data |} w))
  end.

Definition response_json (r : Response) : M value :=
  match json r with
  | Some v => ret v
  | None => throw SyntaxError
  end.

Definition existsSync : M bool :=
  read (fun s => match file (world s) with Missing => false | _ => true end).

(** The text of the file, held as what [JSON.parse] makes of it. *)
Definition readFile : M (option value) :=
  fun s => match file (world s) with
           | Content parsed => (inr parsed, s)
           | _ => (inl FsError, s)
           end.

Definition JSON_parse (content : option value) : M value :=
  match content with
  | Some v => ret v
  | None => throw SyntaxError
  end.

(** [JSON.stringify v] is [undefined] for [undefined], a text
    otherwise. *)
Definition JSON_stringify (v : value) : option value :=
  match v with
  | VUndef => None
  | _ => Some (to_json v)
  end.

Definition mkdir : M unit :=
  effect (fun w => (if writable w then inr tt else inl FsError, w)).

Definition writeFile (data : option value) : M unit :=
  match data with
  | None => throw TypeError
  | Some j =>
      effect (fun w =>
        if writable w then
          (inr tt,
           {| now := now w; file := Content (Some j); writable := writable w;
              replies := replies w; sent := sent w;
              visits := visits w; listener := listener w;
              browser := browser w;
              entropy := entropy w; drawn := drawn w |})
        else (inl FsError, w))
  end.

Definition byte_val (b : Byte.byte) : Z := Z.of_N (Byte.to_N b).

(** [randomBytes n]: the next [n] bytes of the source, which are then
    spent. *)
Definition random_block (w : World) (n : nat) : list Z :=
  map (fun i => byte_val (entropy w (drawn w + i)%nat)) (seq 0 n).

Definition randomBytes (n : nat) : M (list Z) :=
  effect (fun w =>
    (inr (random_block w n),
     {| now := now w; file := file w; writable := writable w;
        replies := replies w; sent := sent w;
        visits := visits w; listener := listener w;
        browser := browser w;
        entropy := entropy w; drawn := (drawn w + n)%nat |})).

(** [app.listen(port, callback)], with whether the new server listens.
    A port still held by an earlier server cannot be bound: Express 5
    hands that failure to the callback, which does not look at it, so
    the attempt goes on as if the server listened. The port is taken to
    be a port number, as [Config] says. *)
Definition listen : M bool :=
  effect (fun w =>
    if port_free w (now w) then
      (inr true,
       {| now := now w; file := file w; writable := writable w;
          replies := replies w; sent := sent w;
          visits := visits w; listener := Bound None;
          browser := browser w;
          entropy := entropy w; drawn := drawn w |})
    else (inr false, w)).

(** [open(url)]: best effort, its failure is only logged. *)
Definition open (u : URL) : M unit :=
  effect (fun w =>
    (inr tt,
     {| now := now w; file := file w; writable := writable w;
        replies := replies w; sent := sent w;
        visits := visits w; listener := listener w;
        browser := browser w ++ [u];
        entropy := entropy w; drawn := drawn w |})).

Definition present (q : option string) : bool :=
  match q with
  | Some s => negb (String.eqb s "")
  | None => false
  end.

Definition query_text (q : option string) : string :=
  match q with Some s => s | None => "" end.

(** The route handler of [/callback], up to the settlement of the
    promise. *)
Definition handle_callback (code error : option string) : exn + string :=
  if present error then
    inl (Error ("Authorization failed: " ++ query_text error)%string)
  else if present code then inr (query_text code)
  else inl (Error "Invalid callback: missing code").

(** [await authCodePromise]: the promise settles on whichever comes
    first, the request on [/callback] or the timer set for 300000 ms.
    A request at the very instant the timer is due comes second. Only
    the handler schedules [server.close()], 1000 ms after the request; a
    request that arrives after the timer has fired still runs the
    handler, which then only closes the server. *)
Definition await_callback : M string :=
  effect (fun w =>
    let started := now w in
    let settle (t : Z) (l : Listener) (r : exn + string) :=
      (r,
       {| now := t; file := file w; writable := writable w;
          replies := replies w; sent := sent w;
          visits := tl (visits w); listener := l;
          browser := browser w;
          entropy := entropy w; drawn := drawn w |}) in
    match hd NoVisit (visits w) with
    | Arrives d code error =>
        let t := started + Z.of_N d in
        if Z.of_N d <? 300000 then
          settle t (Bound (Some (t + 1000))) (handle_callback code error)
        else
          settle (started + 300000) (Bound (Some (t + 1000)))
                 (inl (Error "Authorization timeout"))
    | NoVisit =>
        settle (started + 300000) (listener w)
               (inl (Error "Authorization timeout"))
    end).

(** [await authCodePromise] of an attempt whose server does not listen:
    only the timer settles the promise. A request on [/callback] reaches
    the earlier server that holds the port, while that one is open; its
    handler, whose own promise was settled before, only schedules the
    close of that server, 1000 ms after the request. *)
Definition await_unheard : M string :=
  effect (fun w =>
    (inl (Error "Authorization timeout"),
     {| now := now w + 300000; file := file w; writable := writable w;
        replies := replies w; sent := sent w;
        visits := tl (visits w);
        listener :=
          match listener w, hd NoVisit (visits w) with
          | Bound None, Arrives d _ _ =>
              Bound (Some (now w + Z.of_N d + 1000))
          | Bound (Some c), Arrives d _ _ =>
              if now w + Z.of_N d <? c
              then Bound (Some (Z.min c (now w + Z.of_N d + 1000)))
              else Bound (Some c)
          | l, _ => l
          end;
        browser := browser w;
        entropy := entropy w; drawn := drawn w |})).

(** *** [generatePKCE] *)

(** The pair made from the random bytes. *)
Definition pkce_from (bytes : list Z) : string * string :=
  let verifier := Crypto.base64url bytes in
  let challenge :=
    Crypto.base64url (Crypto.sha256 (Crypto.bytes_of_string verifier)) in
  (verifier, challenge).

Definition generatePKCE : M (string * string) :=
  bytes <- randomBytes 32 ;;
  ret (pkce_from bytes).

(** *** Methods of [OAuthManager] *)

Definition string_of_Z (z : Z) : string := NilZero.string_of_int (Z.to_int z).

Definition redirectUri (c : Config) : string :=
  ("http://" ++ cfg_callbackHost c ++ ":"
     ++ string_of_Z (cfg_callbackPort c) ++ "/callback")%string.

Definition getAuthBaseUrl : M string :=
  c <- read (fun s => config (this s)) ;;
  url <- new_URL (VStr (cfg_serverUrl c)) ;;
  ret (protocol url ++ "//" ++ host url)%string.

Definition default_metadata (baseUrl : string) : value :=
  VObj [("authorization_endpoint", VStr (baseUrl ++ "/authorize")%string);
        ("token_endpoint", VStr (baseUrl ++ "/token")%string);
        ("registration_endpoint", VStr (baseUrl ++ "/register")%string)].

(** The [try] block either returns the discovered metadata ([Some]) or
    falls through to the defaults ([None]). *)
Definition discoverMetadata : M value :=
  baseUrl <- getAuthBaseUrl ;;
  let metadataUrl :=
    (baseUrl ++ "/.well-known/oauth-authorization-server")%string in
  found <- try_catch
             (response <- fetch (VStr metadataUrl) "GET"
                                [("Accept", "application/json")] NoBody ;;
              if ok response then
                md <- response_json response ;;
                set_metadata md ;;
                ret (Some md)
              else ret None)
             (fun _ => ret None) ;;
  match found with
  | Some md => ret md
  | None =>
      set_metadata (default_metadata baseUrl) ;;
      read (fun s => metadata (this s))
  end.

Definition registration_request (c : Config) : value :=
  VObj [("client_name", VStr "MCP Wrapper");
        ("redirect_uris", VArr [VStr (redirectUri c)]);
        ("grant_types", VArr [VStr "authorization_code"; VStr "refresh_token"]);
        ("response_types", VArr [VStr "code"]);
        ("token_endpoint_auth_method", VStr "none")].

Definition registerClient (md : value) : M value :=
  endpoint <- prop md "registration_endpoint" ;;
  if negb (truthy endpoint) then
    throw (Error "Dynamic client registration not supported by server")
  else
    c <- read (fun s => config (this s)) ;;
    response <- fetch endpoint "POST"
                      [("Content-Type", "application/json")]
                      (JsonBody (registration_request c)) ;;
    if negb (ok response) then
      throw (Error ("Client registration failed: " ++ text response)%string)
    else
      clientInfo <- response_json response ;;
      ret clientInfo.

(** [searchParams.set]: the first pair of that name takes the value,
    later ones are removed; a new name is appended. *)
Fixpoint without (k : string) (l : list (string * value)) : list (string * value) :=
  match l with
  | [] => []
  | (k', v) :: rest =>
      if String.eqb k k' then without k rest else (k', v) :: without k rest
  end.

Fixpoint params_set (k : string) (x : value) (l : list (string * value))
  : list (string * value) :=
  match l with
  | [] => [(k, x)]
  | (k', v) :: rest =>
      if String.eqb k k' then (k, x) :: without k rest
      else (k', v) :: params_set k x rest
  end.

Definition searchParams_set (u : URL) (k : string) (x : value) : URL :=
  {| protocol := protocol u; host := host u; pathname := pathname u;
     searchParams := params_set k x (searchParams u) |}.

(** The authorization URL: the endpoint with its five parameters set. *)
Definition authorization_url (endpoint : URL) (client_id : value)
           (redirect challenge : string) : URL :=
  let authUrl := searchParams_set endpoint "client_id" client_id in
  let authUrl := searchParams_set authUrl "redirect_uri" (VStr redirect) in
  let authUrl := searchParams_set authUrl "response_type" (VStr "code") in
  let authUrl := searchParams_set authUrl "code_challenge" (VStr challenge) in
  searchParams_set authUrl "code_challenge_method" (VStr "S256").

Definition performAuthorizationFlow (md clientInfo : value) : M value :=
  pkce <- generatePKCE ;;
  let (verifier, challenge) := pkce in
  c <- read (fun s => config (this s)) ;;
  let redirect := redirectUri c in
  authorization_endpoint <- prop md "authorization_endpoint" ;;
  endpoint <- new_URL authorization_endpoint ;;
  client_id <- prop clientInfo "client_id" ;;
  let authUrl := authorization_url endpoint client_id redirect challenge in
  listening <- listen ;;
  open authUrl ;;
  code <- (if listening then await_callback else await_unheard) ;;
  token_endpoint <- prop md "token_endpoint" ;;
  client_id <- prop clientInfo "client_id" ;;
  tokenResponse <- fetch token_endpoint "POST"
                     [("Content-Type", "application/x-www-form-urlencoded")]
                     (FormBody [("grant_type", VStr "authorization_code");
                                ("code", VStr code);
                                ("redirect_uri", VStr redirect);
                                ("client_id", client_id);
                                ("code_verifier", VStr verifier)]) ;;
  if negb (ok tokenResponse) then
    throw (Error ("Token exchange failed: " ++ text tokenResponse)%string)
  else
    tokens <- response_json tokenResponse ;;
    ret tokens.

Definition loadSession : M value :=
  try_catch
    (found <- existsSync ;;
     if negb found then ret VUndef
     else
       content <- readFile ;;
       loaded <- JSON_parse content ;;
       expiresAt <- prop loaded "expiresAt" ;;
       t <- Date_now ;;
       if truthy expiresAt && num_ge t (ToNumber expiresAt) then ret VUndef
       else ret loaded)
    (fun _ => ret VUndef).

Definition saveSession (s : value) : M unit :=
  try_catch (mkdir ;; writeFile (JSON_stringify s)) (fun _ => ret tt).

Definition refreshAccessToken : M value :=
  md <- read (fun s => metadata (this s)) ;;
  ss <- read (fun s => session (this s)) ;;
  if negb (truthy md) || negb (truthy ss) then
    throw (Error "Cannot refresh token: no active session")
  else
    tokens <- prop ss "tokens" ;;
    refresh_token <- prop tokens "refresh_token" ;;
    if negb (truthy refresh_token) then
      throw (Error "No refresh token available")
    else
      token_endpoint <- prop md "token_endpoint" ;;
      clientInfo <- prop ss "clientInfo" ;;
      client_id <- prop clientInfo "client_id" ;;
      response <- fetch token_endpoint "POST"
                    [("Content-Type", "application/x-www-form-urlencoded")]
                    (FormBody [("grant_type", VStr "refresh_token");
                               ("refresh_token", refresh_token);
                               ("client_id", client_id)]) ;;
      if negb (ok response) then
        throw (Error ("Token refresh failed: " ++ text response)%string)
      else
        tokens <- response_json response ;;
        ret tokens.

(** [tokens.expires_in ? Date.now() + tokens.expires_in * 1000 : undefined] *)
Definition expiry_of (tokens : value) : M value :=
  expires_in <- prop tokens "expires_in" ;;
  if truthy expires_in then
    t <- Date_now ;;
    ret (of_number (lift2 Z.add (Some t)
                          (lift2 Z.mul (ToNumber expires_in) (Some 1000))))
  else ret VUndef.

Definition access_token_of (ss : value) : M value :=
  tokens <- prop ss "tokens" ;;
  prop tokens "access_token".

(** [authorize]: the static client if there is one, a registered one
    otherwise. *)
Definition client_for (md : value) : M value :=
  c <- read (fun s => config (this s)) ;;
  if truthy (cfg_staticClientInfo c) then ret (cfg_staticClientInfo c)
  else
    try_catch (registerClient md)
      (fun _ =>
         throw (Error "OAuth client registration failed and no static client info provided")).

(** The part of [authorize] after the saved session was not usable. *)
Definition authorize_anew : M value :=
  md <- discoverMetadata ;;
  clientInfo <- client_for md ;;
  tokens <- performAuthorizationFlow md clientInfo ;;
  expiresAt <- expiry_of tokens ;;
  let ss := VObj [("clientInfo", clientInfo);
                  ("tokens", tokens);
                  ("expiresAt", expiresAt)] in
  set_session ss ;;
  saveSession ss ;;
  prop tokens "access_token".

Definition authorize : M value :=
  loaded <- loadSession ;;
  set_session loaded ;;
  if truthy loaded then access_token_of loaded
  else authorize_anew.

(** Whether [getAccessToken] enters its refresh branch:
    [expiresAt && Date.now() >= expiresAt - 300000]. *)
Definition refresh_due (t : Z) (expiresAt : value) : bool :=
  truthy expiresAt
  && num_ge t (lift2 Z.sub (ToNumber expiresAt) (Some 300000)).

(** The body of the [try] in [getAccessToken]. *)
Definition refresh_session : M unit :=
  tokens <- refreshAccessToken ;;
  ss <- read (fun s => session (this s)) ;;
  ss <- lift (JS.set ss "tokens" tokens) ;;
  set_session ss ;;
  expiresAt <- expiry_of tokens ;;
  ss <- read (fun s => session (this s)) ;;
  ss <- lift (JS.set ss "expiresAt" expiresAt) ;;
  set_session ss ;;
  saveSession ss.

(** The [try]/[catch] of [getAccessToken]: [None] when the [try] block
    ran to its end, [Some token] when the handler returned
    [this.authorize()]. *)
Definition refresh_or_reauthorize : M (option value) :=
  try_catch (refresh_session ;; ret None)
            (fun _ => token <- authorize ;; ret (Some token)).

Definition getAccessToken : M value :=
  ss <- read (fun s => session (this s)) ;;
  if negb (truthy ss) then authorize
  else
    expiresAt <- prop ss "expiresAt" ;;
    t <- Date_now ;;
    returned <-
      (if refresh_due t expiresAt then refresh_or_reauthorize
       else ret None) ;;
    match returned with
    | Some token => ret token
    | None =>
        ss <- read (fun s => session (this s)) ;;
        access_token_of ss
    end.

Definition unlink : M unit :=
  effect (fun w =>
    if writable w then
      (inr tt,
       {| now := now w; file := Missing; writable := writable w;
          replies := replies w; sent := sent w;
          visits := visits w; listener := listener w;
          browser := browser w;
          entropy := entropy w; drawn := drawn w |})
    else (inl FsError, w)).

Definition clearSession : M unit :=
  set_session VUndef ;;
  try_catch (found <- existsSync ;;
             if found then unlink else ret tt)
            (fun _ => ret tt).

(** *** Named readings of the methods, used to state their properties *)

(** What [loadSession] resolves to, read off the file and the clock. *)
Definition loaded (w : World) : value :=
  match file w with
  | Content (Some v) =>
      match JS.get v "expiresAt" with
      | inr ea => if truthy ea && num_ge (now w) (ToNumber ea) then VUndef else v
      | inl _ => VUndef
      end
  | _ => VUndef
  end.

(** [getAccessToken] once it has entered its refresh branch. *)
Definition refreshing : M value :=
  returned <- refresh_or_reauthorize ;;
  match returned with
  | Some token => ret token
  | None =>
      ss <- read (fun s => session (this s)) ;;
      access_token_of ss
  end.

End Manager.

(** ** Well-typed records

    The interfaces of the source, and the JSON a value of each interface
    is: an optional property that is [undefined] is not written. *)

Record OAuthClientInfo : Type := {
  client_id : string;
  client_secret : option string
}.

Record OAuthTokenResponse : Type := {
  access_token : string;
  token_type : string;
  expires_in : option Z;
  refresh_token : option string;
  scope : option string
}.

Record OAuthSession : Type := {
  clientInfo : OAuthClientInfo;
  tokens : OAuthTokenResponse;
  expiresAt : option Z
}.

Definition optional {A} (k : string) (f : A -> value) (o : option A)
  : list (string * value) :=
  match o with
  | Some a => [(k, f a)]
  | None => []
  end.

Definition json_of_client (c : OAuthClientInfo) : value :=
  VObj (("client_id", VStr (client_id c))
          :: optional "client_secret" VStr (client_secret c)).

Definition json_of_tokens (t : OAuthTokenResponse) : value :=
  VObj (("access_token", VStr (access_token t))
          :: ("token_type", VStr (token_type t))
          :: optional "expires_in" VNum (expires_in t)
          ++ optional "refresh_token" VStr (refresh_token t)
          ++ optional "scope" VStr (scope t)).

Definition json_of_session (s : OAuthSession) : value :=
  VObj (("clientInfo", json_of_client (clientInfo s))
          :: ("tokens", json_of_tokens (tokens s))
          :: optional "expiresAt" VNum (expiresAt s)).

Definition unexpired (t : Z) (s : OAuthSession) : Prop :=
  match expiresAt s with
  | Some e => t < e
  | None => True
  end.

(** ** States and requests named in the properties *)

(** [new OAuthManager(c, logger)] in a world [w]. *)
Definition fresh (c : OAuthConfig) (w : World) : State :=
  {| this := constructor c; world := w |}.

(** The manager with its session replaced, as [this.session = v] does. *)
Definition holding (v : value) (s : State) : State :=
  {| this := {| config := config (this s);
                metadata := metadata (this s);
                session := v |};
     world := world s |}.

(** The manager with its metadata replaced, as [this.metadata = v] does. *)
Definition knowing (v : value) (s : State) : State :=
  {| this := {| config := config (this s);
                metadata := v;
                session := session (this s) |};
     world := world s |}.

(** Time passing between two calls of the manager. *)
Definition elapse (d : N) (s : State) : State :=
  {| this := this s;
     world := {| now := now (world s) + Z.of_N d;
                 file := file (world s); writable := writable (world s);
                 replies := replies (world s); sent := sent (world s);
                 visits := visits (world s); listener := listener (world s);
                 browser := browser (world s);
                 entropy := entropy (world s); drawn := drawn (world s) |} |}.

(** A caller invoking one method again and again, letting some time
    pass before each call: the outcomes in order, and the final state. *)
Fixpoint calls {A} (m : M A) (pauses : list N) (s : State)
  : list (exn + A) * State :=
  match pauses with
  | [] => ([], s)
  | d :: rest =>
      let (r, s1) := m (elapse d s) in
      let (rs, s2) := calls m rest s1 in
      (r :: rs, s2)
  end.

Definition total (pauses : list N) : N := fold_right N.add 0%N pauses.

(** [ss.tokens.access_token] *)
Definition token_in (ss : value) : exn + value :=
  match JS.get ss "tokens" with
  | inr t => JS.get t "access_token"
  | inl e => inl e
  end.

Definition base_of (u : URL) : string :=
  (protocol u ++ "//" ++ host u)%string.

Definition discovery_request (base : string) : Request :=
  {| target := VStr (base ++ "/.well-known/oauth-authorization-server")%string;
     method := "GET";
     headers := [("Accept", "application/json")];
     body := NoBody |}.

Definition registration_call (endpoint : value) (c : Config) : Request :=
  {| target := endpoint; method := "POST";
     headers := [("Content-Type", "application/json")];
     body := JsonBody (registration_request c) |}.

Definition refresh_request (token_endpoint refresh_token client_id : value)
  : Request :=
  {| target := token_endpoint; method := "POST";
     headers := [("Content-Type", "application/x-www-form-urlencoded")];
     body := FormBody [("grant_type", VStr "refresh_token");
                       ("refresh_token", refresh_token);
                       ("client_id", client_id)] |}.

(** The state once a request has gone out and its reply has come back. *)
Definition sending (rq : Request) (s : State) : State :=
  {| this := this s; world := exchange rq (world s) |}.

(** What the next reply offers as metadata: the parsed body of a
    successful response, if there is one. *)
Definition offered (w : World) : option value :=
  match response (next_reply w) with
  | Some resp => if ok resp then json resp else None
  | None => None
  end.

(** The state in which an authorization attempt waits for its callback:
    32 random bytes are spent, the port is bound with no close scheduled,
    and the browser has been given the authorization URL. *)
Definition waiting (authUrl : URL) (s : State) : State :=
  {| this := this s;
     world := {| now := now (world s); file := file (world s);
                 writable := writable (world s);
                 replies := replies (world s); sent := sent (world s);
                 visits := visits (world s); listener := Bound None;
                 browser := browser (world s) ++ [authUrl];
                 entropy := entropy (world s);
                 drawn := (drawn (world s) + 32)%nat |} |}.

(** No request reaches [/callback] in the 300 seconds after [s]. *)
Definition no_callback_in_time (s : State) : Prop :=
  match hd NoVisit (visits (world s)) with
  | NoVisit => True
  | Arrives d _ _ => 300000 <= Z.of_N d
  end.

(** No request ever reaches [/callback]. *)
Definition no_callback_ever (s : State) : Prop :=
  hd NoVisit (visits (world s)) = NoVisit.

(** ** PKCE, as the authorization server checks it *)

Definition is_byte (b : Z) : Prop := 0 <= b < 256.

(** The characters a URL carries unescaped that base64url uses: letters,
    digits, [-] and [_]. *)
Definition unreserved (c : ascii) : bool :=
  let n := N_of_ascii c in
  ((65 <=? n) && (n <=? 90) || (97 <=? n) && (n <=? 122)
   || (48 <=? n) && (n <=? 57) || (n =? 45) || (n =? 95))%N.

Definition url_safe (s : string) : bool :=
  forallb unreserved (list_ascii_of_string s).

(** The S256 check of RFC 7636, section 4.6: the challenge is the
    base64url encoding of the SHA-256 digest of the verifier's ASCII. *)
Definition verify_S256 (verifier challenge : string) : bool :=
  String.eqb (Crypto.base64url (Crypto.sha256 (Crypto.bytes_of_string verifier)))
             challenge.

(** ** A concrete runtime and concrete worlds, to run the manager on *)

Fixpoint strip_prefix (p s : string) : option string :=
  match p, s with
  | EmptyString, _ => Some s
  | String a p', String b s' => if Ascii.eqb a b then strip_prefix p' s' else None
  | String _ _, EmptyString => None
  end.

(** The text before the first slash, and the text from it on. *)
Fixpoint split_slash (s : string) : string * string :=
  match s with
  | EmptyString => (EmptyString, EmptyString)
  | String c rest =>
      if Ascii.eqb c "/"%char then (EmptyString, s)
      else let (h, p) := split_slash rest in (String c h, p)
  end.

Definition parse_with_scheme (scheme s : string) : option URL :=
  match strip_prefix (scheme ++ "//")%string s with
  | Some rest =>
      let (h, p) := split_slash rest in
      if String.eqb h "" then None
      else Some {| protocol := scheme; host := h; pathname := p;
                   searchParams := [] |}
  | None => None
  end.

(** A runtime for the runs below: it parses plain [http:] and [https:]
    URLs without query. Those runs never convert a string, an array or an
    object to a number, and [ToNumberExt] answers [NaN]. *)
Definition plain_runtime : Runtime :=
  {| ToNumberExt := fun _ => None;
     URL_parse := fun v =>
       match v with
       | VStr s =>
           match parse_with_scheme "https:" s with
           | Some u => Some u
           | None => parse_with_scheme "http:" s
           end
       | _ => None
       end |}.

Definition counting (i : nat) : Byte.byte :=
  match Byte.of_N (N.of_nat i mod 256) with
  | Some b => b
  | None => Byte.x00
  end.

(** A world at time [t] in which nothing has happened yet. *)
Definition world_at (t : Z) (f : File) (rs : list Reply) (vs : list Visit) : World :=
  {| now := t; file := f; writable := true;
     replies := rs; sent := []; visits := vs;
     listener := Unbound; browser := [];
     entropy := counting; drawn := 0%nat |}.

Definition example_config : OAuthConfig :=
  {| serverUrl := "https://mcp.example.com/sse";
     callbackPort := None; callbackHost := None;
     staticClientInfo := VUndef |}.

Definition after (latency_ms : N) (st : Z) (body : string) (parsed : option value) : Reply :=
  {| latency := latency_ms;
     response := Some {| status := st; text := body; json := parsed |} |}.

Definition not_found : Reply := after 40 404 "Not Found" None.

Definition registered : Reply :=
  after 60 201 "" (Some (VObj [("client_id", VStr "client-1")])).

Definition granted : Reply :=
  after 90 200 ""
        (Some (VObj [("access_token", VStr "fresh-token");
                     ("token_type", VStr "Bearer");
                     ("expires_in", VNum 3600);
                     ("refresh_token", VStr "refresh-1")])).

(** A manager about to authorize for the first time: no session file,
    and the network answers [rs] in order. *)
Definition first_run (rs : list Reply) (vs : list Visit) : State :=
  fresh example_config (world_at 1700000000000 Missing rs vs).

(** A first authorization during which the user never comes back. *)
Definition abandoned : State :=
  first_run [not_found; registered; not_found; registered] [].

(** A fresh process that finds [v] in its session file at time [t]. *)
Definition restarted_at (t : Z) (v : value) : State :=
  {| this := constructor example_config;
     world := world_at t (Content (Some v)) [] [] |}.

Definition sample_session : OAuthSession :=
  {| clientInfo := {| client_id := "client-1"; client_secret := None |};
     tokens := {| access_token := "cached-token"; token_type := "Bearer";
                  expires_in := Some 3600; refresh_token := Some "refresh-1";
                  scope := None |};
     expiresAt := Some 1700003600000 |}.

(** A session record as [authorize()] leaves it in memory after a token
    response without [expires_in]. *)
Definition session_without_expiry : value :=
  VObj [("clientInfo", VObj [("client_id", VStr "client-1")]);
        ("tokens", VObj [("access_token", VStr "cached-token");
                         ("token_type", VStr "Bearer")]);
        ("expiresAt", VUndef)].

(** Two records that lack a required field of [OAuthSession]. *)
Definition record_without_tokens : value :=
  VObj [("clientInfo", VObj [("client_id", VStr "client-1")])].

Definition record_without_clientInfo : value :=
  VObj [("tokens", VObj [("access_token", VStr "cached-token");
                         ("token_type", VStr "Bearer")])].

(** A session record with a refresh token, expiring at [e]. *)
Definition record_expiring (e : value) : value :=
  VObj [("clientInfo", VObj [("client_id", VStr "client-1")]);
        ("tokens", VObj [("access_token", VStr "cached-token");
                         ("token_type", VStr "Bearer");
                         ("refresh_token", VStr "refresh-1")]);
        ("expiresAt", e)].

Definition renewed_tokens : value :=
  VObj [("access_token", VStr "renewed-token");
        ("token_type", VStr "Bearer");
        ("expires_in", VNum 3600)].

(** A manager that has discovered its endpoints and holds
    [record_expiring e], also on disk, at time [t]; [rs] is what the
    network will answer. *)
Definition holding_with (t : Z) (e : value) (rs : list Reply) : State :=
  {| this := {| config := config (constructor example_config);
                metadata := default_metadata "https://mcp.example.com";
                session := record_expiring e |};
     world := world_at t (Content (Some (record_expiring e))) rs [] |}.

(** The token endpoint answers a refresh with [renewed_tokens]. *)
Definition holding_at (t : Z) (e : value) : State :=
  holding_with t e [after 120 200 "" (Some renewed_tokens)].

(** The token endpoint refuses the refresh. *)
Definition refused_at (t : Z) (e : value) : State :=
  holding_with t e [after 80 400 "invalid_grant" None].

(** ** Proof steps *)

(** Bit operations on bounded integers as arithmetic: masks become
    remainders, shifts become quotients and products, and a disjunction
    of parts that do not overlap becomes a sum ([disjoint] is the lemma
    saying so). *)
Ltac pow2 :=
  change (2 ^ 2) with 4 in *; change (2 ^ 4) with 16 in *;
  change (2 ^ 6) with 64 in *.

Ltac divmod := pow2; Z.to_euclidean_division_equations; lia.

Ltac bits_to_arith disjoint :=
  change 3 with (Z.ones 2); change 15 with (Z.ones 4); change 63 with (Z.ones 6);
  rewrite ?Z.land_ones by lia;
  rewrite ?Z.shiftr_div_pow2 by lia;
  rewrite ?Z.shiftl_mul_pow2 by lia;
  repeat match goal with
         | |- context [Z.lor (?h * 2 ^ ?k) ?lo] =>
             rewrite (disjoint h lo k) by divmod
         end.

(** ** What a method leaves alone *)

(** [fixes f m]: whatever [m] does, and whether it returns or throws,
    the observation [f] of the state is the same afterwards. *)
Definition fixes {A X} (f : State -> X) (m : M A) : Prop :=
  forall st r st', m st = (r, st') -> f st' = f st.

(** The session file and whether the disk takes writes. *)
Definition disk (s : State) : File * bool :=
  (file (world s), writable (world s)).

Definition callback_port (s : State) : Listener := listener (world s).

Create HintDb fixes.

(** [sends P m]: whatever [m] does, the requests it sends all satisfy
    [P], and it takes none back. *)
Definition sends {A} (P : Request -> Prop) (m : M A) : Prop :=
  forall st r st', m st = (r, st') ->
    exists new, sent (world st') = sent (world st) ++ new /\ Forall P new.

Create HintDb sends.

(** ** More states and requests named in the properties *)

(** The session object [authorize] builds. *)
Definition new_session (clientInfo tokens expiresAt : value) : value :=
  VObj [("clientInfo", clientInfo); ("tokens", tokens); ("expiresAt", expiresAt)].

(** The expiry computed at time [t] for a well-typed token response. *)
Definition expiry_after (t : Z) (tk : OAuthTokenResponse) : value :=
  match expires_in tk with
  | Some n => if n =? 0 then VUndef else VNum (t + n * 1000)
  | None => VUndef
  end.

(** The state once a request has reached [/callback] after [d] ms. *)
Definition called_back (d : N) (s : State) : State :=
  {| this := this s;
     world := {| now := now (world s) + Z.of_N d;
                 file := file (world s); writable := writable (world s);
                 replies := replies (world s); sent := sent (world s);
                 visits := tl (visits (world s));
                 listener := Bound (Some (now (world s) + Z.of_N d + 1000));
                 browser := browser (world s);
                 entropy := entropy (world s); drawn := drawn (world s) |} |}.

Definition code_request (token_endpoint : value) (code redirect : string)
           (client_id : value) (verifier : string) : Request :=
  {| target := token_endpoint; method := "POST";
     headers := [("Content-Type", "application/x-www-form-urlencoded")];
     body := FormBody [("grant_type", VStr "authorization_code");
                       ("code", VStr code);
                       ("redirect_uri", VStr redirect);
                       ("client_id", client_id);
                       ("code_verifier", VStr verifier)] |}.

(** What the token exchange makes of the reply to its request. *)
Definition exchange_outcome (r : option Response) : exn + value :=
  match r with
  | None => inl FetchFailed
  | Some resp =>
      if ok resp then
        match json resp with
        | Some tokens => inr tokens
        | None => inl SyntaxError
        end
      else inl (Error ("Token exchange failed: " ++ text resp)%string)
  end.

(** The state [clearSession] leaves: no session held, and the session
    file removed if the disk lets it be. *)
Definition cleared (s : State) : State :=
  {| this := {| config := config (this s);
                metadata := metadata (this s);
                session := VUndef |};
     world := {| now := now (world s);
                 file := if writable (world s) then Missing else file (world s);
                 writable := writable (world s);
                 replies := replies (world s); sent := sent (world s);
                 visits := visits (world s); listener := listener (world s);
                 browser := browser (world s);
                 entropy := entropy (world s); drawn := drawn (world s) |} |}.

Section Readiness.

Context {runtime : Runtime}.

(** An authorization attempt can start: the metadata names an
    authorization endpoint that parses to [u], the client has an id
    [cid], and the callback port is free. *)
Definition attempt_ready (md ci cid : value) (u : URL) (s : State) : Prop :=
  (exists aep, JS.get md "authorization_endpoint" = inr aep
               /\ URL_parse aep = Some u)
  /\ JS.get ci "client_id" = inr cid
  /\ port_free (world s) (now (world s)) = true.

(** A held, well-typed session [s] is due for refresh and everything a
    refresh needs is there: endpoints, a refresh token [rt], and a reply
    [resp] to come. *)
Definition refresh_ready (s : OAuthSession) (rt : string) (te : value)
           (resp : Response) (st : State) : Prop :=
  session (this st) = json_of_session s
  /\ (exists e, expiresAt s = Some e /\ e <> 0 /\ e - 300000 <= now (world st))
  /\ refresh_token (tokens s) = Some rt /\ rt <> ""
  /\ truthy (metadata (this st)) = true
  /\ JS.get (metadata (this st)) "token_endpoint" = inr te
  /\ (exists u, URL_parse te = Some u)
  /\ response (next_reply (world st)) = Some resp.

(** [authorize()] called in [st] finds no usable record, gets the
    metadata [md] and the client [ci], and is in [st2] about to start
    the authorization flow. *)
Definition attempt_begins (md ci : value) (st st2 : State) : Prop :=
  truthy (loaded (world st)) = false
  /\ exists st1,
       discoverMetadata (holding (loaded (world st)) st) = (inr md, st1)
       /\ client_for md st1 = (inr ci, st2).

End Readiness.

(** The authorization URL and the PKCE verifier of an attempt started
    in [s]. *)
Definition attempt_url (u : URL) (cid : value) (s : State) : URL :=
  authorization_url u cid (redirectUri (config (this s)))
                    (snd (pkce_from (random_block (world s) 32))).

Definition attempt_verifier (s : State) : string :=
  fst (pkce_from (random_block (world s) 32)).


(** The well-typed session [authorize] makes of the client [c] and the
    tokens [t] granted at time [at_]. *)
Definition granted_session (c : OAuthClientInfo) (t : OAuthTokenResponse)
           (at_ : Z) : OAuthSession :=
  {| clientInfo := c; tokens := t;
     expiresAt := match expires_in t with
                  | Some n => if n =? 0 then None else Some (at_ + n * 1000)
                  | None => None
                  end |}.
(** ** The wrapper

    [MCPWrapper] of [wrapper.ts], the caller of the manager: its two
    request handlers, its statistics and the headers [start] connects
    with. The configuration is the one the constructor has filled in,
    with values of the types it declares. Calls of the logger are left
    out: what they are given (the tool names joined, the arguments as
    JSON) is computed from parsed requests and cannot throw. *)

Module Wrapper.

Record Tool : Type := {
  tool_name : string;                     (* [tool.name] *)
  tool_schema : value                     (* the rest of the tool *)
}.

Record CallParams : Type := {
  call_name : string;                     (* [request.params.name] *)
  arguments : value
}.

Record ToolStats : Type := {
  name : string;
  callCount : Z;
  successCount : Z;
  errorCount : Z;
  totalDuration : Z
}.

(** [this.stats], a [Map]: its entries in insertion order. *)
Definition StatsMap : Type := list (string * ToolStats).

Fixpoint Map_get (k : string) (m : StatsMap) : option ToolStats :=
  match m with
  | [] => None
  | (k', s) :: rest => if String.eqb k k' then Some s else Map_get k rest
  end.

Definition Map_has (k : string) (m : StatsMap) : bool :=
  match Map_get k m with Some _ => true | None => false end.

(** [Map.set]: an entry that is there keeps its place. *)
Fixpoint Map_set (k : string) (s : ToolStats) (m : StatsMap) : StatsMap :=
  match m with
  | [] => [(k, s)]
  | (k', s') :: rest =>
      if String.eqb k k' then (k, s) :: rest else (k', s') :: Map_set k s rest
  end.

Record MCPWrapper : Type := {
  allowedTools : list string;             (* [this.config.allowedTools] *)
  stats : StatsMap
}.

(** The wrapper while it serves requests: the clock, and the calls it
    has forwarded to the upstream server. *)
Record Serving : Type := {
  wrapper : MCPWrapper;
  clock : Z;
  forwarded : list CallParams
}.

(** What the upstream server does with a forwarded call: after [took]
    milliseconds it returns a result or fails. *)
Record Answer : Type := {
  took : N;
  outcome : exn + value
}.

(** [Array.prototype.includes] on strings. *)
Definition includes (l : list string) (x : string) : bool :=
  existsb (String.eqb x) l.

Definition restricted (w : MCPWrapper) : bool :=
  0 <? Z.of_nat (List.length (allowedTools w)).

(** The handler of [tools/list], given what [listTools()] of the
    upstream client comes to. *)
Definition list_tools_handler (w : MCPWrapper) (upstream : exn + list Tool)
  : exn + list Tool :=
  match upstream with
  | inr tools =>
      inr (if restricted w
           then filter (fun tool => includes (allowedTools w) (tool_name tool)) tools
           else tools)
  | inl error => inl error
  end.

(** The entry is changed where it is stored. [stats.get(toolName)!] of
    an absent entry would be [undefined], and counting on it throws. *)
Definition updateStats (toolName : string) (success : bool) (duration : Z)
           (m : StatsMap) : exn + StatsMap :=
  let m :=
    if negb (Map_has toolName m) then
      Map_set toolName {| name := toolName; callCount := 0; successCount := 0;
                          errorCount := 0; totalDuration := 0 |} m
    else m in
  match Map_get toolName m with
  | Some s =>
      inr (Map_set toolName
             {| name := name s;
                callCount := callCount s + 1;
                successCount := if success then successCount s + 1
                                else successCount s;
                errorCount := if success then errorCount s else errorCount s + 1;
                totalDuration := totalDuration s + duration |} m)
  | None => inl TypeError
  end.

(** [Array.from(this.stats.values())]: a new array of the stored
    entries, here as they are when [getStats] is called. *)
Definition getStats (w : MCPWrapper) : list ToolStats := map snd (stats w).

Definition with_stats (s : Serving) (t : Z) (p : CallParams) (m : StatsMap)
  : Serving :=
  {| wrapper := {| allowedTools := allowedTools (wrapper s); stats := m |};
     clock := t;
     forwarded := forwarded s ++ [p] |}.

(** The [catch] clause of the handler of [tools/call]: the failure is
    counted and thrown again. *)
Definition count_failure (s : Serving) (t : Z) (p : CallParams)
           (startTime : Z) (error : exn) : (exn + value) * Serving :=
  match updateStats (call_name p) false (t - startTime) (stats (wrapper s)) with
  | inr m => (inl error, with_stats s t p m)
  | inl e => (inl e, with_stats s t p (stats (wrapper s)))
  end.

(** The handler of [tools/call], given the upstream server's answer to
    the call if it is forwarded. *)
Definition call_tool_handler (p : CallParams) (a : Answer) (s : Serving)
  : (exn + value) * Serving :=
  let w := wrapper s in
  if restricted w && negb (includes (allowedTools w) (call_name p)) then
    (inl (Error ("Tool '" ++ call_name p ++ "' is not allowed")%string), s)
  else
    let startTime := clock s in
    let t := clock s + Z.of_N (took a) in
    match outcome a with
    | inr result =>
        match updateStats (call_name p) true (t - startTime) (stats w) with
        | inr m => (inr result, with_stats s t p m)
        | inl e => count_failure s t p startTime e
        end
    | inl error => count_failure s t p startTime error
    end.

(** A wrapper that has served nothing yet. *)
Definition serving (allowed : list string) (t : Z) : Serving :=
  {| wrapper := {| allowedTools := allowed; stats := [] |};
     clock := t; forwarded := [] |}.

(** Calls served one after the other, each answered before the next
    comes in, each with the upstream server's answer to it: what the
    callers got, and the wrapper afterwards. *)
Fixpoint serve (calls : list (CallParams * Answer)) (s : Serving)
  : list (exn + value) * Serving :=
  match calls with
  | [] => ([], s)
  | (p, a) :: rest =>
      let (r, s1) := call_tool_handler p a s in
      let (rs, s2) := serve rest s1 in
      (r :: rs, s2)
  end.

(** Whether the handler of [tools/call] lets a name through. *)
Definition admits (w : MCPWrapper) (toolName : string) : bool :=
  negb (restricted w && negb (includes (allowedTools w) toolName)).

(** What the caller of [tools/call] gets for [p] when the upstream
    server would answer [a]. *)
Definition reply_to (w : MCPWrapper) (p : CallParams) (a : Answer)
  : exn + value :=
  if admits w (call_name p) then outcome a
  else inl (Error ("Tool '" ++ call_name p ++ "' is not allowed")%string).

Definition admitted (w : MCPWrapper) (calls : list (CallParams * Answer))
  : list (CallParams * Answer) :=
  filter (fun c => admits w (call_name (fst c))) calls.

Definition time_taken (calls : list (CallParams * Answer)) : Z :=
  fold_right (fun c t => Z.of_N (took (snd c)) + t) 0 calls.

(** The entries are kept in order: one entry for a name, under that
    name, for a tool that is let through, counting at least one call,
    each call either a success or an error. *)
Definition well_kept (w : MCPWrapper) : Prop :=
  NoDup (map fst (stats w))
  /\ forall k s, In (k, s) (stats w) ->
       name s = k
       /\ admits w k = true
       /\ 0 < callCount s
       /\ callCount s = successCount s + errorCount s
       /\ 0 <= successCount s /\ 0 <= errorCount s.

Definition succeeded (c : CallParams * Answer) : bool :=
  match outcome (snd c) with inr _ => true | inl _ => false end.

Definition calls_of (toolName : string) (calls : list (CallParams * Answer))
  : list (CallParams * Answer) :=
  filter (fun c => String.eqb toolName (call_name (fst c))) calls.

(** The statistics that calls of one tool amount to. *)
Definition tally (toolName : string) (mine : list (CallParams * Answer))
  : ToolStats :=
  {| name := toolName;
     callCount := Z.of_nat (List.length mine);
     successCount := Z.of_nat (List.length (filter succeeded mine));
     errorCount :=
       Z.of_nat (List.length (filter (fun c => negb (succeeded c)) mine));
     totalDuration := time_taken mine |}.

(** The entry [s] with the calls counted in [t] added. *)
Definition plus_stats (s t : ToolStats) : ToolStats :=
  {| name := name s;
     callCount := callCount s + callCount t;
     successCount := successCount s + successCount t;
     errorCount := errorCount s + errorCount t;
     totalDuration := totalDuration s + totalDuration t |}.

Definition entry_or_new (toolName : string) (o : option ToolStats) : ToolStats :=
  match o with
  | Some s => s
  | None => {| name := toolName; callCount := 0; successCount := 0;
               errorCount := 0; totalDuration := 0 |}
  end.

(** The entry [s] with one more call counted. *)
Definition counted (success : bool) (duration : Z) (s : ToolStats) : ToolStats :=
  {| name := name s;
     callCount := callCount s + 1;
     successCount := if success then successCount s + 1 else successCount s;
     errorCount := if success then errorCount s else errorCount s + 1;
     totalDuration := totalDuration s + duration |}.

(** *** The wrapper and its manager *)

(** [OAuthOptions]; the port, if given, is a number, and the directory
    of the session file is not kept, as in the manager. *)
Record OAuthOptions : Type := {
  o_callbackPort : option Z;
  o_callbackHost : option string;
  o_clientId : option string;
  o_clientSecret : option string
}.

(** The part of [Required<WrapperConfig>] that the constructor hands to
    the manager and that [start] connects with. *)
Record WrapperConfig : Type := {
  w_upstreamUrl : string;
  w_transportType : string;
  w_authMode : string;
  w_headers : list (string * string);
  w_oauth : option OAuthOptions
}.

(** [this.config.oauth?.clientId ? {client_id, client_secret} : undefined] *)
Definition static_client (o : option OAuthOptions) : value :=
  match o with
  | Some opts =>
      match o_clientId opts with
      | Some id =>
          if negb (String.eqb id "") then
            VObj [("client_id", VStr id);
                  ("client_secret",
                   match o_clientSecret opts with
                   | Some secret => VStr secret
                   | None => VUndef
                   end)]
          else VUndef
      | None => VUndef
      end
  | None => VUndef
  end.

(** The manager the constructor makes, if it makes one. *)
Definition oauthManager (c : WrapperConfig) : option OAuthManager :=
  if String.eqb (w_authMode c) "oauth" then
    Some (constructor
            {| serverUrl := w_upstreamUrl c;
               callbackPort := match w_oauth c with
                               | Some opts => o_callbackPort opts
                               | None => None
                               end;
               callbackHost := match w_oauth c with
                               | Some opts => o_callbackHost opts
                               | None => None
                               end;
               staticClientInfo := static_client (w_oauth c) |})
  else None.

(** [headers[k] = x] on a record of strings. *)
Fixpoint set_header (k x : string) (hs : list (string * string))
  : list (string * string) :=
  match hs with
  | [] => [(k, x)]
  | (k', v) :: rest =>
      if String.eqb k k' then (k, x) :: rest else (k', v) :: set_header k x rest
  end.

Fixpoint header (k : string) (hs : list (string * string)) : option string :=
  match hs with
  | [] => None
  | (k', v) :: rest => if String.eqb k k' then Some v else header k rest
  end.

Inductive TransportKind : Type := StreamableHTTP | SSE.

(** The transport [start] makes: where it connects to, and the headers
    in the options it was given, if any. *)
Record Transport : Type := {
  kind : TransportKind;
  connects_to : URL;
  requestInit : option (list (string * string));
  eventSourceInit : option (list (string * string))
}.

Section Starting.

Context {runtime : Runtime}.

(** The text that a template literal makes of a value; of a string, the
    string. *)
Variable ToString : value -> string.

(** [start] of a wrapper whose manager, if it has one, is the manager of
    the state: the constructor makes one exactly when [authMode] is
    ['oauth']. [connect] is what connecting the upstream client over a
    transport comes to, [stdio] what connecting the server to the
    standard streams comes to. *)
Definition start (c : WrapperConfig) (connect : Transport -> exn + unit)
           (stdio : exn + unit) : M unit :=
  try_catch
    (let headers := w_headers c in
     headers <-
       (if String.eqb (w_authMode c) "oauth" then
          accessToken <- authorize ;;
          ret (set_header "Authorization"
                          ("Bearer " ++ ToString accessToken)%string headers)
        else ret headers) ;;
     transport <-
       (if String.eqb (w_transportType c) "http" then
          let httpOptions :=
            if 0 <? Z.of_nat (List.length headers) then Some headers else None in
          url <- new_URL (VStr (w_upstreamUrl c)) ;;
          ret {| kind := StreamableHTTP; connects_to := url;
                 requestInit := httpOptions; eventSourceInit := None |}
        else
          let sseOptions :=
            if 0 <? Z.of_nat (List.length headers) then Some headers else None in
          url <- new_URL (VStr (w_upstreamUrl c)) ;;
          ret {| kind := SSE; connects_to := url;
                 requestInit := sseOptions; eventSourceInit := sseOptions |}) ;;
     lift (connect transport) ;;
     lift stdio)
    (fun error => throw error).

End Starting.

(** A request with a JSON body: of the requests of the manager, the
    registration of a client. *)
Definition registers (rq : Request) : bool :=
  match body rq with
  | JsonBody _ => true
  | _ => false
  end.

End Wrapper.

(** ** More concrete worlds, to run the manager and the wrapper on *)

(** A first authorization in which the user comes back after five
    seconds with what the visit carries; the network answers [rs]. *)
Definition returning (rs : list Reply) (code error : option string) : State :=
  first_run rs [Arrives 5000 code error].

(** Discovery falls back to the defaults, a client is registered and the
    code is exchanged for tokens. *)
Definition completing : State :=
  returning [not_found; registered; granted] (Some "code-1") None.

(** The same on a disk that takes no writes. *)
Definition read_only (s : State) : State :=
  {| this := this s;
     world := {| now := now (world s); file := file (world s);
                 writable := false;
                 replies := replies (world s); sent := sent (world s);
                 visits := visits (world s); listener := listener (world s);
                 browser := browser (world s);
                 entropy := entropy (world s); drawn := drawn (world s) |} |}.

(** The user refuses; the callback carries a code all the same. *)
Definition denied : State :=
  returning [not_found; registered] (Some "code-1") (Some "access_denied").

(** The token endpoint refuses the code. *)
Definition exchange_refused : State :=
  returning [not_found; registered; after 70 400 "invalid_grant" None]
            (Some "code-1") None.

(** A server whose discovery document names no registration endpoint. *)
Definition closed_metadata : value :=
  VObj [("authorization_endpoint", VStr "https://auth.example.com/authorize");
        ("token_endpoint", VStr "https://auth.example.com/token")].

Definition closed_server : State :=
  first_run [after 40 200 "" (Some closed_metadata)] [].

Definition registered_client : OAuthClientInfo :=
  {| client_id := "client-1"; client_secret := None |}.

Definition granted_tokens : OAuthTokenResponse :=
  {| access_token := "fresh-token"; token_type := "Bearer";
     expires_in := Some 3600; refresh_token := Some "refresh-1";
     scope := None |}.

(** The session of [holding_at t (VNum 1700000299000)], and the tokens
    its refresh is answered with. *)
Definition due_session : OAuthSession :=
  {| clientInfo := registered_client;
     tokens := {| access_token := "cached-token"; token_type := "Bearer";
                  expires_in := None; refresh_token := Some "refresh-1";
                  scope := None |};
     expiresAt := Some 1700000299000 |}.

Definition renewed : OAuthTokenResponse :=
  {| access_token := "renewed-token"; token_type := "Bearer";
     expires_in := Some 3600; refresh_token := None; scope := None |}.

(** A [ToString] for the runs below, which only convert strings. *)
Definition text_of (v : value) : string :=
  match v with
  | VStr s => s
  | _ => ""
  end.

(** A wrapper in OAuth mode with a client of its own and two configured
    headers, and one in token mode. *)
Definition oauth_wrapper : Wrapper.WrapperConfig :=
  {| Wrapper.w_upstreamUrl := "https://mcp.example.com/sse";
     Wrapper.w_transportType := "sse";
     Wrapper.w_authMode := "oauth";
     Wrapper.w_headers := [("X-Api-Key", "k-1"); ("Authorization", "Basic abc")];
     Wrapper.w_oauth :=
       Some {| Wrapper.o_callbackPort := None;
               Wrapper.o_callbackHost := None;
               Wrapper.o_clientId := Some "static-client";
               Wrapper.o_clientSecret := Some "s3cret" |} |}.

Definition token_wrapper : Wrapper.WrapperConfig :=
  {| Wrapper.w_upstreamUrl := "https://mcp.example.com/mcp";
     Wrapper.w_transportType := "http";
     Wrapper.w_authMode := "token";
     Wrapper.w_headers := [("Authorization", "Bearer configured")];
     Wrapper.w_oauth := None |}.

(** The manager of [oauth_wrapper] on its first run. *)
Definition wrapper_first_run (rs : list Reply) (vs : list Visit) : State :=
  {| this := match Wrapper.oauthManager oauth_wrapper with
             | Some m => m
             | None => constructor example_config
             end;
     world := world_at 1700000000000 Missing rs vs |}.

(** An upstream server that connects, and the standard streams. *)
Definition connects (tr : Wrapper.Transport) : exn + unit := inr tt.

Definition search_tool : Wrapper.Tool :=
  {| Wrapper.tool_name := "search_web"; Wrapper.tool_schema := VObj [] |}.

Definition delete_tool : Wrapper.Tool :=
  {| Wrapper.tool_name := "delete_all"; Wrapper.tool_schema := VObj [] |}.

Definition calling (n : string) : Wrapper.CallParams :=
  {| Wrapper.call_name := n; Wrapper.arguments := VObj [] |}.

Definition answering (ms : N) (r : exn + value) : Wrapper.Answer :=
  {| Wrapper.took := ms; Wrapper.outcome := r |}.

(** ** Properties of the manager *)

Section Properties.

Context {runtime : Runtime}.

(** *** The cache-hit path *)

(** [loadSession] never throws and touches nothing. *)
Lemma loadSession_loaded (st : State) :
  loadSession st = (inr (loaded (world st)), st).
Proof.
  unfold loadSession, loaded, try_catch, bind, existsSync, readFile, read.
  destruct (file (world st)) as [| |[v|]] eqn:Hfile; cbn; rewrite ?Hfile; cbn;
    try reflexivity.
  unfold prop, lift. destruct (JS.get v "expiresAt") as [e|ea]; cbn; try reflexivity.
  destruct (truthy ea && _); reflexivity.
Qed.

(** [authorize] is decided by what [loadSession] resolves to. *)
Lemma authorize_hit (st : State) :
  truthy (loaded (world st)) = true ->
  authorize st
  = access_token_of (loaded (world st)) (holding (loaded (world st)) st).
Proof.
  intros Hl. unfold authorize, bind. rewrite loadSession_loaded.
  cbn. rewrite Hl. reflexivity.
Qed.

Lemma authorize_miss (st : State) :
  truthy (loaded (world st)) = false ->
  authorize st = authorize_anew (holding (loaded (world st)) st).
Proof.
  intros Hl. unfold authorize, bind. rewrite loadSession_loaded.
  cbn. rewrite Hl. reflexivity.
Qed.

Lemma loaded_session (w : World) (s : OAuthSession) :
  file w = Content (Some (json_of_session s)) ->
  unexpired (now w) s ->
  loaded w = json_of_session s.
Proof.
  unfold loaded, unexpired. intros -> Hu.
  destruct s as [c t [e|]]; cbn in *; [|reflexivity].
  replace (e <=? now w) with false by (symmetry; apply Z.leb_gt; exact Hu).
  rewrite andb_false_r. reflexivity.
Qed.

Lemma access_token_of_session (s : OAuthSession) (st : State) :
  access_token_of (json_of_session s) st
  = (inr (VStr (access_token (tokens s))), st).
Proof. reflexivity. Qed.

Lemma authorize_cache_hit (st : State) (s : OAuthSession) :
  file (world st) = Content (Some (json_of_session s)) ->
  unexpired (now (world st)) s ->
  authorize st
  = (inr (VStr (access_token (tokens s))), holding (json_of_session s) st).
Proof.
  intros Hf Hu. rewrite authorize_hit; rewrite (loaded_session _ s Hf Hu).
  - apply access_token_of_session.
  - reflexivity.
Qed.

(** C5. Cache-hit idempotence: with a persisted session that stays
    unexpired, every one of any number of calls of [authorize()], however
    spaced in time, returns that session's access token; no request is
    sent, no reply is consumed, the browser and the listener are not
    touched and the persisted record is the same afterwards: only the
    clock has moved. *)
Theorem C5_cache_hit_idempotence
  (s : OAuthSession) (pauses : list N) (st : State) :
  file (world st) = Content (Some (json_of_session s)) ->
  unexpired (now (world st) + Z.of_N (total pauses)) s ->
  fst (calls authorize pauses st)
  = repeat (inr (VStr (access_token (tokens s)))) (List.length pauses)
  /\ world (snd (calls authorize pauses st))
     = world (elapse (total pauses) st)
  /\ sent (world (snd (calls authorize pauses st))) = sent (world st)
  /\ file (world (snd (calls authorize pauses st))) = file (world st).
Proof.
  revert st. induction pauses as [|d rest IH]; intros st Hf Hu.
  - cbn. repeat split. unfold elapse. destruct st as [m w]; destruct w; cbn.
    do 2 f_equal. lia.
  - cbn [calls].
    change (total (d :: rest)) with (d + total rest)%N in *.
    assert (Hnow : unexpired (now (world (elapse d st))) s /\
                   unexpired (now (world (elapse d st)) + Z.of_N (total rest)) s).
    { unfold unexpired in *. destruct (expiresAt s); [|split; exact I].
      cbn [elapse world now]. lia. }
    destruct Hnow as [Hnow Hrest].
    rewrite (authorize_cache_hit (elapse d st) s Hf Hnow).
    specialize (IH (holding (json_of_session s) (elapse d st)) Hf Hrest).
    destruct (calls authorize rest (holding (json_of_session s) (elapse d st)))
      as [rs st2].
    cbn [fst snd] in *.
    destruct IH as (Hr & Hw & Hs & Hfile).
    repeat split.
    + cbn. rewrite Hr. reflexivity.
    + rewrite Hw. cbn. f_equal. lia.
    + exact Hs.
    + exact Hfile.
Qed.

(** *** Sessions without expiry *)

Lemma access_token_of_pure (ss : value) (st : State) :
  access_token_of ss st = (token_in ss, st).
Proof.
  unfold access_token_of, token_in, bind, prop, lift.
  destruct (JS.get ss "tokens"); reflexivity.
Qed.

Lemma elapse_zero (st : State) : elapse 0 st = st.
Proof.
  destruct st as [m w]; destruct w. unfold elapse; cbn.
  do 2 f_equal. lia.
Qed.

Lemma elapse_add (d1 d2 : N) (st : State) :
  elapse d2 (elapse d1 st) = elapse (d1 + d2) st.
Proof.
  unfold elapse. cbn. do 2 f_equal. lia.
Qed.

(** A held session whose [expiresAt] is falsy is served as it is: the
    refresh branch is not entered and the state is not touched. *)
Lemma getAccessToken_cached (ss : value) (st : State) :
  session (this st) = ss ->
  truthy ss = true ->
  (exists ea, JS.get ss "expiresAt" = inr ea
              /\ refresh_due (now (world st)) ea = false) ->
  getAccessToken st = (token_in ss, st).
Proof.
  intros Hs Ht (ea & Hea & Hdue).
  unfold getAccessToken, bind, read, prop, lift, Date_now.
  cbn. rewrite Hs, Ht. cbn. rewrite Hea, Hdue. cbn.
  rewrite Hs. apply access_token_of_pure.
Qed.

(** What [authorize] stores after a token response without
    [expires_in], and what [saveSession] then writes. *)
Lemma expiry_of_without_expires_in (tk : value) (st : State) :
  JS.get tk "expires_in" = inr VUndef ->
  expiry_of tk st = (inr VUndef, st).
Proof.
  intros H. unfold expiry_of, bind, prop, lift. rewrite H. reflexivity.
Qed.

(** C9. A session without [expiresAt] never expires. For a session [ss]
    whose [expiresAt] property is absent: [loadSession] returns it
    whatever the clock says; [getAccessToken()], called any number of
    times with any pauses, always returns the cached access token and
    leaves the manager and the world as they were (no refresh, no
    request, no file access); and this is the session [authorize()]
    builds and persists when the token response has no [expires_in]. *)
Theorem C9_session_without_expiry_never_expires
  (ss : value) (pauses : list N) (st : State) :
  truthy ss = true ->
  JS.get ss "expiresAt" = inr VUndef ->
  (file (world st) = Content (Some ss) -> loadSession st = (inr ss, st))
  /\ (session (this st) = ss ->
      calls getAccessToken pauses st
      = (repeat (token_in ss) (List.length pauses), elapse (total pauses) st))
  /\ (forall clientInfo tokens : value,
        JS.get tokens "expires_in" = inr VUndef ->
        expiry_of tokens st = (inr VUndef, st)
        /\ exists record,
             JSON_stringify (VObj [("clientInfo", clientInfo);
                                   ("tokens", tokens);
                                   ("expiresAt", VUndef)])
             = Some record
             /\ truthy record = true
             /\ JS.get record "expiresAt" = inr VUndef).
Proof.
  intros Ht Hea. split; [|split].
  - intros Hf. rewrite loadSession_loaded. unfold loaded.
    rewrite Hf, Hea. reflexivity.
  - revert st. induction pauses as [|d rest IH]; intros st Hs.
    + cbn. rewrite elapse_zero. reflexivity.
    + cbn [calls].
      rewrite (getAccessToken_cached ss (elapse d st) Hs Ht)
        by (exists VUndef; split; [exact Hea | reflexivity]).
      rewrite (IH (elapse d st) Hs). rewrite elapse_add. reflexivity.
  - intros ci tk Hin. split.
    + apply expiry_of_without_expires_in; exact Hin.
    + destruct ci, tk; try discriminate Hin;
        (eexists; split; [reflexivity | split; reflexivity]).
Qed.

(** *** The expiry test of [getAccessToken] *)

Lemma refresh_due_number (t e : Z) :
  e <> 0 -> refresh_due t (VNum e) = (e - 300000 <=? t).
Proof.
  intros He. unfold refresh_due. cbn.
  destruct (Z.eqb_spec e 0) as [H0|_]; [contradiction|reflexivity].
Qed.

Lemma getAccessToken_refreshing (ss ea : value) (st : State) :
  session (this st) = ss ->
  truthy ss = true ->
  JS.get ss "expiresAt" = inr ea ->
  refresh_due (now (world st)) ea = true ->
  getAccessToken st = refreshing st.
Proof.
  intros Hs Ht Hea Hdue.
  unfold getAccessToken, refreshing, bind, read, prop, lift, Date_now.
  cbn. rewrite Hs, Ht. cbn. rewrite Hea, Hdue. reflexivity.
Qed.



(** *** Refresh and its fallback *)

Lemma refreshAccessToken_without_metadata (st : State) :
  truthy (metadata (this st)) = false ->
  refreshAccessToken st
  = (inl (Error "Cannot refresh token: no active session"), st).
Proof.
  intros Hm. unfold refreshAccessToken, bind, read. cbn. rewrite Hm. reflexivity.
Qed.

Lemma refresh_session_propagates (e : exn) (st st1 : State) :
  refreshAccessToken st = (inl e, st1) ->
  refresh_session st = (inl e, st1).
Proof.
  intros H. unfold refresh_session, bind. rewrite H. reflexivity.
Qed.

(** When the [try] block throws, the outcome of [getAccessToken] is the
    outcome of [authorize()] run from where the block stopped. *)
Lemma refreshing_fallback (e : exn) (st st1 : State) :
  refresh_session st = (inl e, st1) ->
  refreshing st = authorize st1.
Proof.
  intros H. unfold refreshing, refresh_or_reauthorize, try_catch, bind.
  rewrite H. destruct (authorize st1) as [[e'|token] st2]; reflexivity.
Qed.

(** C10 (amended). After a restart with a cached session, refresh is
    out of reach, and so is a new authorization while the record lasts.
    A new manager that finds an unexpired session on disk returns from
    [authorize()] through the cache-hit path with [metadata] still unset;
    and in every state in which [metadata] is unset and that session is
    held, [refreshAccessToken] throws "Cannot refresh token: no active
    session" with nothing sent (the state is untouched), so that once the
    expiry is at most five minutes away [getAccessToken()] is exactly
    [authorize()]. While the record on disk is unexpired that call is a
    cache hit again: the cached token comes back and nothing changes, no
    request, no browser. Only from the expiry on is it a new
    authorization. The clock is taken to read a time after the epoch. *)
Theorem C10_no_refresh_after_restart
  (c : OAuthConfig) (w : World) (s : OAuthSession) (e : Z) :
  file w = Content (Some (json_of_session s)) ->
  expiresAt s = Some e ->
  0 <= now w < e ->
  authorize (fresh c w)
  = (inr (VStr (access_token (tokens s))),
     holding (json_of_session s) (fresh c w))
  /\ metadata (this (holding (json_of_session s) (fresh c w))) = VUndef
  /\ forall st : State,
       metadata (this st) = VUndef ->
       session (this st) = json_of_session s ->
       refreshAccessToken st
       = (inl (Error "Cannot refresh token: no active session"), st)
       /\ (e - 300000 <= now (world st) -> getAccessToken st = authorize st)
       /\ (e - 300000 <= now (world st) < e ->
           file (world st) = file w ->
           getAccessToken st = (inr (VStr (access_token (tokens s))), st))
       /\ (e <= now (world st) ->
           file (world st) = file w ->
           getAccessToken st = authorize_anew (holding VUndef st)).
Proof.
  intros Hf He [Hepoch Hlt]. assert (Hnz : e <> 0) by lia. split; [|split].
  - apply authorize_cache_hit; [exact Hf|].
    unfold unexpired. rewrite He. exact Hlt.
  - reflexivity.
  - intros st Hm Hs.
    assert (Hr : refreshAccessToken st
                 = (inl (Error "Cannot refresh token: no active session"), st)).
    { apply refreshAccessToken_without_metadata. rewrite Hm. reflexivity. }
    assert (Hg : e - 300000 <= now (world st) ->
                 getAccessToken st = authorize st).
    { intros Hdue.
      rewrite (getAccessToken_refreshing (json_of_session s) (VNum e) st Hs).
      + apply (refreshing_fallback
                 (Error "Cannot refresh token: no active session") st st).
        apply refresh_session_propagates. exact Hr.
      + reflexivity.
      + unfold json_of_session. rewrite He. reflexivity.
      + rewrite refresh_due_number by exact Hnz. apply Z.leb_le. exact Hdue. }
    split; [exact Hr|]. split; [exact Hg|]. split.
    + intros [Hdue Hleft] Hfile. rewrite (Hg Hdue).
      rewrite (authorize_cache_hit st s);
        [ | rewrite Hfile; exact Hf | unfold unexpired; rewrite He; exact Hleft ].
      f_equal. destruct st as [[cfg md ss] w0]. cbn in Hs. subst ss.
      reflexivity.
    + intros Hpast Hfile. rewrite (Hg ltac:(lia)).
      assert (Hl : loaded (world st) = VUndef).
      { unfold loaded. rewrite Hfile, Hf.
        unfold json_of_session. rewrite He.
        cbn [JS.get lookup optional String.eqb Ascii.eqb Bool.eqb app].
        cbn [truthy ToNumber num_ge].
        destruct (Z.eqb_spec e 0) as [H0|_]; [contradiction|].
        replace (e <=? now (world st)) with true
          by (symmetry; apply Z.leb_le; exact Hpast).
        reflexivity. }
      rewrite authorize_miss by (rewrite Hl; reflexivity).
      rewrite Hl. reflexivity.
Qed.

Lemma fetch_sends (url : value) (meth : string) (hdrs : list (string * string))
      (data : payload) (u : URL) (st : State) :
  URL_parse url = Some u ->
  fetch url meth hdrs data st
  = (match response (next_reply (world st)) with
     | Some resp => inr resp
     | None => inl FetchFailed
     end,
     sending {| target := url; method := meth; headers := hdrs; body := data |} st).
Proof.
  intros Hu. unfold fetch. rewrite Hu. reflexivity.
Qed.

(** The three ways [refreshAccessToken] fails that the source names. *)
Lemma refresh_without_refresh_token (tk rt : value) (st : State) :
  truthy (metadata (this st)) = true ->
  truthy (session (this st)) = true ->
  JS.get (session (this st)) "tokens" = inr tk ->
  JS.get tk "refresh_token" = inr rt ->
  truthy rt = false ->
  refreshAccessToken st = (inl (Error "No refresh token available"), st).
Proof.
  intros Hm Hs Htk Hrt Hf. unfold refreshAccessToken, bind, read, prop, lift.
  cbn. rewrite Hm, Hs. cbn. rewrite Htk, Hrt, Hf. reflexivity.
Qed.

Lemma refresh_rejected (tk rt te ci cid : value) (u : URL) (resp : Response)
      (st : State) :
  truthy (metadata (this st)) = true ->
  truthy (session (this st)) = true ->
  JS.get (session (this st)) "tokens" = inr tk ->
  JS.get tk "refresh_token" = inr rt ->
  truthy rt = true ->
  JS.get (metadata (this st)) "token_endpoint" = inr te ->
  JS.get (session (this st)) "clientInfo" = inr ci ->
  JS.get ci "client_id" = inr cid ->
  URL_parse te = Some u ->
  response (next_reply (world st)) = Some resp ->
  ok resp = false ->
  refreshAccessToken st
  = (inl (Error ("Token refresh failed: " ++ text resp)%string),
     sending (refresh_request te rt cid) st).
Proof.
  intros Hm Hs Htk Hrt Ht Hte Hci Hcid Hu Hresp Hok.
  unfold refreshAccessToken, bind, read, prop, lift.
  cbn. rewrite Hm, Hs. cbn. rewrite Htk, Hrt, Ht. cbn.
  rewrite Hte, Hci, Hcid. rewrite (fetch_sends _ _ _ _ u) by exact Hu.
  rewrite Hresp, Hok. reflexivity.
Qed.

Lemma getAccessToken_after_failed_refresh
      (ss ea : value) (e : exn) (st st1 : State) :
  session (this st) = ss ->
  truthy ss = true ->
  JS.get ss "expiresAt" = inr ea ->
  refresh_due (now (world st)) ea = true ->
  refresh_session st = (inl e, st1) ->
  getAccessToken st = authorize st1.
Proof.
  intros Hs Ht Hea Hdue Hfail.
  rewrite (getAccessToken_refreshing ss ea st Hs Ht Hea Hdue).
  apply (refreshing_fallback e). exact Hfail.
Qed.

(** The refresh fails without a request when no refresh token is held;
    [authorize()] runs from the very same state. *)
Lemma getAccessToken_without_refresh_token
      (ss ea tk rt : value) (st : State) :
  session (this st) = ss ->
  truthy ss = true ->
  JS.get ss "expiresAt" = inr ea ->
  refresh_due (now (world st)) ea = true ->
  truthy (metadata (this st)) = true ->
  JS.get ss "tokens" = inr tk ->
  JS.get tk "refresh_token" = inr rt ->
  truthy rt = false ->
  getAccessToken st = authorize st.
Proof.
  intros Hs Ht Hea Hdue Hm Htk Hrt Hf.
  apply (getAccessToken_after_failed_refresh
           ss ea (Error "No refresh token available") st st Hs Ht Hea Hdue).
  apply refresh_session_propagates.
  apply (refresh_without_refresh_token tk rt); auto; rewrite Hs; auto.
Qed.

(** C3 (amended). Whatever makes the refresh fail, [getAccessToken()]
    does not surface that error: its outcome is the outcome of
    [authorize()], run from the state the failed refresh left. So when the
    persisted record still loads, the caller gets that record's access
    token back and no authorization is performed; only when it does not
    load is a new authorization run, and an error reaches the caller only
    if [authorize()] raises one. *)
Theorem C3_refresh_failure_falls_back_to_authorize
  (ss ea : value) (e : exn) (st st1 : State) :
  session (this st) = ss ->
  truthy ss = true ->
  JS.get ss "expiresAt" = inr ea ->
  refresh_due (now (world st)) ea = true ->
  refresh_session st = (inl e, st1) ->
  getAccessToken st = authorize st1
  /\ (truthy (loaded (world st1)) = true ->
      getAccessToken st
      = (token_in (loaded (world st1)), holding (loaded (world st1)) st1))
  /\ (truthy (loaded (world st1)) = false ->
      getAccessToken st = authorize_anew (holding (loaded (world st1)) st1))
  /\ (forall e', fst (getAccessToken st) = inl e' ->
                 fst (authorize st1) = inl e').
Proof.
  intros Hs Ht Hea Hdue Hfail.
  pose proof (getAccessToken_after_failed_refresh
                ss ea e st st1 Hs Ht Hea Hdue Hfail) as Heq.
  split; [exact Heq|]. split; [|split].
  - intros Hl. rewrite Heq, authorize_hit by exact Hl.
    apply access_token_of_pure.
  - intros Hl. rewrite Heq. apply authorize_miss. exact Hl.
  - intros e' He'. rewrite <- Heq. exact He'.
Qed.

(** *** Discovery *)

Lemma getAuthBaseUrl_eq (u : URL) (st : State) :
  URL_parse (VStr (cfg_serverUrl (config (this st)))) = Some u ->
  getAuthBaseUrl st = (inr (base_of u), st).
Proof.
  intros Hu. unfold getAuthBaseUrl, bind, read, new_URL. cbn.
  rewrite Hu. reflexivity.
Qed.

(** [discoverMetadata], case by case. *)
Lemma discoverMetadata_eq (u : URL) (st : State) :
  URL_parse (VStr (cfg_serverUrl (config (this st)))) = Some u ->
  discoverMetadata st
  = match URL_parse (target (discovery_request (base_of u))) with
    | None =>
        (inr (default_metadata (base_of u)),
         knowing (default_metadata (base_of u)) st)
    | Some _ =>
        match offered (world st) with
        | Some md =>
            (inr md, knowing md (sending (discovery_request (base_of u)) st))
        | None =>
            (inr (default_metadata (base_of u)),
             knowing (default_metadata (base_of u))
                     (sending (discovery_request (base_of u)) st))
        end
    end.
Proof.
  intros Hu. unfold discoverMetadata, bind. rewrite (getAuthBaseUrl_eq u st Hu).
  unfold try_catch, bind, fetch, offered. cbn [discovery_request target].
  destruct (URL_parse (VStr (base_of u ++ "/.well-known/oauth-authorization-server")));
    [|reflexivity].
  cbn. destruct (response (next_reply (world st))) as [resp|]; [|reflexivity].
  destruct (ok resp); [|reflexivity].
  unfold response_json. destruct (json resp); reflexivity.
Qed.

Lemma discoverMetadata_config (st st1 : State) (r : exn + value) :
  discoverMetadata st = (r, st1) ->
  config (this st1) = config (this st).
Proof.
  destruct (URL_parse (VStr (cfg_serverUrl (config (this st))))) as [u|] eqn:Hu.
  - rewrite (discoverMetadata_eq u st Hu).
    destruct (URL_parse (target (discovery_request (base_of u))));
      [destruct (offered (world st))|];
      intros H; inversion H; reflexivity.
  - unfold discoverMetadata, bind, getAuthBaseUrl, bind, read, new_URL. cbn.
    rewrite Hu. intros H; inversion H; reflexivity.
Qed.

(** C6 (amended). Discovery fails soft, and takes any JSON. With a
    server address that parses, [discoverMetadata] returns metadata
    whatever the discovery request does, never an exception, and stores
    what it returns in [this.metadata]. When the request meets a network
    error, a non-success status or a body that is not JSON, that is
    exactly the fallback built from the base address with [/authorize],
    [/token] and [/register]. When the response is a success with a JSON
    body, that body is the metadata as it is, whatever it holds: nothing
    is checked, and it is usable only if the document is. *)
Theorem C6_discovery_fails_soft (u : URL) (st : State) :
  URL_parse (VStr (cfg_serverUrl (config (this st)))) = Some u ->
  (exists md, fst (discoverMetadata st) = inr md
              /\ metadata (this (snd (discoverMetadata st))) = md)
  /\ ((response (next_reply (world st)) = None
       \/ (exists resp, response (next_reply (world st)) = Some resp
                        /\ ok resp = false)
       \/ (exists resp, response (next_reply (world st)) = Some resp
                        /\ ok resp = true /\ json resp = None)) ->
      fst (discoverMetadata st) = inr (default_metadata (base_of u))
      /\ metadata (this (snd (discoverMetadata st)))
         = default_metadata (base_of u))
  /\ (forall (resp : Response) (document : value) (u' : URL),
        URL_parse (target (discovery_request (base_of u))) = Some u' ->
        response (next_reply (world st)) = Some resp ->
        ok resp = true ->
        json resp = Some document ->
        discoverMetadata st
        = (inr document,
           knowing document (sending (discovery_request (base_of u)) st)))
  /\ default_metadata (base_of u)
     = VObj [("authorization_endpoint", VStr (base_of u ++ "/authorize")%string);
             ("token_endpoint", VStr (base_of u ++ "/token")%string);
             ("registration_endpoint", VStr (base_of u ++ "/register")%string)].
Proof.
  intros Hu. rewrite (discoverMetadata_eq u st Hu). split; [|split; [|split]].
  - destruct (URL_parse (target (discovery_request (base_of u))));
      [destruct (offered (world st)) as [md|]|];
      eexists; split; reflexivity.
  - intros Hfail.
    assert (Hoff : offered (world st) = None).
    { unfold offered.
      destruct Hfail as [H | [(resp & H & Hok) | (resp & H & Hok & Hj)]];
        rewrite H; [reflexivity| |]; rewrite Hok; [reflexivity|exact Hj]. }
    rewrite Hoff.
    destruct (URL_parse (target (discovery_request (base_of u))));
      split; reflexivity.
  - intros resp document u' Hu' Hresp Hok Hj.
    rewrite Hu'. unfold offered. rewrite Hresp, Hok, Hj. reflexivity.
  - reflexivity.
Qed.

(** *** Client registration *)

Lemma registerClient_rejected (md ep : value) (u : URL) (resp : Response)
      (st : State) :
  JS.get md "registration_endpoint" = inr ep ->
  truthy ep = true ->
  URL_parse ep = Some u ->
  response (next_reply (world st)) = Some resp ->
  ok resp = false ->
  registerClient md st
  = (inl (Error ("Client registration failed: " ++ text resp)%string),
     sending (registration_call ep (config (this st))) st).
Proof.
  intros Hep Ht Hu Hresp Hok. unfold registerClient, bind, prop, lift, read.
  rewrite Hep, Ht. cbn. rewrite (fetch_sends _ _ _ _ u) by exact Hu.
  rewrite Hresp, Hok. reflexivity.
Qed.

(** Whatever [registerClient] throws, [authorize] replaces it. *)
Lemma authorize_replaces_registration_error
      (md : value) (e : exn) (st st1 st2 : State) :
  truthy (loaded (world st)) = false ->
  truthy (cfg_staticClientInfo (config (this st))) = false ->
  discoverMetadata (holding (loaded (world st)) st) = (inr md, st1) ->
  registerClient md st1 = (inl e, st2) ->
  authorize st
  = (inl (Error "OAuth client registration failed and no static client info provided"),
     st2).
Proof.
  intros Hl Hstatic Hd Hr. rewrite (authorize_miss st Hl).
  unfold authorize_anew, bind. rewrite Hd.
  pose proof (discoverMetadata_config _ _ _ Hd) as Hc. cbn in Hc.
  unfold client_for, bind, read. rewrite Hc, Hstatic.
  unfold try_catch. rewrite Hr. reflexivity.
Qed.

(** C8 (amended). When dynamic registration receives a non-success
    response, [registerClient] throws "Client registration failed: "
    followed by the response body, and [authorize()] catches that and
    throws the fixed message "OAuth client registration failed and no
    static client info provided" to its caller. *)
Theorem C8_registration_failure_message
  (md ep : value) (u : URL) (resp : Response) (st st1 : State) :
  truthy (loaded (world st)) = false ->
  truthy (cfg_staticClientInfo (config (this st))) = false ->
  discoverMetadata (holding (loaded (world st)) st) = (inr md, st1) ->
  JS.get md "registration_endpoint" = inr ep ->
  truthy ep = true ->
  URL_parse ep = Some u ->
  response (next_reply (world st1)) = Some resp ->
  ok resp = false ->
  registerClient md st1
  = (inl (Error ("Client registration failed: " ++ text resp)%string),
     sending (registration_call ep (config (this st1))) st1)
  /\ authorize st
     = (inl (Error "OAuth client registration failed and no static client info provided"),
        sending (registration_call ep (config (this st1))) st1).
Proof.
  intros Hl Hstatic Hd Hep Ht Hu Hresp Hok.
  pose proof (registerClient_rejected md ep u resp st1 Hep Ht Hu Hresp Hok) as Hr.
  split; [exact Hr|].
  exact (authorize_replaces_registration_error md _ st st1 _ Hl Hstatic Hd Hr).
Qed.

(** *** Loading the persisted record *)

Lemma loaded_absent_cases (w : World) :
  file w = Missing
  \/ file w = Unreadable
  \/ file w = Content None
  \/ file w = Content (Some VNull)
  \/ (exists v e, file w = Content (Some v)
                  /\ JS.get v "expiresAt" = inr (VNum e)
                  /\ e <> 0 /\ e <= now w) ->
  loaded w = VUndef.
Proof.
  unfold loaded.
  intros [H | [H | [H | [H | (v & e & H & Hea & Hnz & Hle)]]]];
    rewrite H; try reflexivity.
  rewrite Hea. cbn.
  destruct (Z.eqb_spec e 0) as [H0|_]; [contradiction|].
  replace (e <=? now w) with true by (symmetry; apply Z.leb_le; exact Hle).
  reflexivity.
Qed.

Lemma loaded_present (w : World) :
  loaded w <> VUndef ->
  exists v, file w = Content (Some v)
            /\ loaded w = v
            /\ forall e, JS.get v "expiresAt" = inr (VNum e) ->
                         e <> 0 -> now w < e.
Proof.
  unfold loaded. destruct (file w) as [| |[v|]]; try congruence.
  destruct (JS.get v "expiresAt") as [x|ea] eqn:Hea; try congruence.
  destruct (truthy ea && num_ge (now w) (ToNumber ea)) eqn:Hexp; try congruence.
  intros _. exists v. repeat split. intros e He Hnz.
  rewrite Hea in He. inversion He; subst ea. cbn in Hexp.
  destruct (Z.eqb_spec e 0) as [H0|_]; [contradiction|].
  cbn in Hexp. apply Z.leb_gt. exact Hexp.
Qed.

(** C1 (amended). [loadSession] never throws and changes nothing; it
    returns a session only if the file parses as JSON and the record's
    [expiresAt], when it is a non-zero number, is strictly in the future.
    A record that is missing, unreadable, not JSON, [null], or whose
    expiry is not in the future is absent to it, and [authorize()] then
    runs a new authorization exactly as for a missing file. No other
    property of the record is looked at. *)
Theorem C1_load_session (st : State) :
  loadSession st = (inr (loaded (world st)), st)
  /\ (file (world st) = Missing
      \/ file (world st) = Unreadable
      \/ file (world st) = Content None
      \/ file (world st) = Content (Some VNull)
      \/ (exists v e, file (world st) = Content (Some v)
                      /\ JS.get v "expiresAt" = inr (VNum e)
                      /\ e <> 0 /\ e <= now (world st)) ->
      loaded (world st) = VUndef
      /\ authorize st = authorize_anew (holding VUndef st))
  /\ (loaded (world st) <> VUndef ->
      exists v, file (world st) = Content (Some v)
                /\ loaded (world st) = v
                /\ forall e, JS.get v "expiresAt" = inr (VNum e) ->
                             e <> 0 -> now (world st) < e).
Proof.
  split; [apply loadSession_loaded|]. split; [|apply loaded_present].
  intros Habsent. pose proof (loaded_absent_cases _ Habsent) as Hl.
  split; [exact Hl|].
  rewrite authorize_miss by (rewrite Hl; reflexivity).
  rewrite Hl. reflexivity.
Qed.

(** *** The callback listener *)

Lemma generatePKCE_eq (st : State) :
  generatePKCE st
  = (inr (pkce_from (random_block (world st) 32)),
     {| this := this st;
        world := {| now := now (world st); file := file (world st);
                    writable := writable (world st);
                    replies := replies (world st); sent := sent (world st);
                    visits := visits (world st); listener := listener (world st);
                    browser := browser (world st);
                    entropy := entropy (world st);
                    drawn := (drawn (world st) + 32)%nat |} |}).
Proof. reflexivity. Qed.

(** Up to the wait, an attempt whose inputs are usable and whose port is
    free cannot fail: whatever the wait throws is what the flow throws. *)
Lemma flow_stops_at_wait (md ci aep cid : value) (u : URL) (e : exn)
      (st st' : State) :
  JS.get md "authorization_endpoint" = inr aep ->
  URL_parse aep = Some u ->
  JS.get ci "client_id" = inr cid ->
  port_free (world st) (now (world st)) = true ->
  await_callback
    (waiting (authorization_url u cid (redirectUri (config (this st)))
                (snd (pkce_from (random_block (world st) 32)))) st)
  = (inl e, st') ->
  performAuthorizationFlow md ci st = (inl e, st').
Proof.
  intros Haep Hu Hcid Hport Hwait.
  unfold performAuthorizationFlow, bind. rewrite generatePKCE_eq.
  destruct (pkce_from (random_block (world st) 32)) as [verifier challenge].
  unfold read, prop, lift, new_URL. cbn [this world snd] in *.
  rewrite Haep, Hu, Hcid. unfold listen, open, effect, ret.
  cbn [this world now listener port_free] in *. unfold port_free in Hport.
  unfold port_free. cbn [listener world]. rewrite Hport.
  cbn [this world now file writable replies sent visits listener browser
       entropy drawn].
  unfold waiting in Hwait. rewrite Hwait. reflexivity.
Qed.

Lemma await_callback_times_out (st : State) :
  no_callback_in_time st ->
  fst (await_callback st) = inl (Error "Authorization timeout")
  /\ now (world (snd (await_callback st))) = now (world st) + 300000
  /\ sent (world (snd (await_callback st))) = sent (world st)
  /\ (no_callback_ever st ->
      listener (world (snd (await_callback st))) = listener (world st)).
Proof.
  unfold no_callback_in_time, no_callback_ever, await_callback, effect.
  destruct (hd NoVisit (visits (world st))) as [|d code error]; intros H.
  - repeat split.
  - replace (Z.of_N d <? 300000) with false
      by (symmetry; apply Z.ltb_ge; exact H).
    repeat split. intros Hn; discriminate Hn.
Qed.

(** The sibling path: a request that arrives in time schedules the close
    of the server one second later, whatever it carries. *)
Lemma await_callback_schedules_close
      (d : N) (code error : option string) (st : State) :
  hd NoVisit (visits (world st)) = Arrives d code error ->
  Z.of_N d < 300000 ->
  fst (await_callback st) = handle_callback code error
  /\ listener (world (snd (await_callback st)))
     = Bound (Some (now (world st) + Z.of_N d + 1000))
  /\ forall t, now (world st) + Z.of_N d + 1000 <= t ->
               port_free (world (snd (await_callback st))) t = true.
Proof.
  intros Hv Hd. unfold await_callback, effect. rewrite Hv.
  replace (Z.of_N d <? 300000) with true by (symmetry; apply Z.ltb_lt; exact Hd).
  cbn. split; [reflexivity|]. split; [reflexivity|].
  intros t Ht. unfold port_free. cbn. apply Z.leb_le. exact Ht.
Qed.

Lemma authorize_flow_failure (md ci : value) (e : exn) (st st1 st2 st3 : State) :
  truthy (loaded (world st)) = false ->
  discoverMetadata (holding (loaded (world st)) st) = (inr md, st1) ->
  client_for md st1 = (inr ci, st2) ->
  performAuthorizationFlow md ci st2 = (inl e, st3) ->
  authorize st = (inl e, st3).
Proof.
  intros Hl Hd Hc Hf. rewrite (authorize_miss st Hl).
  unfold authorize_anew, bind. rewrite Hd, Hc, Hf. reflexivity.
Qed.

(** C2, the code at the timeout. When an authorization attempt reaches
    its wait and no request arrives on [/callback] within 300000 ms,
    [authorize()] throws "Authorization timeout", 300000 ms after the
    wait began and without having sent a token request. If no request
    ever arrives, the server is still bound afterwards with no close
    scheduled: the port is free at no later instant. *)
Theorem C2_timeout_leaves_listener_bound
  (md ci aep cid : value) (u : URL) (st st1 st2 : State) :
  truthy (loaded (world st)) = false ->
  discoverMetadata (holding (loaded (world st)) st) = (inr md, st1) ->
  client_for md st1 = (inr ci, st2) ->
  JS.get md "authorization_endpoint" = inr aep ->
  URL_parse aep = Some u ->
  JS.get ci "client_id" = inr cid ->
  port_free (world st2) (now (world st2)) = true ->
  no_callback_in_time st2 ->
  fst (authorize st) = inl (Error "Authorization timeout")
  /\ now (world (snd (authorize st))) = now (world st2) + 300000
  /\ sent (world (snd (authorize st))) = sent (world st2)
  /\ (no_callback_ever st2 ->
      listener (world (snd (authorize st))) = Bound None
      /\ forall t, port_free (world (snd (authorize st))) t = false).
Proof.
  intros Hl Hd Hc Haep Hu Hcid Hport Hnone.
  set (w8 := waiting (authorization_url u cid (redirectUri (config (this st2)))
                        (snd (pkce_from (random_block (world st2) 32)))) st2).
  destruct (await_callback_times_out w8 Hnone) as (Hr & Hnow & Hsent & Hlis).
  destruct (await_callback w8) as [r st3] eqn:Hwait. cbn [fst snd] in *.
  subst r.
  rewrite (authorize_flow_failure md ci _ st st1 st2 st3 Hl Hd Hc
             (flow_stops_at_wait md ci aep cid u _ st2 st3
                                 Haep Hu Hcid Hport Hwait)).
  cbn [fst snd]. split; [reflexivity|]. split; [exact Hnow|].
  split; [exact Hsent|]. intros Hever.
  assert (Hb : listener (world st3) = Bound None) by (apply Hlis; exact Hever).
  split; [exact Hb|]. intros t. unfold port_free. rewrite Hb. reflexivity.
Qed.

(** *** The encoding of bytes *)

Lemma lor_mul_add (hi lo k : Z) :
  0 <= k -> 0 <= lo < 2 ^ k ->
  Z.lor (hi * 2 ^ k) lo = hi * 2 ^ k + lo.
Proof.
  intros Hk Hlo.
  assert (Hland : Z.land (hi * 2 ^ k) lo = 0).
  { apply Z.bits_inj'; intros n Hn. rewrite Z.land_spec, Z.bits_0.
    destruct (Z.lt_ge_cases n k) as [Hlt|Hge].
    - rewrite Z.mul_pow2_bits_low by exact Hlt. reflexivity.
    - destruct (Z.eq_dec lo 0) as [->|Hnz].
      + rewrite Z.bits_0. apply andb_false_r.
      + rewrite (Z.bits_above_log2 lo n), andb_false_r; try reflexivity; try lia.
        apply Z.log2_lt_pow2; try lia.
        apply Z.lt_le_trans with (2 ^ k); try lia.
        apply Z.pow_le_mono_r; lia. }
  rewrite <- Z.lxor_lor, <- Z.add_nocarry_lxor; auto.
Qed.

Lemma list_ind3 {A} (P : list A -> Prop) :
  P [] -> (forall a, P [a]) -> (forall a b, P [a; b]) ->
  (forall a b c l, P l -> P (a :: b :: c :: l)) ->
  forall l, P l.
Proof.
  intros H0 H1 H2 H3. fix IH 1.
  intros [|a [|b [|c l]]];
    [exact H0 | apply H1 | apply H2 | apply H3; apply IH].
Qed.

Lemma sextets_in_range (bytes : list Z) :
  Forall is_byte bytes ->
  Forall (fun s => 0 <= s < 64) (Crypto.sextets bytes).
Proof.
  unfold is_byte.
  induction bytes as [|a|a b|a b c l IH] using list_ind3; intros H; cbn [Crypto.sextets].
  - constructor.
  - inversion H as [|? ? Ha _]; subst.
    bits_to_arith lor_mul_add. repeat constructor; divmod.
  - inversion H as [|? ? Ha H']; subst. inversion H' as [|? ? Hb _]; subst.
    bits_to_arith lor_mul_add. repeat constructor; divmod.
  - inversion H as [|? ? Ha H']; subst. inversion H' as [|? ? Hb H'']; subst.
    inversion H'' as [|? ? Hc Hl]; subst.
    bits_to_arith lor_mul_add. repeat (constructor; [divmod|]). apply IH; exact Hl.
Qed.

Lemma unsextets_sextets (bytes : list Z) :
  Forall is_byte bytes ->
  Crypto.unsextets (Crypto.sextets bytes) = bytes.
Proof.
  unfold is_byte.
  induction bytes as [|a|a b|a b c l IH] using list_ind3; intros H;
    cbn [Crypto.sextets Crypto.unsextets].
  - reflexivity.
  - inversion H as [|? ? Ha _]; subst.
    bits_to_arith lor_mul_add. repeat f_equal; divmod.
  - inversion H as [|? ? Ha H']; subst. inversion H' as [|? ? Hb _]; subst.
    bits_to_arith lor_mul_add. repeat f_equal; divmod.
  - inversion H as [|? ? Ha H']; subst. inversion H' as [|? ? Hb H'']; subst.
    inversion H'' as [|? ? Hc Hl]; subst.
    rewrite (IH Hl).
    bits_to_arith lor_mul_add. repeat f_equal; divmod.
Qed.

Lemma index_of_digit (s : Z) :
  0 <= s < 64 -> Crypto.index_of (Crypto.digit s) Crypto.alphabet = s.
Proof.
  intros Hs.
  assert (Hall : forallb (fun n => Crypto.index_of (Crypto.digit (Z.of_nat n))
                                                   Crypto.alphabet
                                   =? Z.of_nat n)
                         (seq 0 64) = true) by (vm_compute; reflexivity).
  rewrite forallb_forall in Hall.
  specialize (Hall (Z.to_nat s)). rewrite Z2Nat.id in Hall by lia.
  apply Z.eqb_eq, Hall, in_seq. lia.
Qed.

Lemma base64url_decode_encode (bytes : list Z) :
  Forall is_byte bytes ->
  Crypto.base64url_decode (Crypto.base64url bytes) = bytes.
Proof.
  intros Hb. unfold Crypto.base64url_decode, Crypto.base64url.
  rewrite list_ascii_of_string_of_list_ascii, map_map.
  rewrite <- (unsextets_sextets bytes Hb) at 2. f_equal.
  pose proof (sextets_in_range bytes Hb) as Hr.
  induction Hr as [|s l Hs _ IH]; cbn [map]; [reflexivity|].
  rewrite index_of_digit by exact Hs. rewrite IH. reflexivity.
Qed.

Lemma base64url_injective (b1 b2 : list Z) :
  Forall is_byte b1 -> Forall is_byte b2 ->
  Crypto.base64url b1 = Crypto.base64url b2 -> b1 = b2.
Proof.
  intros H1 H2 He.
  rewrite <- (base64url_decode_encode b1 H1), <- (base64url_decode_encode b2 H2).
  rewrite He. reflexivity.
Qed.

Lemma digit_unreserved (s : Z) : unreserved (Crypto.digit s) = true.
Proof.
  assert (Hall : forallb unreserved Crypto.alphabet = true)
    by (vm_compute; reflexivity).
  rewrite forallb_forall in Hall. unfold Crypto.digit.
  destruct (nth_in_or_default (Z.to_nat s) Crypto.alphabet "A"%char) as [Hin|Hd].
  - apply Hall. exact Hin.
  - rewrite Hd. reflexivity.
Qed.

Lemma base64url_url_safe (bytes : list Z) :
  url_safe (Crypto.base64url bytes) = true.
Proof.
  unfold url_safe, Crypto.base64url.
  rewrite list_ascii_of_string_of_list_ascii.
  induction (Crypto.sextets bytes) as [|s l IH]; cbn [map forallb];
    [reflexivity|].
  rewrite digit_unreserved, IH. reflexivity.
Qed.

Lemma random_block_bytes (w : World) (n : nat) :
  Forall is_byte (random_block w n) /\ List.length (random_block w n) = n.
Proof.
  unfold random_block. split.
  - apply Forall_forall. intros b Hin. apply in_map_iff in Hin.
    destruct Hin as (i & <- & _). unfold is_byte, byte_val.
    pose proof (Byte.to_N_bounded (entropy w (drawn w + i)%nat)). lia.
  - rewrite length_map, length_seq. reflexivity.
Qed.

Lemma base64url_length_32 (bytes : list Z) :
  List.length bytes = 32%nat -> String.length (Crypto.base64url bytes) = 43%nat.
Proof.
  intros Hlen.
  do 32 (destruct bytes as [|? bytes]; [discriminate Hlen|]).
  destruct bytes; [|discriminate Hlen]. reflexivity.
Qed.


(** C7. Every call of [generatePKCE] returns a pair. Its verifier is the
    base64url encoding of the next 32 bytes of the random source, which
    the call spends: 43 URL-safe characters from which the 32 bytes can
    be read back. Its challenge is the base64url encoding of the SHA-256
    digest of the verifier, URL-safe too, and passes the S256 check
    against the verifier. Two calls that draw different bytes return
    different verifiers. *)
Theorem C7_pkce_pair (st : State) :
  exists (verifier challenge : string) (st' : State),
    generatePKCE st = (inr (verifier, challenge), st')
    /\ List.length (random_block (world st) 32) = 32%nat
    /\ Forall is_byte (random_block (world st) 32)
    /\ drawn (world st') = (drawn (world st) + 32)%nat
    /\ verifier = Crypto.base64url (random_block (world st) 32)
    /\ Crypto.base64url_decode verifier = random_block (world st) 32
    /\ String.length verifier = 43%nat
    /\ url_safe verifier = true
    /\ challenge
       = Crypto.base64url (Crypto.sha256 (Crypto.bytes_of_string verifier))
    /\ url_safe challenge = true
    /\ verify_S256 verifier challenge = true
    /\ forall (st2 st2' : State) (verifier2 challenge2 : string),
         generatePKCE st2 = (inr (verifier2, challenge2), st2') ->
         random_block (world st2) 32 <> random_block (world st) 32 ->
         verifier2 <> verifier.
Proof.
  destruct (random_block_bytes (world st) 32) as [Hbytes Hlen].
  pose proof (generatePKCE_eq st) as Hg. unfold pkce_from in Hg.
  remember (random_block (world st) 32) as block eqn:Hblock.
  remember (Crypto.sha256 (Crypto.bytes_of_string (Crypto.base64url block)))
    as digest eqn:Hdigest.
  eexists (Crypto.base64url block), (Crypto.base64url digest), _.
  split; [exact Hg|].
  split; [exact Hlen|]. split; [exact Hbytes|]. split; [reflexivity|].
  split; [reflexivity|].
  split; [apply base64url_decode_encode; exact Hbytes|].
  split; [apply base64url_length_32; exact Hlen|].
  split; [apply base64url_url_safe|]. split; [rewrite Hdigest; reflexivity|].
  split; [apply base64url_url_safe|].
  split; [unfold verify_S256; rewrite <- Hdigest; apply String.eqb_refl|].
  intros st2 st2' v2 c2 Hg2 Hne Heq. apply Hne.
  rewrite generatePKCE_eq in Hg2. unfold pkce_from in Hg2.
  destruct (random_block_bytes (world st2) 32) as [Hbytes2 _].
  apply base64url_injective; [exact Hbytes2 | exact Hbytes |].
  rewrite <- Heq.
  remember (random_block (world st2) 32) as block2.
  remember (Crypto.sha256 (Crypto.bytes_of_string (Crypto.base64url block2)))
    as digest2.
  inversion Hg2 as [[Hv Hc Hst]]. reflexivity.
Qed.

End Properties.

(** ** Further properties of the manager *)

Section Coverage.

Context {runtime : Runtime}.

(** *** What the methods leave alone *)

Lemma fixes_ret {A X} (f : State -> X) (a : A) : fixes f (ret a).
Proof. intros st r st' H. inversion H. reflexivity. Qed.

Lemma fixes_throw {A X} (f : State -> X) (e : exn) : fixes f (@throw A e).
Proof. intros st r st' H. inversion H. reflexivity. Qed.

Lemma fixes_lift {A X} (f : State -> X) (x : exn + A) : fixes f (lift x).
Proof. intros st r st' H. inversion H. reflexivity. Qed.

Lemma fixes_read {A X} (f : State -> X) (g : State -> A) : fixes f (read g).
Proof. intros st r st' H. inversion H. reflexivity. Qed.

Lemma fixes_bind {A B X} (f : State -> X) (m : M A) (k : A -> M B) :
  fixes f m -> (forall a, fixes f (k a)) -> fixes f (bind m k).
Proof.
  intros Hm Hk st r st' H. unfold bind in H.
  destruct (m st) as [[e|a] s1] eqn:Hms.
  - inversion H; subst. exact (Hm _ _ _ Hms).
  - rewrite (Hk a _ _ _ H). exact (Hm _ _ _ Hms).
Qed.

Lemma fixes_try_catch {A X} (f : State -> X) (m : M A) (h : exn -> M A) :
  fixes f m -> (forall e, fixes f (h e)) -> fixes f (try_catch m h).
Proof.
  intros Hm Hh st r st' H. unfold try_catch in H.
  destruct (m st) as [[e|a] s1] eqn:Hms.
  - rewrite (Hh e _ _ _ H). exact (Hm _ _ _ Hms).
  - inversion H; subst. exact (Hm _ _ _ Hms).
Qed.

Lemma fixes_effect {A X} (f : State -> X) (g : World -> (exn + A) * World) :
  (forall m w, f {| this := m; world := snd (g w) |} = f {| this := m; world := w |}) ->
  fixes f (effect g).
Proof.
  intros Hg [m w] r st' H. unfold effect in H. cbn in H.
  specialize (Hg m w). destruct (g w) as [r' w']. inversion H; subst.
  exact Hg.
Qed.

#[local] Hint Resolve fixes_ret fixes_throw fixes_lift fixes_read
  fixes_bind fixes_try_catch : fixes.
#[local] Hint Extern 3 (fixes _ (if ?b then _ else _)) => destruct b : fixes.
#[local] Hint Extern 3 (fixes _ (match ?x with _ => _ end)) => destruct x : fixes.

(** The session file is written by [writeFile] and removed by [unlink];
    nothing else touches it. *)
Lemma fetch_fixes_disk (url : value) (meth : string)
      (hdrs : list (string * string)) (data : payload) :
  fixes disk (fetch url meth hdrs data).
Proof.
  unfold fetch. destruct (URL_parse url); [|apply fixes_throw].
  apply fixes_effect. reflexivity.
Qed.

Lemma set_session_fixes_disk (v : value) : fixes disk (set_session v).
Proof. intros st r st' H. inversion H. reflexivity. Qed.

Lemma set_metadata_fixes_disk (v : value) : fixes disk (set_metadata v).
Proof. intros st r st' H. inversion H. reflexivity. Qed.

Lemma randomBytes_fixes_disk (n : nat) : fixes disk (randomBytes n).
Proof. apply fixes_effect. reflexivity. Qed.

Lemma listen_fixes_disk : fixes disk listen.
Proof.
  apply fixes_effect. intros m w. destruct (port_free w (now w)); reflexivity.
Qed.

Lemma open_fixes_disk (u : URL) : fixes disk (open u).
Proof. apply fixes_effect. reflexivity. Qed.

Lemma await_callback_fixes_disk : fixes disk await_callback.
Proof.
  apply fixes_effect. intros m w.
  destruct (hd NoVisit (visits w)) as [|d c e]; [reflexivity|].
  destruct (Z.of_N d <? 300000); reflexivity.
Qed.

Lemma await_unheard_fixes_disk : fixes disk await_unheard.
Proof. apply fixes_effect. reflexivity. Qed.

Lemma readFile_fixes_disk : fixes disk readFile.
Proof.
  intros st r st' H. unfold readFile in H.
  destruct (file (world st)); inversion H; reflexivity.
Qed.

#[local] Hint Resolve fetch_fixes_disk set_session_fixes_disk
  set_metadata_fixes_disk randomBytes_fixes_disk listen_fixes_disk
  open_fixes_disk await_callback_fixes_disk await_unheard_fixes_disk
  readFile_fixes_disk : fixes.

Lemma discoverMetadata_fixes_disk : fixes disk discoverMetadata.
Proof.
  unfold discoverMetadata, getAuthBaseUrl, new_URL, response_json.
  auto 30 with fixes.
Qed.

Lemma registerClient_fixes_disk (md : value) :
  fixes disk (registerClient md).
Proof.
  unfold registerClient, prop, response_json. auto 30 with fixes.
Qed.

Lemma client_for_fixes_disk (md : value) : fixes disk (client_for md).
Proof.
  unfold client_for. pose proof (registerClient_fixes_disk md).
  auto 30 with fixes.
Qed.

Lemma performAuthorizationFlow_fixes_disk (md ci : value) :
  fixes disk (performAuthorizationFlow md ci).
Proof.
  unfold performAuthorizationFlow, generatePKCE, prop, new_URL, response_json.
  auto 60 with fixes.
Qed.

Lemma expiry_of_pure (tk : value) (st st' : State) (r : exn + value) :
  expiry_of tk st = (r, st') -> st' = st.
Proof.
  unfold expiry_of, bind, prop, lift, Date_now, read.
  destruct (JS.get tk "expires_in") as [e|v]; [intros H; inversion H; reflexivity|].
  destruct (truthy v); intros H; inversion H; reflexivity.
Qed.

Lemma saveSession_returns (ss : value) (st : State) :
  fst (saveSession ss st) = inr tt.
Proof.
  unfold saveSession, try_catch, bind, mkdir, writeFile, effect.
  destruct st as [m w]. cbn.
  destruct (writable w) eqn:Hw; cbn; [|reflexivity].
  destruct (JSON_stringify ss); cbn; [|reflexivity].
  rewrite Hw. reflexivity.
Qed.

(** *** A failed authorization and the persisted record *)

Lemma authorize_anew_failure (e : exn) (st st' : State) :
  authorize_anew st = (inl e, st') -> disk st' = disk st.
Proof.
  unfold authorize_anew, bind.
  destruct (discoverMetadata st) as [[e0|md] s1] eqn:Hd;
    pose proof (discoverMetadata_fixes_disk _ _ _ Hd) as F1;
    [intros H; inversion H; subst; exact F1|].
  destruct (client_for md s1) as [[e0|ci] s2] eqn:Hc;
    pose proof (client_for_fixes_disk md _ _ _ Hc) as F2;
    [intros H; inversion H; subst; congruence|].
  destruct (performAuthorizationFlow md ci s2) as [[e0|tk] s3] eqn:Hf;
    pose proof (performAuthorizationFlow_fixes_disk md ci _ _ _ Hf) as F3;
    [intros H; inversion H; subst; congruence|].
  destruct (expiry_of tk s3) as [[e0|ea] s4] eqn:He;
    pose proof (expiry_of_pure _ _ _ _ He) as F4; subst s4;
    [intros H; inversion H; subst; congruence|].
  (* From here on nothing throws: the token response is not null. *)
  unfold set_session. cbn.
  match goal with
  | |- context [saveSession ?ss ?s] =>
      pose proof (saveSession_returns ss s) as Hs;
      destruct (saveSession ss s) as [[e0|[]] s5]
  end; [discriminate Hs|].
  unfold prop, lift. unfold expiry_of, bind, prop, lift in He.
  destruct tk; try discriminate He; intros H; discriminate H.
Qed.

Lemma authorize_failure_disk (e : exn) (st st' : State) :
  authorize st = (inl e, st') -> disk st' = disk st.
Proof.
  intros H. destruct (truthy (loaded (world st))) eqn:Hl.
  - rewrite (authorize_hit st Hl), access_token_of_pure in H.
    inversion H. reflexivity.
  - rewrite (authorize_miss st Hl) in H.
    exact (authorize_anew_failure e _ _ H).
Qed.

(** X1. A call of [authorize()] that throws leaves the session file as
    it was: the record is written only once an authorization has gone
    through. *)
Theorem authorize_failure_keeps_record (e : exn) (st st' : State) :
  authorize st = (inl e, st') -> file (world st') = file (world st).
Proof.
  intros H. exact (f_equal fst (authorize_failure_disk e st st' H)).
Qed.

(** *** Saving, loading and clearing *)

Lemma to_json_tokens (t : OAuthTokenResponse) :
  to_json (json_of_tokens t) = json_of_tokens t.
Proof. destruct t as [a ty [n|] [r|] [sc|]]; reflexivity. Qed.

Lemma to_json_session (s : OAuthSession) :
  to_json (json_of_session s) = json_of_session s.
Proof.
  destruct s as [[id [sec|]] [a ty [n|] [r|] [sc|]] [e|]]; reflexivity.
Qed.

Lemma saveSession_writes (ss : value) (st : State) :
  writable (world st) = true ->
  ss <> VUndef ->
  saveSession ss st
  = (inr tt,
     {| this := this st;
        world := {| now := now (world st); file := Content (Some (to_json ss));
                    writable := writable (world st);
                    replies := replies (world st); sent := sent (world st);
                    visits := visits (world st); listener := listener (world st);
                    browser := browser (world st);
                    entropy := entropy (world st); drawn := drawn (world st) |} |}).
Proof.
  intros Hw Hss. unfold saveSession, try_catch, bind, mkdir, writeFile, effect.
  destruct st as [m w]. cbn in *. rewrite Hw.
  destruct ss; try contradiction; cbn; rewrite Hw; reflexivity.
Qed.

Lemma saveSession_unwritable (ss : value) (st : State) :
  writable (world st) = false -> saveSession ss st = (inr tt, st).
Proof.
  intros Hw. unfold saveSession, try_catch, bind, mkdir, effect.
  destruct st as [m w]. cbn in *. rewrite Hw. reflexivity.
Qed.

(** X2. What [saveSession] writes, [loadSession] reads back: a
    well-typed session saved on a writable disk is loaded again, equal
    to itself, for as long as it is unexpired. *)
Theorem save_load_round_trip (s : OAuthSession) (d : N) (st : State) :
  writable (world st) = true ->
  unexpired (now (world st) + Z.of_N d) s ->
  file (world (snd (saveSession (json_of_session s) st)))
  = Content (Some (json_of_session s))
  /\ fst (loadSession (elapse d (snd (saveSession (json_of_session s) st))))
     = inr (json_of_session s).
Proof.
  intros Hw Hu.
  rewrite saveSession_writes by (auto; discriminate).
  rewrite to_json_session. split; [reflexivity|].
  rewrite loadSession_loaded. cbn [fst]. f_equal.
  apply loaded_session; [reflexivity | exact Hu].
Qed.

Lemma clearSession_cleared (st : State) :
  clearSession st = (inr tt, cleared st).
Proof.
  destruct st as [[c md ss] [t f wr rs sn vs l b en dr]].
  unfold clearSession, cleared, bind, try_catch, set_session, existsSync,
    read, unlink, effect, ret. cbn.
  destruct f, wr; reflexivity.
Qed.

(** X4. [clearSession] never throws; afterwards no session is held and,
    on a writable disk, no session file is left, so the next
    [authorize()] authorizes anew. Clearing again changes nothing. *)
Theorem clearSession_clears (st : State) :
  fst (clearSession st) = inr tt
  /\ session (this (snd (clearSession st))) = VUndef
  /\ metadata (this (snd (clearSession st))) = metadata (this st)
  /\ clearSession (snd (clearSession st)) = (inr tt, snd (clearSession st))
  /\ (writable (world st) = true ->
      file (world (snd (clearSession st))) = Missing
      /\ authorize (snd (clearSession st))
         = authorize_anew (snd (clearSession st))).
Proof.
  rewrite clearSession_cleared. cbn [fst snd].
  split; [reflexivity|]. split; [reflexivity|]. split; [reflexivity|].
  split.
  - rewrite clearSession_cleared. f_equal.
    destruct st as [[c md ss] [t f wr rs sn vs l b en dr]].
    unfold cleared. cbn. destruct wr; reflexivity.
  - intros Hw.
    assert (Hf : file (world (cleared st)) = Missing)
      by (unfold cleared; cbn; rewrite Hw; reflexivity).
    split; [exact Hf|].
    assert (Hl : loaded (world (cleared st)) = VUndef)
      by (unfold loaded; rewrite Hf; reflexivity).
    rewrite authorize_miss by (rewrite Hl; reflexivity).
    rewrite Hl. reflexivity.
Qed.

(** *** A refresh that goes through *)

Lemma get_access_token (t : OAuthTokenResponse) :
  JS.get (json_of_tokens t) "access_token" = inr (VStr (access_token t)).
Proof. reflexivity. Qed.

Lemma get_refresh_token (t : OAuthTokenResponse) :
  JS.get (json_of_tokens t) "refresh_token"
  = inr (match refresh_token t with Some r => VStr r | None => VUndef end).
Proof. destruct t as [a ty [n|] [r|] [sc|]]; reflexivity. Qed.

Lemma expiry_of_tokens (t : OAuthTokenResponse) (st : State) :
  expiry_of (json_of_tokens t) st
  = (inr (expiry_after (now (world st)) t), st).
Proof.
  unfold expiry_of, expiry_after, bind, prop, lift, Date_now, read.
  destruct t as [a ty [n|] [r|] [sc|]]; cbn;
    try reflexivity; destruct (n =? 0); reflexivity.
Qed.

Lemma truthy_text (s : string) : s <> "" -> truthy (VStr s) = true.
Proof.
  intros H. cbn. destruct (String.eqb_spec s ""); [contradiction|reflexivity].
Qed.

(** The state a successful refresh leaves, up to the saving. *)
Lemma getAccessToken_refreshed
      (s : OAuthSession) (t' : OAuthTokenResponse) (rt : string) (te : value)
      (resp : Response) (st : State) :
  refresh_ready s rt te resp st ->
  ok resp = true ->
  json resp = Some (json_of_tokens t') ->
  getAccessToken st
  = (inr (VStr (access_token t')),
     snd (saveSession
            (new_session (json_of_client (clientInfo s)) (json_of_tokens t')
               (expiry_after (now (world st)
                              + Z.of_N (latency (next_reply (world st)))) t'))
            (holding
               (new_session (json_of_client (clientInfo s)) (json_of_tokens t')
                  (expiry_after (now (world st)
                                 + Z.of_N (latency (next_reply (world st)))) t'))
               (sending (refresh_request te (VStr rt)
                           (VStr (client_id (clientInfo s)))) st)))).
Proof.
  intros (Hs & (e & He & Hnz & Hdue) & Hrt & Hne & Hm & Hte & (u & Hu) & Hresp)
         Hok Hjson.
  pose proof (get_refresh_token (tokens s)) as Hgrt. rewrite Hrt in Hgrt.
  pose proof (get_access_token t') as Hgat.
  pose proof (fun st => expiry_of_tokens t' st) as Hexp.
  assert (Hcid : JS.get (json_of_client (clientInfo s)) "client_id"
                 = inr (VStr (client_id (clientInfo s)))) by reflexivity.
  assert (Hss : session (this st)
                = new_session (json_of_client (clientInfo s))
                              (json_of_tokens (tokens s)) (VNum e)).
  { rewrite Hs. unfold json_of_session. rewrite He. reflexivity. }
  remember (json_of_tokens (tokens s)) as tk eqn:Etk.
  remember (json_of_tokens t') as tk' eqn:Etk'.
  remember (json_of_client (clientInfo s)) as ci eqn:Eci.
  remember (expiry_after (now (world st)
                          + Z.of_N (latency (next_reply (world st)))) t')
    as ea' eqn:Eea.
  clear Etk Eci Hs.
  rewrite (getAccessToken_refreshing _ (VNum e) st Hss eq_refl eq_refl)
    by (rewrite refresh_due_number by exact Hnz; apply Z.leb_le; exact Hdue).
  assert (Hr : refreshAccessToken st
               = (inr tk',
                  sending (refresh_request te (VStr rt)
                             (VStr (client_id (clientInfo s)))) st)).
  { unfold refreshAccessToken, bind, read, prop, lift.
    rewrite Hm, Hss. cbn [negb orb truthy new_session JS.get lookup
                          String.eqb Ascii.eqb Bool.eqb].
    rewrite Hgrt, (truthy_text rt Hne). cbn [negb]. rewrite Hte, Hcid.
    rewrite (fetch_sends _ _ _ _ u) by exact Hu.
    rewrite Hresp, Hok. cbn [negb]. unfold response_json, bind, ret.
    rewrite Hjson. reflexivity. }
  unfold refreshing, refresh_or_reauthorize, try_catch, refresh_session.
  unfold bind. rewrite Hr. unfold read, lift, set_session.
  cbn [this world sending session]. rewrite Hss.
  cbn [JS.set new_session assign String.eqb Ascii.eqb Bool.eqb].
  rewrite Hexp.
  cbn [this world session JS.set assign String.eqb Ascii.eqb Bool.eqb
       config metadata sending exchange now].
  rewrite <- Eea.
  match goal with
  | |- context [saveSession ?a ?b] =>
      pose proof (saveSession_returns a b) as Hsv;
      assert (Hthis : session (this (snd (saveSession a b))) = a);
      [ destruct (writable (world b)) eqn:Hw;
        [ rewrite saveSession_writes by (auto; discriminate); reflexivity
        | rewrite saveSession_unwritable by exact Hw; reflexivity ]
      | destruct (saveSession a b) as [[x|[]] s5] eqn:Hsave ]
  end; [discriminate Hsv|].
  cbn [fst snd] in *. unfold ret.
  rewrite access_token_of_pure, Hthis.
  unfold token_in. cbn [JS.get lookup String.eqb Ascii.eqb Bool.eqb].
  rewrite Hgat. unfold holding, new_session, sending in *. cbn in Hsave |- *.
  rewrite Hsave. reflexivity.
Qed.

(** X5. A refresh that the token endpoint grants: [getAccessToken()]
    sends the one refresh request, returns the new access token, holds
    the new tokens under the old client with the expiry counted from the
    moment the reply came in, and writes that session to disk if the
    disk can be written. *)
Theorem getAccessToken_after_granted_refresh
  (s : OAuthSession) (t' : OAuthTokenResponse) (rt : string) (te : value)
  (resp : Response) (st : State) :
  refresh_ready s rt te resp st ->
  ok resp = true ->
  json resp = Some (json_of_tokens t') ->
  fst (getAccessToken st) = inr (VStr (access_token t'))
  /\ session (this (snd (getAccessToken st)))
     = new_session (json_of_client (clientInfo s)) (json_of_tokens t')
         (expiry_after (now (world st)
                        + Z.of_N (latency (next_reply (world st)))) t')
  /\ sent (world (snd (getAccessToken st)))
     = sent (world st)
       ++ [refresh_request te (VStr rt) (VStr (client_id (clientInfo s)))]
  /\ file (world (snd (getAccessToken st)))
     = if writable (world st)
       then Content (Some (to_json (session (this (snd (getAccessToken st))))))
       else file (world st).
Proof.
  intros Hready Hok Hjson.
  rewrite (getAccessToken_refreshed s t' rt te resp st Hready Hok Hjson).
  cbn [fst snd]. split; [reflexivity|].
  destruct (writable (world st)) eqn:Hw.
  - rewrite saveSession_writes by (auto; discriminate).
    repeat split.
  - rewrite saveSession_unwritable by exact Hw. repeat split.
Qed.

(** X6. The refresh token is not carried over. When the granted refresh
    brings no refresh token of its own, the session held afterwards has
    none: the next [refreshAccessToken] throws "No refresh token
    available" and sends nothing. *)
Theorem refresh_token_is_not_carried_over
  (s : OAuthSession) (t' : OAuthTokenResponse) (rt : string) (te : value)
  (resp : Response) (st : State) :
  refresh_ready s rt te resp st ->
  ok resp = true ->
  json resp = Some (json_of_tokens t') ->
  refresh_token t' = None ->
  refreshAccessToken (snd (getAccessToken st))
  = (inl (Error "No refresh token available"), snd (getAccessToken st)).
Proof.
  intros Hready Hok Hjson Hnone.
  pose proof Hready as (_ & _ & _ & _ & Hm & _).
  rewrite (getAccessToken_refreshed s t' rt te resp st Hready Hok Hjson).
  cbn [snd].
  match goal with
  | |- refreshAccessToken ?final = _ =>
      assert (Hthis : this final
                      = {| config := config (this st);
                           metadata := metadata (this st);
                           session :=
                             new_session (json_of_client (clientInfo s))
                               (json_of_tokens t')
                               (expiry_after
                                  (now (world st)
                                   + Z.of_N (latency (next_reply (world st))))
                                  t') |})
  end.
  { destruct (writable (world st)) eqn:Hw.
    - rewrite saveSession_writes by (auto; discriminate). reflexivity.
    - rewrite saveSession_unwritable by exact Hw. reflexivity. }
  apply (refresh_without_refresh_token (json_of_tokens t') VUndef);
    rewrite ?Hthis; cbn [metadata session]; auto.
  rewrite get_refresh_token, Hnone. reflexivity.
Qed.

(** *** An attempt that gets its callback *)

Lemma lookup_without (k k' : string) (l : list (string * value)) :
  k <> k' -> lookup k (without k' l) = lookup k l.
Proof.
  intros Hne. induction l as [|[k0 v] l IH]; cbn; [reflexivity|].
  destruct (String.eqb_spec k' k0) as [->|H0].
  - rewrite IH. destruct (String.eqb_spec k k0); [contradiction|reflexivity].
  - cbn. rewrite IH. reflexivity.
Qed.

Lemma lookup_params_set_same (k : string) (x : value) (l : list (string * value)) :
  lookup k (params_set k x l) = Some x.
Proof.
  induction l as [|[k0 v] l IH]; cbn.
  - rewrite String.eqb_refl. reflexivity.
  - destruct (String.eqb_spec k k0) as [->|H0]; cbn.
    + rewrite String.eqb_refl. reflexivity.
    + destruct (String.eqb_spec k k0); [contradiction|exact IH].
Qed.

Lemma lookup_params_set_other (k k' : string) (x : value)
      (l : list (string * value)) :
  k <> k' -> lookup k (params_set k' x l) = lookup k l.
Proof.
  intros Hne. induction l as [|[k0 v] l IH]; cbn.
  - destruct (String.eqb_spec k k'); [contradiction|reflexivity].
  - destruct (String.eqb_spec k' k0) as [->|H0]; cbn.
    + destruct (String.eqb_spec k k0); [contradiction|].
      apply lookup_without. exact Hne.
    + rewrite IH. reflexivity.
Qed.

(** The whole flow, when the callback brings a code in time. *)
Lemma flow_exchanges (md ci cid te : value) (u u2 : URL) (d : N)
      (code error : option string) (st : State) :
  attempt_ready md ci cid u st ->
  hd NoVisit (visits (world st)) = Arrives d code error ->
  Z.of_N d < 300000 ->
  present error = false ->
  present code = true ->
  JS.get md "token_endpoint" = inr te ->
  URL_parse te = Some u2 ->
  performAuthorizationFlow md ci st
  = (exchange_outcome (response (next_reply (world st))),
     sending (code_request te (query_text code) (redirectUri (config (this st)))
                           cid (attempt_verifier st))
             (called_back d (waiting (attempt_url u cid st) st))).
Proof.
  intros ((aep & Haep & Hu) & Hcid & Hport) Hv Hd He Hc Hte Hu2.
  unfold performAuthorizationFlow, bind. rewrite generatePKCE_eq.
  unfold attempt_url, attempt_verifier.
  destruct (pkce_from (random_block (world st) 32)) as [verifier challenge].
  unfold read, prop, lift, new_URL. cbn [this world snd fst] in *.
  rewrite Haep, Hu, Hcid. unfold listen, open, effect, ret.
  unfold port_free in *. cbn [this world now listener]. rewrite Hport.
  cbn [this world now file writable replies sent visits listener browser
       entropy drawn].
  unfold await_callback, effect.
  cbn [this world now file writable replies sent visits listener browser
       entropy drawn].
  rewrite Hv. replace (Z.of_N d <? 300000) with true
    by (symmetry; apply Z.ltb_lt; exact Hd).
  unfold handle_callback. rewrite He, Hc. rewrite Hte.
  rewrite (fetch_sends _ _ _ _ u2) by exact Hu2.
  unfold exchange_outcome, sending, called_back, waiting, next_reply.
  cbn [this world now file writable replies sent visits listener browser
       entropy drawn].
  destruct (response (match replies (world st) with
                      | [] => {| latency := 0%N; response := None |}
                      | r :: _ => r
                      end)) as [resp|]; [|reflexivity].
  destruct (ok resp); cbn [negb]; [|reflexivity].
  unfold response_json. destruct (json resp); reflexivity.
Qed.

(** X7. The attempt binds its two halves: the URL given to the browser
    carries the S256 challenge of the very verifier that the token
    request then sends, and both name the same redirect URI and
    client. *)
Theorem authorization_binds_verifier (md ci cid te : value) (u u2 : URL)
        (d : N) (code error : option string) (st : State) :
  attempt_ready md ci cid u st ->
  hd NoVisit (visits (world st)) = Arrives d code error ->
  Z.of_N d < 300000 ->
  present error = false ->
  present code = true ->
  JS.get md "token_endpoint" = inr te ->
  URL_parse te = Some u2 ->
  exists authUrl challenge,
    browser (world (snd (performAuthorizationFlow md ci st)))
    = browser (world st) ++ [authUrl]
    /\ lookup "code_challenge" (searchParams authUrl) = Some (VStr challenge)
    /\ lookup "code_challenge_method" (searchParams authUrl) = Some (VStr "S256")
    /\ lookup "response_type" (searchParams authUrl) = Some (VStr "code")
    /\ lookup "redirect_uri" (searchParams authUrl)
       = Some (VStr (redirectUri (config (this st))))
    /\ lookup "client_id" (searchParams authUrl) = Some cid
    /\ sent (world (snd (performAuthorizationFlow md ci st)))
       = sent (world st)
           ++ [code_request te (query_text code) (redirectUri (config (this st)))
                            cid (attempt_verifier st)]
    /\ verify_S256 (attempt_verifier st) challenge = true.
Proof.
  intros Hr Hv Hd He Hc Hte Hu2.
  rewrite (flow_exchanges md ci cid te u u2 d code error st Hr Hv Hd He Hc Hte Hu2).
  exists (attempt_url u cid st), (snd (pkce_from (random_block (world st) 32))).
  unfold attempt_url, attempt_verifier, authorization_url, searchParams_set.
  remember (random_block (world st) 32) as block eqn:Hb.
  cbn [snd searchParams sending called_back waiting world browser sent exchange].
  repeat split.
  - rewrite lookup_params_set_other by discriminate.
    apply lookup_params_set_same.
  - apply lookup_params_set_same.
  - do 2 rewrite lookup_params_set_other by discriminate.
    apply lookup_params_set_same.
  - do 3 rewrite lookup_params_set_other by discriminate.
    apply lookup_params_set_same.
  - do 4 rewrite lookup_params_set_other by discriminate.
    apply lookup_params_set_same.
  - unfold verify_S256, pkce_from. cbn [fst snd]. apply String.eqb_refl.
Qed.

Lemma await_callback_called_back (d : N) (code error : option string)
      (st : State) :
  hd NoVisit (visits (world st)) = Arrives d code error ->
  Z.of_N d < 300000 ->
  await_callback st = (handle_callback code error, called_back d st).
Proof.
  intros Hv Hd. unfold await_callback, effect. rewrite Hv.
  replace (Z.of_N d <? 300000) with true by (symmetry; apply Z.ltb_lt; exact Hd).
  reflexivity.
Qed.

(** X8. A callback that carries an [error] fails the attempt with that
    error, whether or not it also carries a code; one that carries
    neither fails it as invalid. In both cases no token request is sent
    and the port is released one second after the callback. *)
Theorem callback_without_code_fails (md ci cid : value) (u : URL)
        (d : N) (code error : option string) (st : State) :
  attempt_ready md ci cid u st ->
  hd NoVisit (visits (world st)) = Arrives d code error ->
  Z.of_N d < 300000 ->
  present error = true \/ present code = false ->
  fst (performAuthorizationFlow md ci st)
  = inl (Error (if present error
                then ("Authorization failed: " ++ query_text error)%string
                else "Invalid callback: missing code"))
  /\ sent (world (snd (performAuthorizationFlow md ci st))) = sent (world st)
  /\ listener (world (snd (performAuthorizationFlow md ci st)))
     = Bound (Some (now (world st) + Z.of_N d + 1000)).
Proof.
  intros ((aep & Haep & Hu) & Hcid & Hport) Hv Hd Hce.
  assert (Hh : handle_callback code error
               = inl (Error (if present error
                             then ("Authorization failed: " ++ query_text error)%string
                             else "Invalid callback: missing code"))).
  { unfold handle_callback. destruct (present error); [reflexivity|].
    destruct Hce as [Hce|Hce]; [discriminate Hce|]. rewrite Hce. reflexivity. }
  rewrite (flow_stops_at_wait md ci aep cid u
             (Error (if present error
                     then ("Authorization failed: " ++ query_text error)%string
                     else "Invalid callback: missing code"))
             st (called_back d (waiting (attempt_url u cid st) st))
             Haep Hu Hcid Hport).
  - repeat split.
  - rewrite <- Hh. apply await_callback_called_back; assumption.
Qed.

(** *** The callback port *)

Lemma bind_run {A B} (m : M A) (k : A -> M B) (st : State) :
  bind m k st = match m st with
                | (inr a, s) => k a s
                | (inl e, s) => (inl e, s)
                end.
Proof. reflexivity. Qed.

Lemma fetch_fixes_port (url : value) (meth : string)
      (hdrs : list (string * string)) (data : payload) :
  fixes callback_port (fetch url meth hdrs data).
Proof.
  unfold fetch. destruct (URL_parse url); [|apply fixes_throw].
  intros st r st' H. unfold effect in H.
  destruct (response (next_reply (world st))); inversion H; reflexivity.
Qed.

(** X9. Once the callback has come in time, the port is released one
    second after it, whatever the callback carried and however the
    token exchange went. *)
Theorem callback_releases_port (md ci cid : value) (u : URL)
        (d : N) (code error : option string) (st : State) :
  attempt_ready md ci cid u st ->
  hd NoVisit (visits (world st)) = Arrives d code error ->
  Z.of_N d < 300000 ->
  listener (world (snd (performAuthorizationFlow md ci st)))
  = Bound (Some (now (world st) + Z.of_N d + 1000)).
Proof.
  intros ((aep & Haep & Hu) & Hcid & Hport) Hv Hd.
  unfold performAuthorizationFlow.
  rewrite bind_run, generatePKCE_eq.
  destruct (pkce_from (random_block (world st) 32)) as [verifier challenge].
  rewrite bind_run. unfold read at 1. cbn [this config].
  rewrite bind_run. unfold prop at 1, lift at 1. rewrite Haep.
  rewrite bind_run. unfold new_URL at 1. rewrite Hu. unfold ret at 1.
  rewrite bind_run. unfold prop at 1, lift at 1. rewrite Hcid.
  rewrite bind_run. unfold listen at 1, effect at 1.
  unfold port_free in *. cbn [this world now listener]. rewrite Hport.
  rewrite bind_run. unfold open at 1, effect at 1.
  cbn [this world now file writable replies sent visits listener browser
       entropy drawn].
  rewrite bind_run.
  match goal with
  | |- context [await_callback ?s] =>
      rewrite (await_callback_called_back d code error s) by assumption
  end.
  destruct (handle_callback code error) as [e|c]; [reflexivity|].
  match goal with
  | |- listener (world (snd (?m ?s))) = _ =>
      assert (F : fixes callback_port m)
        by (pose proof fetch_fixes_port; unfold prop, response_json;
            auto 30 with fixes);
      destruct (m s) as [r s'] eqn:Hm; apply F in Hm
  end.
  cbn [snd]. unfold callback_port in Hm. rewrite Hm. reflexivity.
Qed.

(** *** A whole authorization *)

Lemma attempt_begins_disk (md ci : value) (st st2 : State) :
  attempt_begins md ci st st2 -> disk st2 = disk st.
Proof.
  intros (_ & st1 & Hd & Hc).
  rewrite (client_for_fixes_disk md _ _ _ Hc).
  exact (discoverMetadata_fixes_disk _ _ _ Hd).
Qed.

Lemma authorize_completes (md ci tk ea : value) (st st2 st3 : State) :
  attempt_begins md ci st st2 ->
  performAuthorizationFlow md ci st2 = (inr tk, st3) ->
  expiry_of tk st3 = (inr ea, st3) ->
  authorize st
  = (JS.get tk "access_token",
     snd (saveSession (new_session ci tk ea)
                      (holding (new_session ci tk ea) st3))).
Proof.
  intros (Hl & st1 & Hd & Hc) Hf He. rewrite (authorize_miss st Hl).
  unfold authorize_anew, bind. rewrite Hd, Hc, Hf, He.
  unfold set_session. fold (new_session ci tk ea).
  fold (holding (new_session ci tk ea) st3).
  pose proof (saveSession_returns (new_session ci tk ea)
                (holding (new_session ci tk ea) st3)) as Hs.
  destruct (saveSession (new_session ci tk ea)
              (holding (new_session ci tk ea) st3)) as [[e|[]] s5];
    [discriminate Hs|].
  reflexivity.
Qed.

Lemma to_json_new_session (c : OAuthClientInfo) (t : OAuthTokenResponse)
      (at_ : Z) :
  to_json (new_session (json_of_client c) (json_of_tokens t)
                       (expiry_after at_ t))
  = json_of_session (granted_session c t at_).
Proof.
  destruct c as [id [sec|]]; destruct t as [a ty [n|] [r|] [sc|]];
    unfold expiry_after, granted_session; cbn [expires_in];
    try destruct (n =? 0); reflexivity.
Qed.

(** X10. An authorization that goes through on a writable disk returns
    the granted access token and leaves a record from which a later
    start of the program, for as long as the grant is unexpired, gets
    the same token by [authorize()] without asking anyone. *)
Theorem authorize_then_restart (md : value) (c : OAuthClientInfo)
        (t : OAuthTokenResponse) (st st2 st3 : State) :
  attempt_begins md (json_of_client c) st st2 ->
  performAuthorizationFlow md (json_of_client c) st2
  = (inr (json_of_tokens t), st3) ->
  writable (world st) = true ->
  fst (authorize st) = inr (VStr (access_token t))
  /\ file (world (snd (authorize st)))
     = Content (Some (json_of_session (granted_session c t (now (world st3)))))
  /\ forall (cfg : OAuthConfig) (w : World),
       file w = file (world (snd (authorize st))) ->
       unexpired (now w) (granted_session c t (now (world st3))) ->
       authorize (fresh cfg w)
       = (inr (VStr (access_token t)),
          holding (json_of_session (granted_session c t (now (world st3))))
                  (fresh cfg w)).
Proof.
  intros Hb Hf Hw.
  assert (Hw3 : writable (world st3) = true).
  { pose proof (attempt_begins_disk _ _ _ _ Hb) as D2.
    pose proof (performAuthorizationFlow_fixes_disk _ _ _ _ _ Hf) as D3.
    rewrite D2 in D3. apply (f_equal snd) in D3. cbn in D3. congruence. }
  rewrite (authorize_completes md _ _ _ st st2 st3 Hb Hf
             (expiry_of_tokens t st3)).
  rewrite saveSession_writes by (try discriminate; exact Hw3).
  rewrite to_json_new_session. cbn [fst snd world file].
  split; [reflexivity|]. split; [reflexivity|].
  intros cfg w Hfile Hu.
  exact (authorize_cache_hit (fresh cfg w) _ Hfile Hu).
Qed.

(** X3. A disk that takes no writes does not fail the authorization:
    the token is returned and the session is held in memory; only the
    record is missing, and the file is as it was. *)
Theorem authorize_on_read_only_disk (md ci : value) (t : OAuthTokenResponse)
        (st st2 st3 : State) :
  attempt_begins md ci st st2 ->
  performAuthorizationFlow md ci st2 = (inr (json_of_tokens t), st3) ->
  writable (world st) = false ->
  fst (authorize st) = inr (VStr (access_token t))
  /\ session (this (snd (authorize st)))
     = new_session ci (json_of_tokens t) (expiry_after (now (world st3)) t)
  /\ file (world (snd (authorize st))) = file (world st).
Proof.
  intros Hb Hf Hw.
  pose proof (attempt_begins_disk _ _ _ _ Hb) as D2.
  pose proof (performAuthorizationFlow_fixes_disk _ _ _ _ _ Hf) as D3.
  rewrite D2 in D3. unfold disk in D3. inversion D3 as [[Hfile Hwr]].
  rewrite (authorize_completes md _ _ _ st st2 st3 Hb Hf
             (expiry_of_tokens t st3)).
  rewrite saveSession_unwritable by (cbn; congruence).
  repeat split; auto.
Qed.

(** X11. What the token endpoint says when it refuses the code reaches
    the caller of [authorize()] as it is, and no record is written. *)
Theorem token_exchange_failure_reaches_caller
        (md ci cid te : value) (u u2 : URL) (d : N)
        (code error : option string) (resp : Response) (st st2 : State) :
  attempt_begins md ci st st2 ->
  attempt_ready md ci cid u st2 ->
  hd NoVisit (visits (world st2)) = Arrives d code error ->
  Z.of_N d < 300000 ->
  present error = false ->
  present code = true ->
  JS.get md "token_endpoint" = inr te ->
  URL_parse te = Some u2 ->
  response (next_reply (world st2)) = Some resp ->
  ok resp = false ->
  fst (authorize st) = inl (Error ("Token exchange failed: " ++ text resp)%string)
  /\ file (world (snd (authorize st))) = file (world st).
Proof.
  intros Hb Hr Hv Hd He Hc Hte Hu2 Hresp Hok.
  pose proof (flow_exchanges md ci cid te u u2 d code error st2
                Hr Hv Hd He Hc Hte Hu2) as Hf.
  rewrite Hresp in Hf. unfold exchange_outcome in Hf. rewrite Hok in Hf.
  pose proof (attempt_begins_disk _ _ _ _ Hb) as D2.
  pose proof (performAuthorizationFlow_fixes_disk _ _ _ _ _ Hf) as D3.
  rewrite D2 in D3. apply (f_equal fst) in D3. cbn [disk fst] in D3.
  destruct Hb as (Hl & st1 & Hdm & Hcf).
  rewrite (authorize_flow_failure md ci _ st st1 st2 _ Hl Hdm Hcf Hf).
  split; [reflexivity | exact D3].
Qed.

(** X12. A server whose discovery document names no registration
    endpoint, and no static client configured: [authorize()] fails with
    its fixed message after the discovery request alone. No registration
    request is sent, no port is bound and no browser is opened. *)
Theorem authorize_without_registration_endpoint
        (md ep : value) (u u' : URL) (st : State) :
  truthy (loaded (world st)) = false ->
  truthy (cfg_staticClientInfo (config (this st))) = false ->
  URL_parse (VStr (cfg_serverUrl (config (this st)))) = Some u ->
  URL_parse (target (discovery_request (base_of u))) = Some u' ->
  offered (world st) = Some md ->
  JS.get md "registration_endpoint" = inr ep ->
  truthy ep = false ->
  authorize st
  = (inl (Error "OAuth client registration failed and no static client info provided"),
     knowing md (sending (discovery_request (base_of u))
                         (holding (loaded (world st)) st))).
Proof.
  intros Hl Hstatic Hu Hu' Hoff Hep Ht.
  apply (authorize_replaces_registration_error md
           (Error "Dynamic client registration not supported by server")
           st (knowing md (sending (discovery_request (base_of u))
                                   (holding (loaded (world st)) st)))
           _ Hl Hstatic).
  - rewrite (discoverMetadata_eq u) by exact Hu.
    rewrite Hu'. cbn [holding world]. rewrite Hoff. reflexivity.
  - unfold registerClient, bind, prop, lift. rewrite Hep, Ht. reflexivity.
Qed.

End Coverage.

(** ** Properties of the wrapper *)

Section Served.

Import Wrapper.

Lemma Map_get_set_same (k : string) (s : ToolStats) (m : StatsMap) :
  Map_get k (Map_set k s m) = Some s.
Proof.
  induction m as [|[k' s'] m IH]; cbn.
  - rewrite String.eqb_refl. reflexivity.
  - destruct (String.eqb_spec k k') as [->|Hne]; cbn.
    + rewrite String.eqb_refl. reflexivity.
    + destruct (String.eqb_spec k k'); [contradiction|exact IH].
Qed.

Lemma Map_get_set_other (k k' : string) (s : ToolStats) (m : StatsMap) :
  k <> k' -> Map_get k (Map_set k' s m) = Map_get k m.
Proof.
  intros Hne. induction m as [|[k0 s0] m IH]; cbn.
  - destruct (String.eqb_spec k k'); [contradiction|reflexivity].
  - destruct (String.eqb_spec k' k0) as [->|H0]; cbn.
    + destruct (String.eqb_spec k k0); [contradiction|reflexivity].
    + rewrite IH. reflexivity.
Qed.

Lemma Map_get_In (k : string) (s : ToolStats) (m : StatsMap) :
  Map_get k m = Some s -> In (k, s) m.
Proof.
  induction m as [|[k' s'] m IH]; cbn; [discriminate|].
  destruct (String.eqb_spec k k') as [->|Hne].
  - intros H. inversion H. left. reflexivity.
  - intros H. right. exact (IH H).
Qed.

Lemma In_Map_get (k : string) (s : ToolStats) (m : StatsMap) :
  NoDup (map fst m) -> In (k, s) m -> Map_get k m = Some s.
Proof.
  induction m as [|[k' s'] m IH]; cbn; [contradiction|].
  intros Hnd [H|H].
  - inversion H. rewrite String.eqb_refl. reflexivity.
  - inversion Hnd as [|x l Hnot Hnd']. subst.
    destruct (String.eqb_spec k k') as [->|Hne].
    + exfalso. apply Hnot. apply (in_map fst) in H. exact H.
    + exact (IH Hnd' H).
Qed.

Lemma Map_get_None (k : string) (m : StatsMap) :
  Map_get k m = None -> ~ In k (map fst m).
Proof.
  induction m as [|[k' s'] m IH]; cbn; [tauto|].
  destruct (String.eqb_spec k k') as [->|Hne]; [discriminate|].
  intros H [H'|H']; [congruence|exact (IH H H')].
Qed.

Lemma Map_set_keys (k : string) (s : ToolStats) (m : StatsMap) :
  map fst (Map_set k s m)
  = if Map_has k m then map fst m else map fst m ++ [k].
Proof.
  unfold Map_has. induction m as [|[k' s'] m IH]; cbn; [reflexivity|].
  destruct (String.eqb_spec k k') as [->|Hne]; cbn; [reflexivity|].
  rewrite IH. destruct (Map_get k m); reflexivity.
Qed.

Lemma updateStats_counts (n : string) (b : bool) (d : Z) (m : StatsMap) :
  exists m',
    updateStats n b d m = inr m'
    /\ Map_get n m' = Some (counted b d (entry_or_new n (Map_get n m)))
    /\ (forall k, k <> n -> Map_get k m' = Map_get k m)
    /\ map fst m' = if Map_has n m then map fst m else map fst m ++ [n].
Proof.
  unfold updateStats, Map_has, entry_or_new.
  destruct (Map_get n m) as [s|] eqn:Hg; cbn [negb].
  - rewrite Hg. eexists. split; [reflexivity|].
    split; [apply Map_get_set_same|].
    split; [intros k Hk; apply Map_get_set_other; exact Hk|].
    rewrite Map_set_keys. unfold Map_has. rewrite Hg. reflexivity.
  - rewrite Map_get_set_same. eexists. split; [reflexivity|].
    split; [apply Map_get_set_same|].
    split.
    + intros k Hk. rewrite !Map_get_set_other by exact Hk. reflexivity.
    + rewrite !Map_set_keys. unfold Map_has.
      rewrite Map_get_set_same, Hg. reflexivity.
Qed.

(** The handler of [tools/call], case by case. *)
Lemma call_tool_handler_rejects (p : CallParams) (a : Answer) (s : Serving) :
  admits (wrapper s) (call_name p) = false ->
  call_tool_handler p a s
  = (inl (Error ("Tool '" ++ call_name p ++ "' is not allowed")%string), s).
Proof.
  unfold admits, call_tool_handler. intros H.
  apply negb_false_iff in H. rewrite H. reflexivity.
Qed.

Lemma call_tool_handler_forwards (p : CallParams) (a : Answer) (s : Serving) :
  admits (wrapper s) (call_name p) = true ->
  exists m,
    call_tool_handler p a s
    = (outcome a, with_stats s (clock s + Z.of_N (took a)) p m)
    /\ Map_get (call_name p) m
       = Some (counted (succeeded (p, a)) (Z.of_N (took a))
                       (entry_or_new (call_name p)
                          (Map_get (call_name p) (stats (wrapper s)))))
    /\ (forall k, k <> call_name p ->
                  Map_get k m = Map_get k (stats (wrapper s)))
    /\ map fst m
       = if Map_has (call_name p) (stats (wrapper s))
         then map fst (stats (wrapper s))
         else map fst (stats (wrapper s)) ++ [call_name p].
Proof.
  unfold admits, call_tool_handler, count_failure, succeeded. intros H.
  apply negb_true_iff in H. rewrite H. cbn [snd].
  replace (clock s + Z.of_N (took a) - clock s) with (Z.of_N (took a)) by lia.
  destruct (outcome a) as [e|v].
  - destruct (updateStats_counts (call_name p) false (Z.of_N (took a))
                                 (stats (wrapper s)))
      as (m & Hm & H1 & H2 & H3).
    rewrite Hm. exists m. repeat split; assumption.
  - destruct (updateStats_counts (call_name p) true (Z.of_N (took a))
                                 (stats (wrapper s)))
      as (m & Hm & H1 & H2 & H3).
    rewrite Hm. exists m. repeat split; assumption.
Qed.

Lemma call_tool_handler_allowedTools (p : CallParams) (a : Answer) (s : Serving) :
  allowedTools (wrapper (snd (call_tool_handler p a s)))
  = allowedTools (wrapper s).
Proof.
  destruct (admits (wrapper s) (call_name p)) eqn:Ha.
  - destruct (call_tool_handler_forwards p a s Ha) as (m & Hm & _).
    rewrite Hm. reflexivity.
  - rewrite (call_tool_handler_rejects p a s Ha). reflexivity.
Qed.

Lemma admits_allowedTools (w w' : MCPWrapper) (n : string) :
  allowedTools w' = allowedTools w -> admits w' n = admits w n.
Proof. unfold admits, restricted. intros ->. reflexivity. Qed.

Lemma admitted_allowedTools (w w' : MCPWrapper)
      (cs : list (CallParams * Answer)) :
  allowedTools w' = allowedTools w -> admitted w' cs = admitted w cs.
Proof.
  intros H. unfold admitted. apply filter_ext. intros c.
  apply admits_allowedTools. exact H.
Qed.

(** X13. Calls served in a row: each caller gets the upstream server's
    own result or failure if the tool is let through, and the fixed
    refusal otherwise; the calls let through are forwarded in order,
    the others never; and only forwarded calls take time. *)
Theorem serve_passes_through (cs : list (CallParams * Answer)) (s : Serving) :
  fst (serve cs s) = map (fun c => reply_to (wrapper s) (fst c) (snd c)) cs
  /\ forwarded (snd (serve cs s))
     = forwarded s ++ map fst (admitted (wrapper s) cs)
  /\ clock (snd (serve cs s)) = clock s + time_taken (admitted (wrapper s) cs).
Proof.
  revert s. induction cs as [|[p a] cs IH]; intros s; cbn [serve].
  - cbn. rewrite app_nil_r. repeat split. lia.
  - pose proof (call_tool_handler_allowedTools p a s) as Hal.
    destruct (call_tool_handler p a s) as [r s1] eqn:Hc.
    specialize (IH s1). destruct (serve cs s1) as [rs s2].
    cbn [fst snd] in *. destruct IH as (IH1 & IH2 & IH3).
    rewrite (admitted_allowedTools (wrapper s) (wrapper s1) cs Hal) in IH2, IH3.
    unfold admitted at 1 2. cbn [map filter fst snd]. unfold reply_to at 1.
    fold (admitted (wrapper s) cs).
    destruct (admits (wrapper s) (call_name p)) eqn:Ha.
    + destruct (call_tool_handler_forwards p a s Ha) as (m & Hm & _).
      rewrite Hm in Hc. inversion Hc; subst r s1. clear Hc.
      cbn [with_stats forwarded clock wrapper allowedTools] in *.
      split.
      * f_equal. rewrite IH1. reflexivity.
      * split.
        -- rewrite IH2. cbn [map]. rewrite <- app_assoc. reflexivity.
        -- rewrite IH3. cbn [time_taken fold_right snd].
           fold (time_taken (admitted (wrapper s) cs)). lia.
    + rewrite (call_tool_handler_rejects p a s Ha) in Hc.
      inversion Hc; subst r s1. clear Hc.
      split.
      * f_equal. exact IH1.
      * split; assumption.
Qed.

Lemma plus_tally_nil (n : string) (s : ToolStats) :
  plus_stats s (tally n []) = s.
Proof.
  destruct s. unfold plus_stats, tally. cbn. f_equal; lia.
Qed.

Lemma plus_tally_cons (n : string) (s : ToolStats) (c : CallParams * Answer)
      (mine : list (CallParams * Answer)) :
  plus_stats s (tally n (c :: mine))
  = plus_stats (counted (succeeded c) (Z.of_N (took (snd c))) s) (tally n mine).
Proof.
  unfold plus_stats, tally, counted.
  cbn [name callCount successCount errorCount totalDuration filter
       time_taken fold_right].
  fold (time_taken mine).
  destruct (succeeded c); cbn [negb List.length]; f_equal; lia.
Qed.

Lemma serve_stats (n : string) (cs : list (CallParams * Answer)) (s : Serving) :
  Map_get n (stats (wrapper (snd (serve cs s))))
  = match calls_of n (admitted (wrapper s) cs) with
    | [] => Map_get n (stats (wrapper s))
    | mine =>
        Some (plus_stats (entry_or_new n (Map_get n (stats (wrapper s))))
                         (tally n mine))
    end.
Proof.
  revert s. induction cs as [|[p a] cs IH]; intros s; cbn [serve].
  - reflexivity.
  - pose proof (call_tool_handler_allowedTools p a s) as Hal.
    destruct (call_tool_handler p a s) as [r s1] eqn:Hc.
    specialize (IH s1). destruct (serve cs s1) as [rs s2].
    cbn [fst snd] in *.
    rewrite (admitted_allowedTools (wrapper s) (wrapper s1) cs Hal) in IH.
    unfold admitted at 1. cbn [filter fst]. fold (admitted (wrapper s) cs).
    destruct (admits (wrapper s) (call_name p)) eqn:Ha.
    + destruct (call_tool_handler_forwards p a s Ha) as (m & Hm & H1 & H2 & _).
      rewrite Hm in Hc. inversion Hc; subst r s1. clear Hc.
      cbn [with_stats wrapper stats] in IH.
      unfold calls_of at 1. cbn [filter fst].
      fold (calls_of n (admitted (wrapper s) cs)).
      destruct (String.eqb_spec n (call_name p)) as [->|Hne].
      * rewrite IH, H1. cbn [entry_or_new].
        rewrite plus_tally_cons. cbn [snd].
        destruct (calls_of (call_name p) (admitted (wrapper s) cs)) as [|c mine].
        -- rewrite plus_tally_nil. reflexivity.
        -- reflexivity.
      * rewrite IH, (H2 n Hne). reflexivity.
    + rewrite (call_tool_handler_rejects p a s Ha) in Hc.
      inversion Hc; subst r s1. exact IH.
Qed.

(** X14. The statistics count the calls: after any calls served by a
    wrapper that starts with none, a tool has an entry exactly if a call
    to it was forwarded, and the entry holds the number of those calls,
    of those the upstream server answered and of those it failed, and
    the time they took together. Refused calls are not counted. *)
Theorem stats_count_forwarded_calls
        (allowed : list string) (t : Z) (cs : list (CallParams * Answer))
        (toolName : string) :
  Map_get toolName (stats (wrapper (snd (serve cs (serving allowed t)))))
  = match calls_of toolName (admitted (wrapper (serving allowed t)) cs) with
    | [] => None
    | mine => Some (tally toolName mine)
    end.
Proof.
  rewrite serve_stats. cbn [serving wrapper stats Map_get entry_or_new].
  destruct (calls_of toolName _) as [|c mine]; [reflexivity|].
  reflexivity.
Qed.

Lemma call_tool_handler_keeps (p : CallParams) (a : Answer) (s : Serving) :
  well_kept (wrapper s) ->
  well_kept (wrapper (snd (call_tool_handler p a s))).
Proof.
  intros (Hnd & Hall).
  destruct (admits (wrapper s) (call_name p)) eqn:Ha;
    [|rewrite (call_tool_handler_rejects p a s Ha); split; assumption].
  destruct (call_tool_handler_forwards p a s Ha) as (m & Hm & H1 & H2 & H3).
  rewrite Hm. cbn [snd with_stats wrapper]. unfold well_kept. cbn [stats].
  assert (Hnd' : NoDup (map fst m)).
  { rewrite H3. unfold Map_has.
    destruct (Map_get (call_name p) (stats (wrapper s))) eqn:Hg; [exact Hnd|].
    apply NoDup_app; [exact Hnd | repeat constructor; intros [] | ].
    intros x Hx [<-|[]]. exact (Map_get_None _ _ Hg Hx). }
  split; [exact Hnd'|].
  intros k e Hin. apply (In_Map_get _ _ _ Hnd') in Hin.
  destruct (String.eqb_spec k (call_name p)) as [->|Hne].
  - rewrite H1 in Hin. inversion Hin; subst e. clear Hin.
    destruct (Map_get (call_name p) (stats (wrapper s))) as [e0|] eqn:Hg;
      cbn [entry_or_new counted name callCount successCount errorCount].
    + destruct (Hall _ _ (Map_get_In _ _ _ Hg)) as (N & A & P & E & S & R).
      split; [exact N|]. split; [exact Ha|].
      destruct (succeeded (p, a)); repeat split; lia.
    + split; [reflexivity|]. split; [exact Ha|].
      destruct (succeeded (p, a)); repeat split; lia.
  - rewrite (H2 k Hne) in Hin.
    exact (Hall _ _ (Map_get_In _ _ _ Hin)).
Qed.

(** X15. The statistics stay in order: whatever calls a wrapper has
    served, [getStats] has one entry for a tool, named as the tool, only
    for tools that are let through, and in every entry the calls are at
    least one and are the successes and the errors together. *)
Theorem stats_stay_in_order
        (allowed : list string) (t : Z) (cs : list (CallParams * Answer)) :
  let w := wrapper (snd (serve cs (serving allowed t))) in
  NoDup (map name (getStats w))
  /\ forall e, In e (getStats w) ->
       admits w (name e) = true
       /\ 0 < callCount e
       /\ callCount e = successCount e + errorCount e.
Proof.
  assert (K : forall cs s, well_kept (wrapper s) ->
                           well_kept (wrapper (snd (serve cs s)))).
  { clear. induction cs as [|[p a] cs IH]; intros s Hs; cbn [serve];
      [exact Hs|].
    pose proof (call_tool_handler_keeps p a s Hs) as H1.
    destruct (call_tool_handler p a s) as [r s1].
    specialize (IH s1 H1). destruct (serve cs s1) as [rs s2]. exact IH. }
  assert (K0 : well_kept (wrapper (serving allowed t))).
  { split; [constructor|]. intros k s []. }
  specialize (K cs _ K0). cbv zeta.
  destruct K as (Hnd & Hall).
  assert (Hnames : map name (getStats (wrapper (snd (serve cs (serving allowed t)))))
                   = map fst (stats (wrapper (snd (serve cs (serving allowed t)))))).
  { unfold getStats. rewrite map_map. apply map_ext_in.
    intros [k e] Hin. cbn. exact (proj1 (Hall k e Hin)). }
  split; [rewrite Hnames; exact Hnd|].
  intros e Hin. unfold getStats in Hin. apply in_map_iff in Hin.
  destruct Hin as ([k e'] & <- & Hin). cbn [snd].
  destruct (Hall k e' Hin) as (N & A & P & E & _).
  rewrite N. repeat split; assumption.
Qed.

(** X16. The two handlers agree: of the tools the upstream server lists,
    [tools/list] shows exactly those that [tools/call] forwards a call
    to. An empty list of allowed tools lets every tool through. *)
Theorem listed_tools_are_the_callable_ones
        (tools listed : list Tool) (tool : Tool) (p : CallParams)
        (a : Answer) (s : Serving) :
  list_tools_handler (wrapper s) (inr tools) = inr listed ->
  In tool tools ->
  call_name p = tool_name tool ->
  (In tool listed
   <-> forwarded (snd (call_tool_handler p a s)) = forwarded s ++ [p])
  /\ (allowedTools (wrapper s) = [] -> listed = tools).
Proof.
  intros Hl Hin Hn. unfold list_tools_handler in Hl. inversion Hl as [Hl'].
  clear Hl. split.
  - destruct (admits (wrapper s) (call_name p)) eqn:Ha.
    + destruct (call_tool_handler_forwards p a s Ha) as (m & Hm & _).
      rewrite Hm. cbn [snd with_stats forwarded].
      split; [reflexivity|]. intros _.
      unfold admits in Ha. destruct (restricted (wrapper s)); [|exact Hin].
      apply filter_In. split; [exact Hin|].
      rewrite <- Hn. cbn in Ha. apply negb_true_iff in Ha.
      apply negb_false_iff in Ha. exact Ha.
    + rewrite (call_tool_handler_rejects p a s Ha). cbn [snd].
      unfold admits in Ha. apply negb_false_iff in Ha.
      apply andb_true_iff in Ha. destruct Ha as [Hr Hi]. rewrite Hr.
      split.
      * intros H. apply filter_In in H. destruct H as [_ H].
        rewrite <- Hn in H. rewrite H in Hi. discriminate Hi.
      * intros H. apply (f_equal (@List.length _)) in H.
        rewrite length_app in H. cbn in H. lia.
  - intros He. unfold restricted. rewrite He. reflexivity.
Qed.

End Served.

(** ** The wrapper and its manager *)

Section Started.

Import Wrapper.

Context {runtime : Runtime}.

Variable ToString : value -> string.

(** *** What the manager sends *)

Lemma sends_ret {A} (P : Request -> Prop) (a : A) : sends P (ret a).
Proof.
  intros st r st' H. inversion H. exists []. rewrite app_nil_r.
  split; [reflexivity|constructor].
Qed.

Lemma sends_throw {A} (P : Request -> Prop) (e : exn) : sends P (@throw A e).
Proof.
  intros st r st' H. inversion H. exists []. rewrite app_nil_r.
  split; [reflexivity|constructor].
Qed.

Lemma sends_lift {A} (P : Request -> Prop) (x : exn + A) : sends P (lift x).
Proof.
  intros st r st' H. inversion H. exists []. rewrite app_nil_r.
  split; [reflexivity|constructor].
Qed.

Lemma sends_read {A} (P : Request -> Prop) (g : State -> A) : sends P (read g).
Proof.
  intros st r st' H. inversion H. exists []. rewrite app_nil_r.
  split; [reflexivity|constructor].
Qed.

Lemma sends_then {A} (P : Request -> Prop) (m : M A) (st st1 st2 : State)
      (r : exn + A) :
  m st = (r, st1) -> sends P m ->
  (exists new, sent (world st2) = sent (world st1) ++ new /\ Forall P new) ->
  exists new, sent (world st2) = sent (world st) ++ new /\ Forall P new.
Proof.
  intros Hm Hs (new2 & E2 & F2). destruct (Hs _ _ _ Hm) as (new1 & E1 & F1).
  exists (new1 ++ new2). rewrite E2, E1, app_assoc.
  split; [reflexivity|]. apply Forall_app. split; assumption.
Qed.

Lemma sends_bind {A B} (P : Request -> Prop) (m : M A) (k : A -> M B) :
  sends P m -> (forall a, sends P (k a)) -> sends P (bind m k).
Proof.
  intros Hm Hk st r st' H. unfold bind in H.
  destruct (m st) as [[e|a] s1] eqn:Hms.
  - inversion H; subst. exact (Hm _ _ _ Hms).
  - exact (sends_then P m st s1 st' _ Hms Hm (Hk a _ _ _ H)).
Qed.

Lemma sends_try_catch {A} (P : Request -> Prop) (m : M A) (h : exn -> M A) :
  sends P m -> (forall e, sends P (h e)) -> sends P (try_catch m h).
Proof.
  intros Hm Hh st r st' H. unfold try_catch in H.
  destruct (m st) as [[e|a] s1] eqn:Hms.
  - exact (sends_then P m st s1 st' _ Hms Hm (Hh e _ _ _ H)).
  - inversion H; subst. exact (Hm _ _ _ Hms).
Qed.

Lemma sends_quietly {A} (P : Request -> Prop) (g : World -> (exn + A) * World) :
  (forall w, sent (snd (g w)) = sent w) -> sends P (effect g).
Proof.
  intros Hg [m w] r st' H. unfold effect in H. cbn in H.
  specialize (Hg w). destruct (g w) as [r' w']. inversion H; subst.
  exists []. cbn in *. rewrite app_nil_r. split; [exact Hg|constructor].
Qed.

Lemma sends_fetch (P : Request -> Prop) (url : value) (meth : string)
      (hdrs : list (string * string)) (data : payload) :
  P {| target := url; method := meth; headers := hdrs; body := data |} ->
  sends P (fetch url meth hdrs data).
Proof.
  intros HP. unfold fetch. destruct (URL_parse url); [|apply sends_throw].
  intros [m w] r st' H. unfold effect in H. cbn in H.
  exists [{| target := url; method := meth; headers := hdrs; body := data |}].
  destruct (response (next_reply w)); inversion H; subst; cbn;
    (split; [reflexivity|repeat constructor; exact HP]).
Qed.

Lemma sends_set_session (P : Request -> Prop) (v : value) :
  sends P (set_session v).
Proof.
  intros st r st' H. inversion H. exists []. rewrite app_nil_r.
  split; [reflexivity|constructor].
Qed.

Lemma sends_set_metadata (P : Request -> Prop) (v : value) :
  sends P (set_metadata v).
Proof.
  intros st r st' H. inversion H. exists []. rewrite app_nil_r.
  split; [reflexivity|constructor].
Qed.

#[local] Hint Resolve sends_ret sends_throw sends_lift sends_read
  sends_bind sends_try_catch sends_set_session sends_set_metadata : sends.
#[local] Hint Extern 3 (sends _ (if ?b then _ else _)) => destruct b : sends.
#[local] Hint Extern 3 (sends _ (match ?x with _ => _ end)) => destruct x : sends.
#[local] Hint Extern 2 (sends _ (fetch _ _ _ _)) =>
  apply sends_fetch; reflexivity : sends.

Lemma sends_randomBytes (P : Request -> Prop) (n : nat) :
  sends P (randomBytes n).
Proof. apply sends_quietly. reflexivity. Qed.

Lemma sends_listen (P : Request -> Prop) : sends P listen.
Proof.
  apply sends_quietly. intros w. destruct (port_free w (now w)); reflexivity.
Qed.

Lemma sends_open (P : Request -> Prop) (u : URL) : sends P (open u).
Proof. apply sends_quietly. reflexivity. Qed.

Lemma sends_await_callback (P : Request -> Prop) : sends P await_callback.
Proof.
  apply sends_quietly. intros w.
  destruct (hd NoVisit (visits w)) as [|d c e]; [reflexivity|].
  destruct (Z.of_N d <? 300000); reflexivity.
Qed.

Lemma sends_await_unheard (P : Request -> Prop) : sends P await_unheard.
Proof. apply sends_quietly. reflexivity. Qed.

Lemma sends_mkdir (P : Request -> Prop) : sends P mkdir.
Proof. apply sends_quietly. reflexivity. Qed.

Lemma sends_writeFile (P : Request -> Prop) (data : option value) :
  sends P (writeFile data).
Proof.
  destruct data as [j|]; [|apply sends_throw].
  apply sends_quietly. intros w. destruct (writable w); reflexivity.
Qed.

#[local] Hint Resolve sends_randomBytes sends_listen sends_open
  sends_await_callback sends_await_unheard sends_mkdir sends_writeFile : sends.

Lemma client_for_static (md : value) (st : State) :
  truthy (cfg_staticClientInfo (config (this st))) = true ->
  client_for md st = (inr (cfg_staticClientInfo (config (this st))), st).
Proof.
  intros H. unfold client_for, bind, read. rewrite H. reflexivity.
Qed.

Lemma discoverMetadata_sends :
  sends (fun rq => registers rq = false) discoverMetadata.
Proof.
  unfold discoverMetadata, getAuthBaseUrl, new_URL, response_json.
  auto 30 with sends.
Qed.

Lemma authorize_anew_sends (st : State) :
  truthy (cfg_staticClientInfo (config (this st))) = true ->
  exists new,
    sent (world (snd (authorize_anew st))) = sent (world st) ++ new
    /\ Forall (fun rq => registers rq = false) new.
Proof.
  intros Hs. unfold authorize_anew. rewrite bind_run.
  destruct (discoverMetadata st) as [[e|md] s1] eqn:Hd.
  - exact (discoverMetadata_sends _ _ _ Hd).
  - apply (sends_then _ _ _ _ _ _ Hd discoverMetadata_sends).
    pose proof (discoverMetadata_config _ _ _ Hd) as Hc.
    rewrite bind_run, client_for_static by (rewrite Hc; exact Hs).
    match goal with
    | |- context [snd (?m s1)] =>
        assert (F : sends (fun rq => registers rq = false) m)
    end.
    { unfold performAuthorizationFlow, generatePKCE, expiry_of, Date_now,
        saveSession, new_URL, response_json, prop.
      auto 80 with sends. }
    match goal with
    | |- context [snd (?m s1)] =>
        destruct (m s1) as [r s2] eqn:Hm; exact (F _ _ _ Hm)
    end.
Qed.

Lemma static_client_truthy (c : WrapperConfig) (opts : OAuthOptions)
      (id : string) :
  w_oauth c = Some opts -> o_clientId opts = Some id -> id <> "" ->
  static_client (w_oauth c)
  = VObj [("client_id", VStr id);
          ("client_secret", match o_clientSecret opts with
                            | Some secret => VStr secret
                            | None => VUndef
                            end)].
Proof.
  intros Ho Hi Hne. unfold static_client. rewrite Ho, Hi.
  destruct (String.eqb_spec id ""); [contradiction|reflexivity].
Qed.

(** X17. A wrapper configured with a client id never registers a client:
    the manager its constructor makes takes the configured client for
    every authorization, and no request [authorize()] sends, in whatever
    state of that manager, is a registration. *)
Theorem configured_client_is_never_registered
        (c : WrapperConfig) (opts : OAuthOptions) (id : string)
        (m : OAuthManager) (st : State) :
  w_oauth c = Some opts ->
  o_clientId opts = Some id ->
  id <> "" ->
  oauthManager c = Some m ->
  config (this st) = config m ->
  (forall md, client_for md st = (inr (static_client (w_oauth c)), st))
  /\ JS.get (static_client (w_oauth c)) "client_id" = inr (VStr id)
  /\ exists new,
       sent (world (snd (authorize st))) = sent (world st) ++ new
       /\ Forall (fun rq => registers rq = false) new.
Proof.
  intros Ho Hi Hne Hm Hc.
  pose proof (static_client_truthy c opts id Ho Hi Hne) as Hs.
  assert (Hcfg : cfg_staticClientInfo (config (this st))
                 = static_client (w_oauth c)).
  { unfold oauthManager in Hm.
    destruct (String.eqb (w_authMode c) "oauth"); [|discriminate Hm].
    inversion Hm; subst m. rewrite Hc. reflexivity. }
  assert (Ht : truthy (cfg_staticClientInfo (config (this st))) = true)
    by (rewrite Hcfg, Hs; reflexivity).
  split; [intros md; rewrite <- Hcfg; exact (client_for_static md st Ht)|].
  split; [rewrite Hs; reflexivity|].
  destruct (truthy (loaded (world st))) eqn:Hl.
  - rewrite (authorize_hit st Hl), access_token_of_pure. exists [].
    cbn. rewrite app_nil_r. split; [reflexivity|constructor].
  - rewrite (authorize_miss st Hl).
    exact (authorize_anew_sends (holding (loaded (world st)) st) Ht).
Qed.

(** *** [start] *)

Lemma header_set_same (k x : string) (hs : list (string * string)) :
  header k (set_header k x hs) = Some x.
Proof.
  induction hs as [|[k' v] hs IH]; cbn.
  - rewrite String.eqb_refl. reflexivity.
  - destruct (String.eqb_spec k k') as [->|Hne]; cbn.
    + rewrite String.eqb_refl. reflexivity.
    + destruct (String.eqb_spec k k'); [contradiction|exact IH].
Qed.

Lemma header_set_other (k k' x : string) (hs : list (string * string)) :
  k <> k' -> header k (set_header k' x hs) = header k hs.
Proof.
  intros Hne. induction hs as [|[k0 v] hs IH]; cbn.
  - destruct (String.eqb_spec k k'); [contradiction|reflexivity].
  - destruct (String.eqb_spec k' k0) as [->|H0]; cbn.
    + destruct (String.eqb_spec k k0); [contradiction|reflexivity].
    + rewrite IH. reflexivity.
Qed.

Lemma set_header_nonempty (k x : string) (hs : list (string * string)) :
  (0 <? Z.of_nat (List.length (set_header k x hs))) = true.
Proof.
  destruct hs as [|[k' v] hs]; cbn [set_header]; [reflexivity|].
  destruct (String.eqb k k'); cbn [List.length]; apply Z.ltb_lt; lia.
Qed.

(** X18. In OAuth mode [start] connects upstream with the token that
    [authorize()] returned: the transport's headers carry
    [Authorization: Bearer <token>] in place of a configured
    [Authorization], every other configured header is kept, and an SSE
    transport carries the same headers for its event source. What
    [start] comes to is what the two connections come to. *)
Theorem start_connects_with_the_token
        (c : WrapperConfig) (connect : Transport -> exn + unit)
        (stdio : exn + unit) (token : string) (u : URL) (st st' : State) :
  w_authMode c = "oauth" ->
  authorize st = (inr (VStr token), st') ->
  ToString (VStr token) = token ->
  URL_parse (VStr (w_upstreamUrl c)) = Some u ->
  exists (tr : Transport) (hs : list (string * string)),
    start ToString c connect stdio st
    = (match connect tr with inr _ => stdio | inl e => inl e end, st')
    /\ connects_to tr = u
    /\ kind tr = (if String.eqb (w_transportType c) "http"
                  then StreamableHTTP else SSE)
    /\ requestInit tr = Some hs
    /\ eventSourceInit tr = (if String.eqb (w_transportType c) "http"
                             then None else Some hs)
    /\ hs = set_header "Authorization" ("Bearer " ++ token)%string (w_headers c)
    /\ header "Authorization" hs = Some ("Bearer " ++ token)%string
    /\ forall k, k <> "Authorization" -> header k hs = header k (w_headers c).
Proof.
  intros Hmode Hauth Htext Hu.
  exists {| kind := if String.eqb (w_transportType c) "http"
                    then StreamableHTTP else SSE;
            connects_to := u;
            requestInit :=
              Some (set_header "Authorization" ("Bearer " ++ token)%string
                               (w_headers c));
            eventSourceInit :=
              if String.eqb (w_transportType c) "http" then None
              else Some (set_header "Authorization"
                                    ("Bearer " ++ token)%string (w_headers c)) |},
         (set_header "Authorization" ("Bearer " ++ token)%string (w_headers c)).
  split.
  - unfold start, try_catch, bind, new_URL, ret, lift, throw.
    rewrite Hmode. cbn [String.eqb Ascii.eqb Bool.eqb]. rewrite Hauth, Htext, Hu.
    rewrite set_header_nonempty.
    destruct (String.eqb (w_transportType c) "http");
      match goal with
      | |- context [connect ?t] => destruct (connect t) as [e|[]]
      end; try reflexivity; destruct stdio as [e|[]]; reflexivity.
  - cbn [connects_to kind requestInit eventSourceInit].
    repeat split.
    + apply header_set_same.
    + intros k Hk. apply header_set_other. exact Hk.
Qed.

(** X19. In OAuth mode a failure of [authorize()] is the failure of
    [start]: the same exception, neither connection is consulted, and
    the session file is as it was before [start]. *)
Theorem start_fails_as_authorize_fails
        (c : WrapperConfig) (connect : Transport -> exn + unit)
        (stdio : exn + unit) (e : exn) (st st' : State) :
  w_authMode c = "oauth" ->
  authorize st = (inl e, st') ->
  start ToString c connect stdio st = (inl e, st')
  /\ file (world st') = file (world st).
Proof.
  intros Hmode Hauth. split.
  - unfold start, try_catch, bind, throw.
    rewrite Hmode. cbn [String.eqb Ascii.eqb Bool.eqb]. rewrite Hauth.
    reflexivity.
  - exact (f_equal fst (authorize_failure_disk e st st' Hauth)).
Qed.

(** X20. In the other modes [start] does not call the manager: the state
    is as it was, and the transport carries the configured headers as
    they are, or no options when there are none. *)
Theorem start_without_oauth_spares_the_manager
        (c : WrapperConfig) (connect : Transport -> exn + unit)
        (stdio : exn + unit) (u : URL) (st : State) :
  w_authMode c <> "oauth" ->
  URL_parse (VStr (w_upstreamUrl c)) = Some u ->
  exists tr : Transport,
    start ToString c connect stdio st
    = (match connect tr with inr _ => stdio | inl e => inl e end, st)
    /\ connects_to tr = u
    /\ requestInit tr = match w_headers c with
                        | [] => None
                        | _ => Some (w_headers c)
                        end.
Proof.
  intros Hmode Hu.
  exists {| kind := if String.eqb (w_transportType c) "http"
                    then StreamableHTTP else SSE;
            connects_to := u;
            requestInit := match w_headers c with
                           | [] => None
                           | _ => Some (w_headers c)
                           end;
            eventSourceInit :=
              if String.eqb (w_transportType c) "http" then None
              else match w_headers c with
                   | [] => None
                   | _ => Some (w_headers c)
                   end |}.
  split; [|split; reflexivity].
  unfold start, try_catch, bind, new_URL, ret, lift, throw.
  destruct (String.eqb_spec (w_authMode c) "oauth") as [H|_];
    [contradiction|].
  rewrite Hu.
  assert (Hh : (if 0 <? Z.of_nat (List.length (w_headers c))
                then Some (w_headers c) else None)
               = match w_headers c with
                 | [] => None
                 | _ => Some (w_headers c)
                 end).
  { destruct (w_headers c) as [|h hs]; [reflexivity|].
    replace (0 <? Z.of_nat (List.length (h :: hs))) with true; [reflexivity|].
    symmetry. apply Z.ltb_lt. cbn [List.length]. lia. }
  rewrite Hh.
  destruct (String.eqb (w_transportType c) "http");
    match goal with
    | |- context [connect ?t] => destruct (connect t) as [e|[]]
    end; try reflexivity; destruct stdio as [e|[]]; reflexivity.
Qed.

End Started.

(** ** The properties at concrete inputs *)

#[local] Existing Instance plain_runtime.

(** A record made by hand with an [expiresAt] of [0]: the refresh branch
    is not entered, the cached token is returned and nothing is sent. *)
Example expiry_zero_counts_as_none :
  JS.get (session (this (holding_at 1700000000000 (VNum 0)))) "expiresAt"
  = inr (VNum 0)
  /\ refresh_due (now (world (holding_at 1700000000000 (VNum 0)))) (VNum 0)
     = false
  /\ getAccessToken (holding_at 1700000000000 (VNum 0))
     = (inr (VStr "cached-token"), holding_at 1700000000000 (VNum 0)).
Proof.
  split; [reflexivity|]. split; [reflexivity|]. vm_compute. reflexivity.
Qed.

(** With any other past expiry the same manager refreshes. *)
Example refresh_when_expiry_is_one :
  fst (getAccessToken (holding_at 1700000000000 (VNum 1)))
  = inr (VStr "renewed-token")
  /\ List.length (sent (world (snd (getAccessToken
                                     (holding_at 1700000000000 (VNum 1))))))
     = 1%nat.
Proof. vm_compute. split; reflexivity. Qed.


(** C5 at three calls, 1 s, 61 s and 61 s after a restart. *)
Lemma C5_witness :
  file (world (restarted_at 1700000000000 (json_of_session sample_session)))
  = Content (Some (json_of_session sample_session))
  /\ unexpired (1700000000000 + Z.of_N (total [1000; 60000; 0]%N)) sample_session
  /\ fst (calls authorize [1000; 60000; 0]%N
            (restarted_at 1700000000000 (json_of_session sample_session)))
     = [inr (VStr "cached-token"); inr (VStr "cached-token");
        inr (VStr "cached-token")]
  /\ sent (world (snd (calls authorize [1000; 60000; 0]%N
            (restarted_at 1700000000000 (json_of_session sample_session)))))
     = [].
Proof.
  assert (Hu : unexpired (1700000000000 + Z.of_N (total [1000; 60000; 0]%N))
                         sample_session) by (cbn; lia).
  split; [reflexivity|]. split; [exact Hu|].
  destruct (C5_cache_hit_idempotence sample_session [1000; 60000; 0]%N
              (restarted_at 1700000000000 (json_of_session sample_session))
              eq_refl Hu) as (Hr & _ & Hs & _).
  split; [exact Hr | exact Hs].
Defined.

(** C9 on a session saved without [expiresAt]: loaded in the year 2100,
    and served again after a day and after a year. *)
Lemma C9_witness :
  truthy session_without_expiry = true
  /\ JS.get session_without_expiry "expiresAt" = inr VUndef
  /\ loadSession (restarted_at 4102444800000 (to_json session_without_expiry))
     = (inr (to_json session_without_expiry),
        restarted_at 4102444800000 (to_json session_without_expiry))
  /\ fst (calls getAccessToken [0; 86400000; 31536000000]%N
            (holding session_without_expiry
               (restarted_at 1700000000000 (to_json session_without_expiry))))
     = [inr (VStr "cached-token"); inr (VStr "cached-token");
        inr (VStr "cached-token")].
Proof.
  split; [reflexivity|]. split; [reflexivity|]. split.
  - apply (C9_session_without_expiry_never_expires
             (to_json session_without_expiry) []
             (restarted_at 4102444800000 (to_json session_without_expiry))
             eq_refl eq_refl).
    reflexivity.
  - destruct (C9_session_without_expiry_never_expires
                session_without_expiry [0; 86400000; 31536000000]%N
                (holding session_without_expiry
                   (restarted_at 1700000000000 (to_json session_without_expiry)))
                eq_refl eq_refl) as (_ & Hcalls & _).
    rewrite (Hcalls eq_refl). reflexivity.
Defined.


(** C10 as stated fails 200 s before the expiry of a session that a
    restarted manager found on disk: the refresh is due and cannot be
    made, and [getAccessToken()] hands back the cached token with
    nothing sent and no browser opened, where a full authorization from
    that state would have asked for the metadata and for a client. *)
Lemma C10_counterexample :
  authorize (restarted_at 1700000000000 (json_of_session sample_session))
  = (inr (VStr "cached-token"),
     holding (json_of_session sample_session)
       (restarted_at 1700000000000 (json_of_session sample_session)))
  /\ refresh_due (1700000000000 + 3400000) (VNum 1700003600000) = true
  /\ fst (refreshAccessToken
            (elapse 3400000
               (holding (json_of_session sample_session)
                  (restarted_at 1700000000000
                                (json_of_session sample_session)))))
     = inl (Error "Cannot refresh token: no active session")
  /\ getAccessToken
       (elapse 3400000
          (holding (json_of_session sample_session)
             (restarted_at 1700000000000 (json_of_session sample_session))))
     = (inr (VStr "cached-token"),
        elapse 3400000
          (holding (json_of_session sample_session)
             (restarted_at 1700000000000 (json_of_session sample_session))))
  /\ sent (world (elapse 3400000
                    (holding (json_of_session sample_session)
                       (restarted_at 1700000000000
                                     (json_of_session sample_session)))))
     = []
  /\ map target
         (sent (world (snd (authorize_anew
                              (elapse 3400000
                                 (holding (json_of_session sample_session)
                                    (restarted_at 1700000000000
                                       (json_of_session sample_session))))))))
     = [VStr "https://mcp.example.com/.well-known/oauth-authorization-server";
        VStr "https://mcp.example.com/register"].
Proof. vm_compute. repeat split. Qed.

(** C10 (amended) at a restart one hour before expiry, then 200 s before
    it and 100 s after it. *)
Lemma C10_witness :
  file (world_at 1700000000000 (Content (Some (json_of_session sample_session))) [] [])
  = Content (Some (json_of_session sample_session))
  /\ expiresAt sample_session = Some 1700003600000
  /\ 0 <= 1700000000000 < 1700003600000
  /\ refreshAccessToken
       (elapse 3400000
          (holding (json_of_session sample_session)
             (restarted_at 1700000000000 (json_of_session sample_session))))
     = (inl (Error "Cannot refresh token: no active session"),
        elapse 3400000
          (holding (json_of_session sample_session)
             (restarted_at 1700000000000 (json_of_session sample_session))))
  /\ getAccessToken
       (elapse 3400000
          (holding (json_of_session sample_session)
             (restarted_at 1700000000000 (json_of_session sample_session))))
     = (inr (VStr "cached-token"),
        elapse 3400000
          (holding (json_of_session sample_session)
             (restarted_at 1700000000000 (json_of_session sample_session))))
  /\ getAccessToken
       (elapse 3700000
          (holding (json_of_session sample_session)
             (restarted_at 1700000000000 (json_of_session sample_session))))
     = authorize_anew
         (holding VUndef
            (elapse 3700000
               (holding (json_of_session sample_session)
                  (restarted_at 1700000000000
                                (json_of_session sample_session))))).
Proof.
  assert (Hlt : 0 <= 1700000000000 < 1700003600000) by lia.
  split; [reflexivity|]. split; [reflexivity|].
  split; [exact Hlt|].
  destruct (C10_no_refresh_after_restart example_config
              (world_at 1700000000000
                 (Content (Some (json_of_session sample_session))) [] [])
              sample_session 1700003600000 eq_refl eq_refl Hlt)
    as (_ & _ & Hall).
  destruct (Hall (elapse 3400000
                    (holding (json_of_session sample_session)
                       (restarted_at 1700000000000
                          (json_of_session sample_session))))
                 eq_refl eq_refl) as (Hr & _ & Hhit & _).
  destruct (Hall (elapse 3700000
                    (holding (json_of_session sample_session)
                       (restarted_at 1700000000000
                          (json_of_session sample_session))))
                 eq_refl eq_refl) as (_ & _ & _ & Hanew).
  split; [exact Hr|]. split.
  - apply Hhit; [cbn; lia | reflexivity].
  - apply Hanew; [cbn; lia | reflexivity].
Defined.


(** C3 as stated fails when the refresh is refused with 299 s left on a
    session that is also on disk: [getAccessToken()] hands back the token it held, having sent
    the refresh request and nothing else; the browser was never opened. *)
Lemma C3_counterexample :
  token_in (session (this (refused_at 1700000000000 (VNum 1700000299000))))
  = inr (VStr "cached-token")
  /\ fst (refresh_session (refused_at 1700000000000 (VNum 1700000299000)))
     = inl (Error "Token refresh failed: invalid_grant")
  /\ fst (getAccessToken (refused_at 1700000000000 (VNum 1700000299000)))
     = inr (VStr "cached-token")
  /\ sent (world (snd (getAccessToken
                         (refused_at 1700000000000 (VNum 1700000299000)))))
     = [refresh_request (VStr "https://mcp.example.com/token")
                        (VStr "refresh-1") (VStr "client-1")]
  /\ browser (world (snd (getAccessToken
                            (refused_at 1700000000000 (VNum 1700000299000)))))
     = [].
Proof. vm_compute. repeat split. Qed.

(** C3 (amended) at that same state. *)
Lemma C3_witness :
  session (this (refused_at 1700000000000 (VNum 1700000299000)))
  = record_expiring (VNum 1700000299000)
  /\ truthy (record_expiring (VNum 1700000299000)) = true
  /\ JS.get (record_expiring (VNum 1700000299000)) "expiresAt"
     = inr (VNum 1700000299000)
  /\ refresh_due 1700000000000 (VNum 1700000299000) = true
  /\ refresh_session (refused_at 1700000000000 (VNum 1700000299000))
     = (inl (Error "Token refresh failed: invalid_grant"),
        sending (refresh_request (VStr "https://mcp.example.com/token")
                                 (VStr "refresh-1") (VStr "client-1"))
                (refused_at 1700000000000 (VNum 1700000299000)))
  /\ getAccessToken (refused_at 1700000000000 (VNum 1700000299000))
     = authorize
         (sending (refresh_request (VStr "https://mcp.example.com/token")
                                   (VStr "refresh-1") (VStr "client-1"))
                  (refused_at 1700000000000 (VNum 1700000299000))).
Proof.
  assert (Hfail :
    refresh_session (refused_at 1700000000000 (VNum 1700000299000))
    = (inl (Error "Token refresh failed: invalid_grant"),
       sending (refresh_request (VStr "https://mcp.example.com/token")
                                (VStr "refresh-1") (VStr "client-1"))
               (refused_at 1700000000000 (VNum 1700000299000))))
    by (vm_compute; reflexivity).
  split; [reflexivity|]. split; [reflexivity|]. split; [reflexivity|].
  split; [reflexivity|]. split; [exact Hfail|].
  exact (proj1 (C3_refresh_failure_falls_back_to_authorize
                  (record_expiring (VNum 1700000299000)) (VNum 1700000299000)
                  (Error "Token refresh failed: invalid_grant")
                  (refused_at 1700000000000 (VNum 1700000299000))
                  _ eq_refl eq_refl eq_refl eq_refl Hfail)).
Defined.


(** C6 as stated fails when the discovery endpoint answers 200 with a
    JSON body that is no metadata: an empty object, or [null]. What
    [discoverMetadata] returns is that body, not the fallback, and no
    endpoint can be read from it; [authorize()] then fails. *)
Lemma C6_counterexample :
  discoverMetadata (first_run [after 40 200 "{}" (Some (VObj []))] [])
  = (inr (VObj []),
     knowing (VObj [])
       (sending (discovery_request "https://mcp.example.com")
                (first_run [after 40 200 "{}" (Some (VObj []))] [])))
  /\ JS.get (VObj []) "authorization_endpoint" = inr VUndef
  /\ JS.get (VObj []) "token_endpoint" = inr VUndef
  /\ fst (authorize (first_run [after 40 200 "{}" (Some (VObj []))] []))
     = inl (Error "OAuth client registration failed and no static client info provided")
  /\ fst (discoverMetadata (first_run [after 40 200 "null" (Some VNull)] []))
     = inr VNull
  /\ JS.get VNull "authorization_endpoint" = inl TypeError
  /\ fst (authorize (first_run [after 40 200 "null" (Some VNull)] []))
     = inl (Error "OAuth client registration failed and no static client info provided")
  /\ fst (performAuthorizationFlow (VObj [])
            (VObj [("client_id", VStr "client-1")])
            (snd (discoverMetadata
                    (first_run [after 40 200 "{}" (Some (VObj []))] []))))
     = inl TypeError.
Proof. vm_compute. repeat split. Qed.

(** C6 (amended) at a discovery endpoint that answers 404, and at one
    that answers 200 with an empty object. *)
Lemma C6_witness :
  URL_parse (VStr (cfg_serverUrl (config (this (first_run [not_found] [])))))
  = Some {| protocol := "https:"; host := "mcp.example.com";
            pathname := "/sse"; searchParams := [] |}
  /\ fst (discoverMetadata (first_run [not_found] []))
     = inr (VObj [("authorization_endpoint",
                   VStr "https://mcp.example.com/authorize");
                  ("token_endpoint", VStr "https://mcp.example.com/token");
                  ("registration_endpoint",
                   VStr "https://mcp.example.com/register")])
  /\ fst (discoverMetadata (first_run [after 40 200 "{}" (Some (VObj []))] []))
     = inr (VObj []).
Proof.
  split; [reflexivity|]. split.
  - destruct (C6_discovery_fails_soft (runtime := plain_runtime)
                {| protocol := "https:"; host := "mcp.example.com";
                   pathname := "/sse"; searchParams := [] |}
                (first_run [not_found] []) eq_refl) as (_ & Hfail & _).
    destruct Hfail as [Hmd _].
    + right; left. eexists. split; reflexivity.
    + exact Hmd.
  - destruct (C6_discovery_fails_soft (runtime := plain_runtime)
                {| protocol := "https:"; host := "mcp.example.com";
                   pathname := "/sse"; searchParams := [] |}
                (first_run [after 40 200 "{}" (Some (VObj []))] []) eq_refl)
      as (_ & _ & Hany & _).
    rewrite (Hany {| status := 200; text := "{}"; json := Some (VObj []) |}
                  (VObj [])
                  {| protocol := "https:"; host := "mcp.example.com";
                     pathname := "/.well-known/oauth-authorization-server";
                     searchParams := [] |}
                  eq_refl eq_refl eq_refl eq_refl).
    reflexivity.
Defined.

(** C8 as stated fails when the registration endpoint answers 400 with
    a text of its own: the error [authorize()] throws is the same whatever that text is, and is
    not the one [registerClient] threw. *)
Lemma C8_counterexample :
  fst (authorize (first_run [not_found; after 60 400 "invalid_redirect_uri" None] []))
  = inl (Error "OAuth client registration failed and no static client info provided")
  /\ fst (authorize (first_run [not_found; after 60 400 "server is down" None] []))
     = inl (Error "OAuth client registration failed and no static client info provided")
  /\ fst (registerClient (default_metadata "https://mcp.example.com")
            (first_run [after 60 400 "invalid_redirect_uri" None] []))
     = inl (Error "Client registration failed: invalid_redirect_uri").
Proof. vm_compute. repeat split. Qed.

(** C8 (amended) at that registration answer. *)
Lemma C8_witness :
  truthy (loaded (world (first_run
            [not_found; after 60 400 "invalid_redirect_uri" None] []))) = false
  /\ fst (authorize (first_run
            [not_found; after 60 400 "invalid_redirect_uri" None] []))
     = inl (Error "OAuth client registration failed and no static client info provided").
Proof.
  split; [reflexivity|].
  destruct (C8_registration_failure_message (runtime := plain_runtime)
              (default_metadata "https://mcp.example.com")
              (VStr "https://mcp.example.com/register")
              {| protocol := "https:"; host := "mcp.example.com";
                 pathname := "/register"; searchParams := [] |}
              {| status := 400; text := "invalid_redirect_uri"; json := None |}
              (first_run [not_found; after 60 400 "invalid_redirect_uri" None] [])
              (knowing (default_metadata "https://mcp.example.com")
                 (sending (discovery_request "https://mcp.example.com")
                    (first_run [not_found;
                                after 60 400 "invalid_redirect_uri" None] [])))
              eq_refl eq_refl eq_refl eq_refl eq_refl eq_refl eq_refl eq_refl)
    as [_ Ha].
  rewrite Ha. reflexivity.
Defined.


(** C1 as stated fails on records that lack a required field; they are
    not treated as absent:
    [loadSession] returns them. Without [tokens], [authorize()] then
    throws a TypeError; without [clientInfo], it returns the record's
    access token. In both cases nothing is sent: no authorization is
    performed. *)
Lemma C1_counterexample :
  fst (loadSession (restarted_at 1700000000000 record_without_tokens))
  = inr record_without_tokens
  /\ authorize (restarted_at 1700000000000 record_without_tokens)
     = (inl TypeError,
        holding record_without_tokens
          (restarted_at 1700000000000 record_without_tokens))
  /\ fst (loadSession (restarted_at 1700000000000 record_without_clientInfo))
     = inr record_without_clientInfo
  /\ authorize (restarted_at 1700000000000 record_without_clientInfo)
     = (inr (VStr "cached-token"),
        holding record_without_clientInfo
          (restarted_at 1700000000000 record_without_clientInfo))
  /\ sent (world (snd (authorize
                         (restarted_at 1700000000000 record_without_tokens))))
     = []
  /\ sent (world (snd (authorize
                         (restarted_at 1700000000000 record_without_clientInfo))))
     = [].
Proof. vm_compute. repeat split. Qed.

(** C1 (amended) at a record read at the very instant it expires. *)
Lemma C1_witness :
  file (world (restarted_at 1700000000000
                 (json_of_session sample_session)))
  = Content (Some (json_of_session sample_session))
  /\ loaded (world (elapse 3600000
                      (restarted_at 1700000000000
                         (json_of_session sample_session)))) = VUndef
  /\ authorize (elapse 3600000
                  (restarted_at 1700000000000 (json_of_session sample_session)))
     = authorize_anew
         (holding VUndef
            (elapse 3600000
               (restarted_at 1700000000000 (json_of_session sample_session)))).
Proof.
  split; [reflexivity|].
  destruct (C1_load_session (runtime := plain_runtime)
              (elapse 3600000
                 (restarted_at 1700000000000 (json_of_session sample_session))))
    as (_ & Habsent & _).
  apply Habsent. do 4 right.
  exists (json_of_session sample_session), 1700003600000.
  split; [reflexivity|]. split; [reflexivity|]. split; [lia|].
  cbn. lia.
Defined.


(** C2 at an authorization the user never completes. *)
Lemma C2_witness :
  truthy (loaded (world abandoned)) = false
  /\ no_callback_ever abandoned
  /\ fst (authorize abandoned) = inl (Error "Authorization timeout")
  /\ now (world (snd (authorize abandoned))) = 1700000000000 + 40 + 60 + 300000
  /\ listener (world (snd (authorize abandoned))) = Bound None
  /\ forall t, port_free (world (snd (authorize abandoned))) t = false.
Proof.
  assert (Hd : discoverMetadata (holding (loaded (world abandoned)) abandoned)
               = (inr (default_metadata "https://mcp.example.com"),
                  snd (discoverMetadata abandoned)))
    by (vm_compute; reflexivity).
  assert (Hc : client_for (default_metadata "https://mcp.example.com")
                          (snd (discoverMetadata abandoned))
               = (inr (VObj [("client_id", VStr "client-1")]),
                  snd (client_for (default_metadata "https://mcp.example.com")
                                  (snd (discoverMetadata abandoned)))))
    by (vm_compute; reflexivity).
  assert (Hu : URL_parse (VStr "https://mcp.example.com/authorize")
               = Some {| protocol := "https:"; host := "mcp.example.com";
                         pathname := "/authorize"; searchParams := [] |})
    by (vm_compute; reflexivity).
  assert (Hp : port_free
                 (world (snd (client_for
                                (default_metadata "https://mcp.example.com")
                                (snd (discoverMetadata abandoned)))))
                 (now (world (snd (client_for
                                (default_metadata "https://mcp.example.com")
                                (snd (discoverMetadata abandoned))))))
               = true)
    by (vm_compute; reflexivity).
  split; [reflexivity|]. split; [reflexivity|].
  destruct (C2_timeout_leaves_listener_bound (runtime := plain_runtime)
              (default_metadata "https://mcp.example.com")
              (VObj [("client_id", VStr "client-1")])
              (VStr "https://mcp.example.com/authorize")
              (VStr "client-1") _ abandoned _ _
              eq_refl Hd Hc eq_refl Hu eq_refl Hp I)
    as (Hr & Hnow & _ & Hbound).
  destruct (Hbound eq_refl) as [Hl Hfree].
  split; [exact Hr|]. split; [rewrite Hnow; vm_compute; reflexivity|].
  split; [exact Hl | exact Hfree].
Defined.

(** After the abandoned attempt the port is still held: the next attempt
    cannot bind it, opens the browser all the same, and times out after
    another 300 seconds, whether or not the user comes back. *)
Example second_attempt_is_not_heard :
  fst (authorize (snd (authorize abandoned)))
  = inl (Error "Authorization timeout")
  /\ now (world (snd (authorize (snd (authorize abandoned)))))
     = 1700000000000 + 40 + 60 + 300000 + 40 + 60 + 300000
  /\ List.length (browser (world (snd (authorize (snd (authorize abandoned))))))
     = 2%nat
  /\ listener (world (snd (authorize (snd (authorize abandoned))))) = Bound None.
Proof. vm_compute. repeat split. Qed.

(** A first authorization that goes through: discovery falls back to the
    defaults, a client is registered, the user comes back after five
    seconds with a code, the code is exchanged, and the session is saved;
    the server closes one second after the callback. *)
Example first_authorization :
  fst (authorize (first_run [not_found; registered; granted]
                            [Arrives 5000 (Some "code-1") None]))
  = inr (VStr "fresh-token")
  /\ file (world (snd (authorize
                         (first_run [not_found; registered; granted]
                                    [Arrives 5000 (Some "code-1") None]))))
     = Content (Some (VObj
         [("clientInfo", VObj [("client_id", VStr "client-1")]);
          ("tokens", VObj [("access_token", VStr "fresh-token");
                           ("token_type", VStr "Bearer");
                           ("expires_in", VNum 3600);
                           ("refresh_token", VStr "refresh-1")]);
          ("expiresAt", VNum 1700003605190)]))
  /\ listener (world (snd (authorize
                             (first_run [not_found; registered; granted]
                                        [Arrives 5000 (Some "code-1") None]))))
     = Bound (Some 1700000006100)
  /\ map target (sent (world (snd (authorize
                             (first_run [not_found; registered; granted]
                                        [Arrives 5000 (Some "code-1") None])))))
     = [VStr "https://mcp.example.com/.well-known/oauth-authorization-server";
        VStr "https://mcp.example.com/register";
        VStr "https://mcp.example.com/token"].
Proof. vm_compute. repeat split. Qed.


(** C7 at two calls in a row on a source that counts 0, 1, 2, ... *)
Lemma C7_witness :
  generatePKCE (first_run [] [])
  = (inr ("AAECAwQFBgcICQoLDA0ODxAREhMUFRYXGBkaGxwdHh8",
          "6oZqdX5MOLq_qBJ8vppAnT4fk6AP8UiP9zX8-Rev_9A"),
     snd (generatePKCE (first_run [] [])))
  /\ verify_S256 "AAECAwQFBgcICQoLDA0ODxAREhMUFRYXGBkaGxwdHh8"
                 "6oZqdX5MOLq_qBJ8vppAnT4fk6AP8UiP9zX8-Rev_9A" = true
  /\ fst (generatePKCE (snd (generatePKCE (first_run [] []))))
     = inr ("ICEiIyQlJicoKSorLC0uLzAxMjM0NTY3ODk6Ozw9Pj8",
            "zwkx4Wi0nph1A8rxivb-JTtrPYKoEAjD6OHuZ8fI3FU")
  /\ "ICEiIyQlJicoKSorLC0uLzAxMjM0NTY3ODk6Ozw9Pj8"
     <> "AAECAwQFBgcICQoLDA0ODxAREhMUFRYXGBkaGxwdHh8".
Proof.
  assert (H1 : generatePKCE (first_run [] [])
               = (inr ("AAECAwQFBgcICQoLDA0ODxAREhMUFRYXGBkaGxwdHh8",
                       "6oZqdX5MOLq_qBJ8vppAnT4fk6AP8UiP9zX8-Rev_9A"),
                  snd (generatePKCE (first_run [] []))))
    by (vm_compute; reflexivity).
  assert (H2 : generatePKCE (snd (generatePKCE (first_run [] [])))
               = (inr ("ICEiIyQlJicoKSorLC0uLzAxMjM0NTY3ODk6Ozw9Pj8",
                       "zwkx4Wi0nph1A8rxivb-JTtrPYKoEAjD6OHuZ8fI3FU"),
                  snd (generatePKCE (snd (generatePKCE (first_run [] []))))))
    by (vm_compute; reflexivity).
  destruct (C7_pkce_pair (first_run [] []))
    as (v & c & st' & Hg & _ & _ & _ & _ & _ & _ & _ & _ & _ & Hcheck & Hdiff).
  rewrite H1 in Hg. inversion Hg as [[Hv Hc Hst]]. subst v c.
  split; [exact H1|]. split; [exact Hcheck|]. split; [rewrite H2; reflexivity|].
  apply (Hdiff _ _ _ _ H2). vm_compute. discriminate.
Defined.


(** ** The further properties at concrete inputs *)

(** X1 at an authorization the user never completes. *)
Lemma authorize_failure_keeps_record_witness :
  authorize abandoned
  = (inl (Error "Authorization timeout"), snd (authorize abandoned))
  /\ file (world (snd (authorize abandoned))) = Missing.
Proof.
  assert (H : authorize abandoned
              = (inl (Error "Authorization timeout"), snd (authorize abandoned)))
    by (vm_compute; reflexivity).
  split; [exact H|].
  exact (authorize_failure_keeps_record (runtime := plain_runtime) _ _ _ H).
Defined.

(** X2 at the sample session, read back half an hour later. *)
Lemma save_load_round_trip_witness :
  file (world (snd (saveSession (json_of_session sample_session)
                                (first_run [] []))))
  = Content (Some (json_of_session sample_session))
  /\ fst (loadSession
            (elapse 1800000
               (snd (saveSession (json_of_session sample_session)
                                 (first_run [] [])))))
     = inr (json_of_session sample_session).
Proof.
  apply (save_load_round_trip (runtime := plain_runtime)
           sample_session 1800000 (first_run [] [])).
  - reflexivity.
  - unfold unexpired. cbn. lia.
Defined.

(** X3 at a first authorization on a disk that takes no writes. *)
Lemma authorize_on_read_only_disk_witness :
  fst (authorize (read_only completing)) = inr (VStr "fresh-token")
  /\ file (world (snd (authorize (read_only completing)))) = Missing.
Proof.
  pose (md := default_metadata "https://mcp.example.com").
  pose (st1 := snd (discoverMetadata (read_only completing))).
  pose (st2 := snd (client_for md st1)).
  pose (st3 := snd (performAuthorizationFlow
                      md (json_of_client registered_client) st2)).
  assert (Hb : attempt_begins md (json_of_client registered_client)
                              (read_only completing) st2).
  { split; [reflexivity|]. exists st1.
    split; vm_compute; reflexivity. }
  assert (Hf : performAuthorizationFlow md (json_of_client registered_client) st2
               = (inr (json_of_tokens granted_tokens), st3))
    by (vm_compute; reflexivity).
  destruct (authorize_on_read_only_disk (runtime := plain_runtime)
              md (json_of_client registered_client) granted_tokens
              (read_only completing) st2 st3 Hb Hf eq_refl)
    as (H1 & _ & H3).
  split; [exact H1 | exact H3].
Defined.

(** X4 on a manager that holds a saved session. *)
Lemma clearSession_clears_witness :
  fst (clearSession (holding_at 1700000000000 (VNum 1700000299000))) = inr tt
  /\ file (world (snd (clearSession
                         (holding_at 1700000000000 (VNum 1700000299000)))))
     = Missing.
Proof.
  destruct (clearSession_clears (runtime := plain_runtime)
              (holding_at 1700000000000 (VNum 1700000299000)))
    as (H1 & _ & _ & _ & H5).
  split; [exact H1 | exact (proj1 (H5 eq_refl))].
Defined.

(** X5 and X6 at a refresh that is due and is answered with tokens that
    carry no refresh token. *)
Lemma getAccessToken_after_granted_refresh_witness :
  fst (getAccessToken (holding_at 1700000000000 (VNum 1700000299000)))
  = inr (VStr "renewed-token")
  /\ JS.get (session (this (snd (getAccessToken
                                   (holding_at 1700000000000
                                               (VNum 1700000299000))))))
            "expiresAt"
     = inr (VNum (1700000000000 + 120 + 3600 * 1000)).
Proof.
  assert (Hr : refresh_ready (runtime := plain_runtime)
                 due_session "refresh-1"
                 (VStr "https://mcp.example.com/token")
                 {| status := 200; text := ""; json := Some renewed_tokens |}
                 (holding_at 1700000000000 (VNum 1700000299000))).
  { split; [reflexivity|].
    split; [exists 1700000299000; repeat split; [discriminate|cbn; lia]|].
    split; [reflexivity|]. split; [discriminate|].
    split; [reflexivity|]. split; [reflexivity|].
    split; [eexists; vm_compute; reflexivity|reflexivity]. }
  destruct (getAccessToken_after_granted_refresh (runtime := plain_runtime)
              due_session renewed "refresh-1"
              (VStr "https://mcp.example.com/token") _ _ Hr eq_refl eq_refl)
    as (H1 & H2 & _).
  split; [exact H1|]. rewrite H2. reflexivity.
Defined.

Lemma refresh_token_is_not_carried_over_witness :
  fst (refreshAccessToken
         (snd (getAccessToken (holding_at 1700000000000 (VNum 1700000299000)))))
  = inl (Error "No refresh token available").
Proof.
  assert (Hr : refresh_ready (runtime := plain_runtime)
                 due_session "refresh-1"
                 (VStr "https://mcp.example.com/token")
                 {| status := 200; text := ""; json := Some renewed_tokens |}
                 (holding_at 1700000000000 (VNum 1700000299000))).
  { split; [reflexivity|].
    split; [exists 1700000299000; repeat split; [discriminate|cbn; lia]|].
    split; [reflexivity|]. split; [discriminate|].
    split; [reflexivity|]. split; [reflexivity|].
    split; [eexists; vm_compute; reflexivity|reflexivity]. }
  rewrite (refresh_token_is_not_carried_over (runtime := plain_runtime)
             due_session renewed "refresh-1"
             (VStr "https://mcp.example.com/token") _ _ Hr eq_refl eq_refl
             eq_refl).
  reflexivity.
Defined.

(** X7 and X9 at the first authorization that goes through. *)
Lemma authorization_binds_verifier_witness :
  exists authUrl challenge,
    browser (world (snd (performAuthorizationFlow
                           (default_metadata "https://mcp.example.com")
                           (json_of_client registered_client)
                           (snd (client_for
                                   (default_metadata "https://mcp.example.com")
                                   (snd (discoverMetadata completing)))))))
    = [authUrl]
    /\ lookup "code_challenge" (searchParams authUrl) = Some (VStr challenge)
    /\ verify_S256 "AAECAwQFBgcICQoLDA0ODxAREhMUFRYXGBkaGxwdHh8" challenge = true.
Proof.
  pose (md := default_metadata "https://mcp.example.com").
  pose (st2 := snd (client_for md (snd (discoverMetadata completing)))).
  assert (Hr : attempt_ready (runtime := plain_runtime)
                 md (json_of_client registered_client) (VStr "client-1")
                 {| protocol := "https:"; host := "mcp.example.com";
                    pathname := "/authorize"; searchParams := [] |} st2).
  { split; [eexists; split; [reflexivity|vm_compute; reflexivity]|].
    split; [reflexivity|vm_compute; reflexivity]. }
  destruct (authorization_binds_verifier (runtime := plain_runtime)
              md (json_of_client registered_client) (VStr "client-1")
              (VStr "https://mcp.example.com/token")
              {| protocol := "https:"; host := "mcp.example.com";
                 pathname := "/authorize"; searchParams := [] |}
              {| protocol := "https:"; host := "mcp.example.com";
                 pathname := "/token"; searchParams := [] |}
              5000 (Some "code-1") None st2 Hr eq_refl eq_refl eq_refl eq_refl
              eq_refl eq_refl)
    as (authUrl & challenge & H1 & H2 & _ & _ & _ & _ & _ & H8).
  exists authUrl, challenge.
  split; [exact H1|]. split; [exact H2|].
  assert (Hv : attempt_verifier st2 = "AAECAwQFBgcICQoLDA0ODxAREhMUFRYXGBkaGxwdHh8")
    by (vm_compute; reflexivity).
  rewrite <- Hv. exact H8.
Defined.

Lemma callback_releases_port_witness :
  listener (world (snd (performAuthorizationFlow
                          (default_metadata "https://mcp.example.com")
                          (json_of_client registered_client)
                          (snd (client_for
                                  (default_metadata "https://mcp.example.com")
                                  (snd (discoverMetadata completing)))))))
  = Bound (Some (1700000000000 + 40 + 60 + 5000 + 1000)).
Proof.
  pose (md := default_metadata "https://mcp.example.com").
  pose (st2 := snd (client_for md (snd (discoverMetadata completing)))).
  assert (Hr : attempt_ready (runtime := plain_runtime)
                 md (json_of_client registered_client) (VStr "client-1")
                 {| protocol := "https:"; host := "mcp.example.com";
                    pathname := "/authorize"; searchParams := [] |} st2).
  { split; [eexists; split; [reflexivity|vm_compute; reflexivity]|].
    split; [reflexivity|vm_compute; reflexivity]. }
  refine (eq_trans
            (callback_releases_port (runtime := plain_runtime)
               md (json_of_client registered_client) (VStr "client-1") _
               5000 (Some "code-1") None st2 Hr eq_refl eq_refl) _).
  vm_compute. reflexivity.
Defined.

(** X8 at a callback that carries an error next to a code. *)
Lemma callback_without_code_fails_witness :
  fst (performAuthorizationFlow
         (default_metadata "https://mcp.example.com")
         (json_of_client registered_client)
         (snd (client_for (default_metadata "https://mcp.example.com")
                          (snd (discoverMetadata denied)))))
  = inl (Error "Authorization failed: access_denied")
  /\ List.length (sent (world (snd (performAuthorizationFlow
         (default_metadata "https://mcp.example.com")
         (json_of_client registered_client)
         (snd (client_for (default_metadata "https://mcp.example.com")
                          (snd (discoverMetadata denied))))))))
     = 2%nat.
Proof.
  pose (md := default_metadata "https://mcp.example.com").
  pose (st2 := snd (client_for md (snd (discoverMetadata denied)))).
  assert (Hr : attempt_ready (runtime := plain_runtime)
                 md (json_of_client registered_client) (VStr "client-1")
                 {| protocol := "https:"; host := "mcp.example.com";
                    pathname := "/authorize"; searchParams := [] |} st2).
  { split; [eexists; split; [reflexivity|vm_compute; reflexivity]|].
    split; [reflexivity|vm_compute; reflexivity]. }
  destruct (callback_without_code_fails (runtime := plain_runtime)
              md (json_of_client registered_client) (VStr "client-1") _
              5000 (Some "code-1") (Some "access_denied") st2 Hr
              eq_refl eq_refl (or_introl eq_refl))
    as (H1 & H2 & _).
  split; [exact H1|]. refine (eq_trans (f_equal (@List.length _) H2) _).
  vm_compute. reflexivity.
Defined.

(** X10 at the first authorization that goes through, and a restart one
    hour later. *)
Lemma authorize_then_restart_witness :
  fst (authorize completing) = inr (VStr "fresh-token")
  /\ fst (authorize
            (fresh example_config
               (world_at 1700003600000
                         (file (world (snd (authorize completing)))) [] [])))
     = inr (VStr "fresh-token").
Proof.
  pose (md := default_metadata "https://mcp.example.com").
  pose (st1 := snd (discoverMetadata completing)).
  pose (st2 := snd (client_for md st1)).
  pose (st3 := snd (performAuthorizationFlow
                      md (json_of_client registered_client) st2)).
  assert (Hb : attempt_begins md (json_of_client registered_client)
                              completing st2).
  { split; [reflexivity|]. exists st1.
    split; vm_compute; reflexivity. }
  assert (Hf : performAuthorizationFlow md (json_of_client registered_client) st2
               = (inr (json_of_tokens granted_tokens), st3))
    by (vm_compute; reflexivity).
  destruct (authorize_then_restart (runtime := plain_runtime)
              md registered_client granted_tokens completing st2 st3
              Hb Hf eq_refl)
    as (H1 & _ & H3).
  split; [exact H1|].
  refine (f_equal fst (H3 example_config _ eq_refl _)).
  vm_compute. reflexivity.
Defined.

(** X11 at a token endpoint that answers [invalid_grant]. *)
Lemma token_exchange_failure_reaches_caller_witness :
  fst (authorize exchange_refused)
  = inl (Error "Token exchange failed: invalid_grant")
  /\ file (world (snd (authorize exchange_refused))) = Missing.
Proof.
  pose (md := default_metadata "https://mcp.example.com").
  pose (st1 := snd (discoverMetadata exchange_refused)).
  pose (st2 := snd (client_for md st1)).
  assert (Hb : attempt_begins md (json_of_client registered_client)
                              exchange_refused st2).
  { split; [reflexivity|]. exists st1.
    split; vm_compute; reflexivity. }
  assert (Hr : attempt_ready (runtime := plain_runtime)
                 md (json_of_client registered_client) (VStr "client-1")
                 {| protocol := "https:"; host := "mcp.example.com";
                    pathname := "/authorize"; searchParams := [] |} st2).
  { split; [eexists; split; [reflexivity|vm_compute; reflexivity]|].
    split; [reflexivity|vm_compute; reflexivity]. }
  exact (token_exchange_failure_reaches_caller (runtime := plain_runtime)
           md (json_of_client registered_client) (VStr "client-1")
           (VStr "https://mcp.example.com/token") _
           {| protocol := "https:"; host := "mcp.example.com";
              pathname := "/token"; searchParams := [] |}
           5000 (Some "code-1") None
           {| status := 400; text := "invalid_grant"; json := None |}
           exchange_refused st2 Hb Hr eq_refl eq_refl eq_refl eq_refl
           eq_refl eq_refl eq_refl eq_refl).
Defined.

(** X12 at a server whose discovery document names no registration
    endpoint. *)
Lemma authorize_without_registration_endpoint_witness :
  fst (authorize closed_server)
  = inl (Error "OAuth client registration failed and no static client info provided")
  /\ map target (sent (world (snd (authorize closed_server))))
     = [VStr "https://mcp.example.com/.well-known/oauth-authorization-server"]
  /\ browser (world (snd (authorize closed_server))) = [].
Proof.
  rewrite (authorize_without_registration_endpoint (runtime := plain_runtime)
             closed_metadata VUndef
             {| protocol := "https:"; host := "mcp.example.com";
                pathname := "/sse"; searchParams := [] |}
             {| protocol := "https:"; host := "mcp.example.com";
                pathname := "/.well-known/oauth-authorization-server";
                searchParams := [] |}
             closed_server eq_refl eq_refl eq_refl eq_refl eq_refl
             eq_refl eq_refl).
  repeat split.
Defined.

(** The wrapper serving four calls, one of them to a tool that is not
    allowed and one that the upstream server fails. *)
Lemma serve_passes_through_witness :
  fst (Wrapper.serve
         [(calling "search_web", answering 30 (inr (VStr "found")));
          (calling "delete_all", answering 10 (inr (VStr "gone")));
          (calling "search_web", answering 50 (inl (Error "upstream down")));
          (calling "fetch_url", answering 20 (inr (VStr "page")))]
         (Wrapper.serving ["search_web"; "fetch_url"] 1700000000000))
  = [inr (VStr "found");
     inl (Error "Tool 'delete_all' is not allowed");
     inl (Error "upstream down");
     inr (VStr "page")]
  /\ map Wrapper.call_name
         (Wrapper.forwarded
            (snd (Wrapper.serve
                    [(calling "search_web", answering 30 (inr (VStr "found")));
                     (calling "delete_all", answering 10 (inr (VStr "gone")));
                     (calling "search_web",
                      answering 50 (inl (Error "upstream down")));
                     (calling "fetch_url", answering 20 (inr (VStr "page")))]
                    (Wrapper.serving ["search_web"; "fetch_url"] 1700000000000))))
     = ["search_web"; "search_web"; "fetch_url"].
Proof.
  destruct (serve_passes_through
              [(calling "search_web", answering 30 (inr (VStr "found")));
               (calling "delete_all", answering 10 (inr (VStr "gone")));
               (calling "search_web", answering 50 (inl (Error "upstream down")));
               (calling "fetch_url", answering 20 (inr (VStr "page")))]
              (Wrapper.serving ["search_web"; "fetch_url"] 1700000000000))
    as (H1 & H2 & _).
  split.
  - refine (eq_trans H1 _). vm_compute. reflexivity.
  - refine (eq_trans (f_equal (map Wrapper.call_name) H2) _).
    vm_compute. reflexivity.
Defined.

Lemma stats_count_forwarded_calls_witness :
  Wrapper.getStats
    (Wrapper.wrapper
       (snd (Wrapper.serve
               [(calling "search_web", answering 30 (inr (VStr "found")));
                (calling "delete_all", answering 10 (inr (VStr "gone")));
                (calling "search_web", answering 50 (inl (Error "upstream down")));
                (calling "fetch_url", answering 20 (inr (VStr "page")))]
               (Wrapper.serving ["search_web"; "fetch_url"] 1700000000000))))
  = [{| Wrapper.name := "search_web"; Wrapper.callCount := 2;
        Wrapper.successCount := 1; Wrapper.errorCount := 1;
        Wrapper.totalDuration := 80 |};
     {| Wrapper.name := "fetch_url"; Wrapper.callCount := 1;
        Wrapper.successCount := 1; Wrapper.errorCount := 0;
        Wrapper.totalDuration := 20 |}]
  /\ Wrapper.Map_get "delete_all"
       (Wrapper.stats
          (Wrapper.wrapper
             (snd (Wrapper.serve
                     [(calling "search_web", answering 30 (inr (VStr "found")));
                      (calling "delete_all", answering 10 (inr (VStr "gone")));
                      (calling "search_web",
                       answering 50 (inl (Error "upstream down")));
                      (calling "fetch_url", answering 20 (inr (VStr "page")))]
                     (Wrapper.serving ["search_web"; "fetch_url"]
                                      1700000000000)))))
     = None.
Proof.
  split; [vm_compute; reflexivity|].
  refine (eq_trans
            (stats_count_forwarded_calls ["search_web"; "fetch_url"]
               1700000000000 _ "delete_all") _).
  vm_compute. reflexivity.
Defined.

(** X16 at a wrapper that allows one of the two tools upstream. *)
Lemma listed_tools_are_the_callable_ones_witness :
  Wrapper.list_tools_handler
    (Wrapper.wrapper (Wrapper.serving ["search_web"] 1700000000000))
    (inr [search_tool; delete_tool])
  = inr [search_tool]
  /\ (In delete_tool [search_tool]
      <-> Wrapper.forwarded
            (snd (Wrapper.call_tool_handler
                    (calling "delete_all") (answering 10 (inr (VStr "gone")))
                    (Wrapper.serving ["search_web"] 1700000000000)))
          = [] ++ [calling "delete_all"]).
Proof.
  split; [reflexivity|].
  exact (proj1 (listed_tools_are_the_callable_ones
                  [search_tool; delete_tool] [search_tool] delete_tool
                  (calling "delete_all") (answering 10 (inr (VStr "gone")))
                  (Wrapper.serving ["search_web"] 1700000000000)
                  eq_refl (or_intror (or_introl eq_refl)) eq_refl)).
Defined.

(** X17 at the first run of a wrapper with a client of its own. *)
Lemma configured_client_is_never_registered_witness :
  map target
      (sent (world (snd (authorize
                           (wrapper_first_run
                              [not_found; granted]
                              [Arrives 5000 (Some "code-1") None])))))
  = [VStr "https://mcp.example.com/.well-known/oauth-authorization-server";
     VStr "https://mcp.example.com/token"]
  /\ exists new,
       sent (world (snd (authorize
                           (wrapper_first_run
                              [not_found; granted]
                              [Arrives 5000 (Some "code-1") None]))))
       = [] ++ new
       /\ Forall (fun rq => Wrapper.registers rq = false) new.
Proof.
  split; [vm_compute; reflexivity|].
  exact (proj2 (proj2
           (configured_client_is_never_registered (runtime := plain_runtime)
              oauth_wrapper _ "static-client" _
              (wrapper_first_run [not_found; granted]
                                 [Arrives 5000 (Some "code-1") None])
              eq_refl eq_refl ltac:(discriminate) eq_refl eq_refl))).
Defined.

(** X18 to X20: the wrapper in OAuth mode on its first run, with the
    user coming back and with the user staying away, and the wrapper in
    token mode. *)
Lemma start_connects_with_the_token_witness :
  exists tr,
    Wrapper.start text_of oauth_wrapper connects (inr tt)
                  (wrapper_first_run [not_found; granted]
                                     [Arrives 5000 (Some "code-1") None])
    = (inr tt,
       snd (authorize (wrapper_first_run [not_found; granted]
                                         [Arrives 5000 (Some "code-1") None])))
    /\ Wrapper.requestInit tr
       = Some [("X-Api-Key", "k-1"); ("Authorization", "Bearer fresh-token")]
    /\ Wrapper.eventSourceInit tr = Wrapper.requestInit tr.
Proof.
  assert (Ha : authorize (wrapper_first_run [not_found; granted]
                                            [Arrives 5000 (Some "code-1") None])
               = (inr (VStr "fresh-token"),
                  snd (authorize
                         (wrapper_first_run [not_found; granted]
                                            [Arrives 5000 (Some "code-1") None]))))
    by (vm_compute; reflexivity).
  destruct (start_connects_with_the_token (runtime := plain_runtime) text_of
              oauth_wrapper connects (inr tt) "fresh-token"
              {| protocol := "https:"; host := "mcp.example.com";
                 pathname := "/sse"; searchParams := [] |}
              _ _ eq_refl Ha eq_refl eq_refl)
    as (tr & hs & H1 & _ & _ & H4 & H5 & H6 & _).
  exists tr. split; [exact H1|]. rewrite H5, H4, H6. split; reflexivity.
Defined.

Lemma start_fails_as_authorize_fails_witness :
  Wrapper.start text_of oauth_wrapper connects (inr tt)
                (wrapper_first_run [not_found] [])
  = (inl (Error "Authorization timeout"),
     snd (authorize (wrapper_first_run [not_found] []))).
Proof.
  apply (start_fails_as_authorize_fails (runtime := plain_runtime) text_of
           oauth_wrapper connects (inr tt)
           (Error "Authorization timeout")
           (wrapper_first_run [not_found] [])).
  - reflexivity.
  - vm_compute. reflexivity.
Defined.

Lemma start_without_oauth_spares_the_manager_witness :
  exists tr,
    Wrapper.start text_of token_wrapper connects (inr tt) (first_run [] [])
    = (inr tt, first_run [] [])
    /\ Wrapper.requestInit tr = Some [("Authorization", "Bearer configured")].
Proof.
  destruct (start_without_oauth_spares_the_manager (runtime := plain_runtime)
              text_of token_wrapper connects (inr tt)
              {| protocol := "https:"; host := "mcp.example.com";
                 pathname := "/mcp"; searchParams := [] |}
              (first_run [] []) ltac:(discriminate) eq_refl)
    as (tr & H1 & _ & H3).
  exists tr. split; [exact H1 | exact H3].
Defined.

(** ** Test vectors *)

(** The verifier and challenge of RFC 7636, appendix B. *)
Example rfc7636_appendix_B :
  Crypto.base64url (Crypto.sha256 (Crypto.bytes_of_string
     "dBjftJeZ4CVP-mB92K27uhbUJU1p1r_wW1gFWFOEjXk"))
  = "E9Melhoa2OwvFrEMTJguCHaoeK1t8URWbuGJSstw-cM".
Proof. vm_compute. reflexivity. Qed.

Example sha256_constants :
  List.length Crypto.K = 64%nat
  /\ hd 0 Crypto.K = 0x428a2f98 /\ last Crypto.K 0 = 0xc67178f2
  /\ hd 0 Crypto.H0 = 0x6a09e667 /\ last Crypto.H0 0 = 0x5be0cd19.
Proof. vm_compute. repeat split. Qed.

Example base64url_0_31 :
  Crypto.base64url (map Z.of_nat (seq 0 32))
  = "AAECAwQFBgcICQoLDA0ODxAREhMUFRYXGBkaGxwdHh8".
Proof. vm_compute. reflexivity. Qed.
